(** * The MCP client's response decoding pipeline

    A shallow embedding of [src/mcp_client/client.py]: the wire-string
    extractor [extract_jsonrpc], the canonical result model
    ([TextContent], [ToolCallResult]), the general decoder
    [parse_tool_response], the session operations of [Client]
    ([_get_next_request_id], the two steps of the handshake,
    [initialize], [initialize_with_streams], [list_tools],
    [call_tool]), [call_any_tool] and the reading of the arguments
    in [main].

    Python values are modelled by the inductive type [PyVal]; a Python
    [str] is its sequence of code points.  Operations that can raise are
    written in a small error monad, methods of [Client] in a state and
    error monad over the client object and its two streams.

    Left out are the calls to the logger and to [print], which write
    text and change none of the values studied (what they evaluate
    and can raise on is kept), the SSE transport class, of which
    [initialize] only asks for the streams, [call_random_tool], whose
    pattern tests for the decimal digits of Unicode, and what [main]
    does once it has read its arguments. *)

From Stdlib Require Import Ascii String Decimal DecimalZ.
From Stdlib Require Import List FinFun Bool Arith NArith ZArith Lia.
Import ListNotations.

Set Implicit Arguments.
Set Warnings "-register-all".
Local Open Scope N_scope.

(** ** Python strings *)

(** A [str] is a sequence of Unicode code points. *)
Definition pystr := list N.

(** [u "abc"] is the [str] whose code points are the bytes of the
    literal (an ASCII literal denotes itself). *)
Definition u (s : string) : pystr :=
  List.map N_of_ascii (list_ascii_of_string s).

Fixpoint pystr_eqb (a b : pystr) : bool :=
  match a, b with
  | [], [] => true
  | x :: a', y :: b' => (x =? y) && pystr_eqb a' b'
  | _, _ => false
  end.

(** [s.startswith(p)] *)
Fixpoint startswith (p s : pystr) : bool :=
  match p, s with
  | [], _ => true
  | x :: p', y :: s' => (x =? y) && startswith p' s'
  | _ :: _, [] => false
  end.

(** [needle in s] for two strings: substring test. *)
Fixpoint substring_in (needle s : pystr) : bool :=
  startswith needle s ||
  match s with
  | [] => false
  | _ :: s' => substring_in needle s'
  end.

(** [s.replace(old, new)] for a non-empty [old]: occurrences are found
    left to right and do not overlap.  [skip] counts the characters of
    an occurrence that are still to be dropped. *)
Fixpoint replace_from (old new : pystr) (skip : nat) (s : pystr) : pystr :=
  match s with
  | [] => []
  | c :: s' =>
      match skip with
      | S k => replace_from old new k s'
      | O => if startswith old s
             then new ++ replace_from old new (length old - 1) s'
             else c :: replace_from old new 0 s'
      end
  end.

(** [s.replace(old, new)]; an empty [old] matches between any two
    characters and at both ends. *)
Definition str_replace (old new s : pystr) : pystr :=
  match old with
  | [] => new ++ flat_map (fun c => c :: new) s
  | _ :: _ => replace_from old new 0 s
  end.

(** [str(n)] for an [int]: the decimal numeral, with a minus sign for
    negative numbers. *)
Fixpoint digits_of_uint (d : Decimal.uint) : pystr :=
  match d with
  | Nil => []
  | D0 d' => 48 :: digits_of_uint d'
  | D1 d' => 49 :: digits_of_uint d'
  | D2 d' => 50 :: digits_of_uint d'
  | D3 d' => 51 :: digits_of_uint d'
  | D4 d' => 52 :: digits_of_uint d'
  | D5 d' => 53 :: digits_of_uint d'
  | D6 d' => 54 :: digits_of_uint d'
  | D7 d' => 55 :: digits_of_uint d'
  | D8 d' => 56 :: digits_of_uint d'
  | D9 d' => 57 :: digits_of_uint d'
  end.

Definition str_of_int (z : Z) : pystr :=
  match Z.to_int z with
  | Decimal.Pos d => digits_of_uint d
  | Decimal.Neg d => 45 :: digits_of_uint d
  end.

(** [int(s)] restricted to plain decimal numerals (an optional minus
    sign and ASCII digits): the value, or [None] where the text is not
    such a numeral. *)
Definition is_digit (c : N) : bool := (48 <=? c) && (c <=? 57).

Fixpoint nat_of_digits (acc : N) (s : pystr) : option N :=
  match s with
  | [] => Some acc
  | c :: s' => if is_digit c then nat_of_digits (10 * acc + (c - 48)) s'
               else None
  end.

Definition int_of_str (s : pystr) : option Z :=
  match s with
  | [] => None
  | c :: ds =>
      if c =? 45 then
        match ds with
        | [] => None
        | _ :: _ => option_map (fun n => Z.opp (Z.of_N n)) (nat_of_digits 0 ds)
        end
      else option_map Z.of_N (nat_of_digits 0 s)
  end.

(** ** Python values *)

(** A [float] is kept as the exact decimal it was read from; [nan] and
    the infinities are separate. *)
Inductive pyfloat :=
| FNaN
| FInf (negative : bool)
| FDec (negative : bool) (mantissa : N) (exp10 : Z).

(** Classes of the instances the client meets: plain data objects (the
    pydantic models of the protocol library) and exception objects. *)
Inductive pyclass := DataClass | ExceptionClass.

Inductive PyVal :=
| PyNone
| PyBool (b : bool)
| PyInt (z : Z)
| PyFloat (f : pyfloat)
| PyStr (s : pystr)
| PyBytes (b : list N)
| PyList (l : list PyVal)
| PyTuple (l : list PyVal)
| PySet (l : list PyVal)
| PyDict (d : list (PyVal * PyVal))
| PyComplex (re im : pyfloat)
| PyEllipsis
| PyObj (cls : pyclass) (to_str : pystr) (attrs : list (pystr * PyVal)).

(** A [dict] keeps its items in insertion order. *)
Definition pydict := list (PyVal * PyVal).

(** ** Exceptions and the error monad *)

Inductive exn :=
| TypeError
| KeyError
| IndexError
| AttributeError
| RuntimeError (msg : pystr)
| TimeoutError
| StreamError (tag : N)
| Raised (e : PyVal).

Inductive result (A : Type) :=
| Ok (a : A)
| Raise (e : exn).
Arguments Ok {A} a.
Arguments Raise {A} e.

Definition bind {A B} (m : result A) (k : A -> result B) : result B :=
  match m with
  | Ok a => k a
  | Raise e => Raise e
  end.

Declare Scope py_scope.
Delimit Scope py_scope with py.
Notation "x <- m ;; k" := (bind m (fun x => k))
  (at level 61, m at next level, right associativity) : py_scope.

(** [try: m  except Exception: h] *)
Definition try_except {A} (m : result A) (h : exn -> result A) : result A :=
  match m with
  | Ok a => Ok a
  | Raise e => h e
  end.

Local Open Scope py_scope.

(** ** Built-in operations on values *)

(** [float(text) == 0.0]: the decimal is zero, or so small that it
    rounds to zero (at most 2^-1075 in absolute value). *)
Definition float_is_zero (f : pyfloat) : bool :=
  match f with
  | FNaN | FInf _ => false
  | FDec _ m e =>
      (m =? 0) ||
      ((e <? 0)%Z && (Z.of_N m * 2 ^ 1075 <=? 10 ^ (- e))%Z)
  end.

(** [bool(v)] *)
Definition truthy (v : PyVal) : bool :=
  match v with
  | PyNone => false
  | PyBool b => b
  | PyInt z => negb (z =? 0)%Z
  | PyFloat f => negb (float_is_zero f)
  | PyComplex re im => negb (float_is_zero re && float_is_zero im)
  | PyStr s => match s with [] => false | _ => true end
  | PyBytes b => match b with [] => false | _ => true end
  | PyList l | PyTuple l | PySet l => match l with [] => false | _ => true end
  | PyDict d => match d with [] => false | _ => true end
  | PyEllipsis => true
  | PyObj _ _ _ => true
  end.

(** [isinstance(v, str)], [isinstance(v, list)], [isinstance(v, dict)],
    [isinstance(v, Exception)] *)
Definition is_str (v : PyVal) : bool :=
  match v with PyStr _ => true | _ => false end.
Definition is_list (v : PyVal) : bool :=
  match v with PyList _ => true | _ => false end.
Definition is_dict (v : PyVal) : bool :=
  match v with PyDict _ => true | _ => false end.
Definition is_exception (v : PyVal) : bool :=
  match v with PyObj ExceptionClass _ _ => true | _ => false end.

(** [v == s] for a string constant [s]: only a [str] equals a [str]. *)
Definition eq_str (v : PyVal) (s : pystr) : bool :=
  match v with PyStr s' => pystr_eqb s' s | _ => false end.

(** [v == 0] as hashing and comparison of a dictionary key see it:
    [0], [False], [0.0] and [0j] are one key. *)
Definition eq_zero (v : PyVal) : bool :=
  match v with
  | PyInt z => (z =? 0)%Z
  | PyBool b => negb b
  | PyFloat f => float_is_zero f
  | PyComplex re im => float_is_zero re && float_is_zero im
  | _ => false
  end.

Fixpoint lookup_by (p : PyVal -> bool) (d : pydict) : option PyVal :=
  match d with
  | [] => None
  | (k, v) :: d' => if p k then Some v else lookup_by p d'
  end.

(** The value stored under the string key [k], if there is one. *)
Definition dict_lookup (d : pydict) (k : pystr) : option PyVal :=
  lookup_by (fun key => eq_str key k) d.

(** [d[k] = v]: a present key keeps its place, a new one goes last. *)
Fixpoint dict_set (d : pydict) (k : pystr) (v : PyVal) : pydict :=
  match d with
  | [] => [(PyStr k, v)]
  | (k', v') :: d' =>
      if eq_str k' k then (k', v) :: d' else (k', v') :: dict_set d' k v
  end.

(** [hasattr(v, name)] and [getattr(v, name)].  Instances carry their
    attributes; of the names the client asks for ([result], [content],
    [text], [type]) none is an attribute of a built-in value. *)
Fixpoint attr_lookup (attrs : list (pystr * PyVal)) (name : pystr) : option PyVal :=
  match attrs with
  | [] => None
  | (n, v) :: attrs' => if pystr_eqb n name then Some v else attr_lookup attrs' name
  end.

Definition getattr_opt (v : PyVal) (name : pystr) : option PyVal :=
  match v with
  | PyObj _ _ attrs => attr_lookup attrs name
  | _ => None
  end.

Definition hasattr (v : PyVal) (name : pystr) : bool :=
  match getattr_opt v name with Some _ => true | None => false end.

Definition getattr (v : PyVal) (name : pystr) : result PyVal :=
  match getattr_opt v name with
  | Some a => Ok a
  | None => Raise AttributeError
  end.

(** [k in v] for a string constant [k] *)
Definition contains_str (v : PyVal) (k : pystr) : result bool :=
  match v with
  | PyDict d => Ok (match dict_lookup d k with Some _ => true | None => false end)
  | PyList l | PyTuple l | PySet l => Ok (existsb (fun x => eq_str x k) l)
  | PyStr s => Ok (substring_in k s)
  | _ => Raise TypeError
  end.

(** [v[k]] for a string constant [k] *)
Definition getitem_str (v : PyVal) (k : pystr) : result PyVal :=
  match v with
  | PyDict d => match dict_lookup d k with
                | Some x => Ok x
                | None => Raise KeyError
                end
  | _ => Raise TypeError
  end.

(** [v.get(k, default)]: a method of [dict] only. *)
Definition get_method (v : PyVal) (k : pystr) (default : PyVal) : result PyVal :=
  match v with
  | PyDict d => Ok (match dict_lookup d k with
                    | Some x => x
                    | None => default
                    end)
  | _ => Raise AttributeError
  end.

(** [len(v)] *)
Definition py_len (v : PyVal) : result nat :=
  match v with
  | PyStr s => Ok (length s)
  | PyBytes b => Ok (length b)
  | PyList l | PyTuple l | PySet l => Ok (length l)
  | PyDict d => Ok (length d)
  | _ => Raise TypeError
  end.

(** [v[0]] *)
Definition getitem_0 (v : PyVal) : result PyVal :=
  match v with
  | PyList l | PyTuple l =>
      match l with x :: _ => Ok x | [] => Raise IndexError end
  | PyStr s => match s with c :: _ => Ok (PyStr [c]) | [] => Raise IndexError end
  | PyBytes b => match b with c :: _ => Ok (PyInt (Z.of_N c)) | [] => Raise IndexError end
  | PyDict d => match lookup_by eq_zero d with
                | Some x => Ok x
                | None => Raise KeyError
                end
  | _ => Raise TypeError
  end.

(** The items a [for] loop over [v] visits. *)
Definition py_iter (v : PyVal) : result (list PyVal) :=
  match v with
  | PyList l | PyTuple l | PySet l => Ok l
  | PyDict d => Ok (List.map fst d)
  | PyStr s => Ok (List.map (fun c => PyStr [c]) s)
  | PyBytes b => Ok (List.map (fun c => PyInt (Z.of_N c)) b)
  | _ => Raise TypeError
  end.

(** [v[:50]], taken only to shorten a value for a log line. *)
Definition slice_50 (v : PyVal) : result PyVal :=
  match v with
  | PyStr s => Ok (PyStr (firstn 50 s))
  | PyBytes b => Ok (PyBytes (firstn 50 b))
  | PyList l => Ok (PyList (firstn 50 l))
  | PyTuple l => Ok (PyTuple (firstn 50 l))
  | _ => Raise TypeError
  end.

(** ** Regular expressions

    The fragment of Python's [re] the client uses, with its
    backtracking semantics: alternatives are tried left to right, a
    greedy repetition tries the longest run first, a lazy one the
    shortest, and the first way through the whole pattern wins.  The
    matcher is written in continuation-passing style: [cont] stands
    for the rest of the pattern. *)

Inductive cclass :=
| CChr (c : N)        (* a literal character *)
| CAny                (* [.] under [re.DOTALL] *)
| CNotChr (c : N)     (* [[^c]] *)
| CSpace.             (* [\s] *)

Inductive regex :=
| Eps                 (* the empty pattern *)
| Sym (k : cclass)
| Cat (r1 r2 : regex)
| Alt (r1 r2 : regex)
| Star (greedy : bool) (k : cclass)
| Group (r : regex)   (* the capturing group, number 1 *)
| Dollar.             (* [$] *)

(** [str.isspace] of one character, which is what [\s] tests in a
    [str] pattern. *)
Definition is_space (c : N) : bool :=
  ((9 <=? c) && (c <=? 13)) || ((28 <=? c) && (c <=? 32)) ||
  (c =? 133) || (c =? 160) || (c =? 5760) ||
  ((8192 <=? c) && (c <=? 8202)) || (c =? 8232) || (c =? 8233) ||
  (c =? 8239) || (c =? 8287) || (c =? 12288).

Definition in_class (k : cclass) (c : N) : bool :=
  match k with
  | CChr a => c =? a
  | CAny => true
  | CNotChr a => negb (c =? a)
  | CSpace => is_space c
  end.

(** A literal word, and [k+]. *)
Fixpoint word (w : pystr) : regex :=
  match w with
  | [] => Eps
  | c :: w' => Cat (Sym (CChr c)) (word w')
  end.

Definition Plus (k : cclass) : regex := Cat (Sym k) (Star true k).

(** Where a match attempt stands: the text still to be read, the text
    read so far inside the open group (latest character first), and
    the text of the group once closed. *)
Record mstate := MState {
  rest : pystr;
  opened : option pystr;
  group1 : option pystr
}.

Definition read (c : N) (s' : pystr) (st : mstate) : mstate :=
  MState s' (option_map (cons c) (opened st)) (group1 st).

Section Matcher.
Variable R : Type.

Fixpoint star (greedy : bool) (k : cclass) (cont : mstate -> option R)
              (g : option pystr) (s : pystr) (o : option pystr) : option R :=
  let here := cont (MState s o g) in
  match s with
  | [] => here
  | c :: s' =>
      if in_class k c then
        let more := star greedy k cont g s' (option_map (cons c) o) in
        if greedy
        then match more with Some x => Some x | None => here end
        else match here with Some x => Some x | None => more end
      else here
  end.

Fixpoint rmatch (r : regex) (st : mstate) (cont : mstate -> option R) : option R :=
  match r with
  | Eps => cont st
  | Sym k =>
      match rest st with
      | c :: s' => if in_class k c then cont (read c s' st) else None
      | [] => None
      end
  | Cat r1 r2 => rmatch r1 st (fun st' => rmatch r2 st' cont)
  | Alt r1 r2 =>
      match rmatch r1 st cont with
      | Some x => Some x
      | None => rmatch r2 st cont
      end
  | Star greedy k => star greedy k cont (group1 st) (rest st) (opened st)
  | Group r1 =>
      rmatch r1 (MState (rest st) (Some []) (group1 st))
             (fun st' => cont (MState (rest st') None
                                      (option_map (@rev N) (opened st'))))
  | Dollar =>
      match rest st with
      | [] => cont st
      | [c] => if c =? 10 then cont st else None
      | _ => None
      end
  end.
End Matcher.

(** A match object, as far as the client looks at it: [m.group(1)]. *)
Record rematch := ReMatch { group_1 : option pystr }.

Definition match_at (r : regex) (s : pystr) : option rematch :=
  rmatch r (MState s None None) (fun st => Some (ReMatch (group1 st))).

(** [re.search(r, s)]: the match at the leftmost position that has
    one, or [None]. *)
Fixpoint re_search (r : regex) (s : pystr) : option rematch :=
  match match_at r s with
  | Some m => Some m
  | None => match s with
            | [] => None
            | _ :: s' => re_search r s'
            end
  end.

(** [m.group(1)] as a value: the text, or [None] for a group that took
    no part in the match. *)
Definition group (m : rematch) : PyVal :=
  match group_1 m with
  | Some g => PyStr g
  | None => PyNone
  end.

(** The client's patterns. *)

(** [\{.*?\}] under [re.DOTALL] *)
Definition re_braces : regex :=
  Cat (Sym (CChr 123)) (Cat (Star false CAny) (Sym (CChr 125))).

(** [r'result=(\{.*?\})'] with [re.DOTALL] *)
Definition re_result : regex :=
  Cat (word (u "result=")) (Group re_braces).

(** [(?:,\s*error=|\)$)], the end of the next pattern *)
Definition after_result : regex :=
  Alt (Cat (Sym (CChr 44)) (Cat (Star true CSpace) (word (u "error="))))
      (Cat (Sym (CChr 41)) Dollar).

(** [r'result=(\{.*?\})(?:,\s*error=|\)$)'] with [re.DOTALL] *)
Definition re_full_result : regex :=
  Cat (word (u "result=")) (Cat (Group re_braces) after_result).

(** [r"'text':\s*'([^']+)'"] *)
Definition re_text : regex :=
  Cat (word (u "'text':"))
      (Cat (Star true CSpace)
           (Cat (Sym (CChr 39))
                (Cat (Group (Plus (CNotChr 39))) (Sym (CChr 39))))).

(** ** [json.loads]

    The JSON reader of the standard library, as a machine that takes
    the text one character at a time: it accepts what the library
    accepts (including [NaN], [Infinity] and [-Infinity], and rejecting
    control characters inside strings) and builds the same value.
    [None] stands for [json.JSONDecodeError].  Limits of the
    interpreter (recursion depth, the length of an integer numeral) are
    not modelled. *)

Inductive jframe :=
| FArr (elems : list PyVal)                (* an open array: items so far, latest first *)
| FObj (pairs : pydict) (key : option pystr).
                                           (* an open object, and the key whose value is awaited *)

Inductive jmode :=
| JValue (close_ok : bool)   (* a value is expected; right after '[' also ']' *)
| JKey (close_ok : bool)     (* a key is expected; right after '{' also '}' *)
| JColon (key : pystr)       (* a key was read, ':' is expected *)
| JNext                      (* a value was read inside a container *)
| JEnd (v : PyVal)           (* the document's value was read *)
| JString (is_key pend : bool) (acc : pystr)
                             (* inside a string; [acc] latest character first;
                                [pend]: the latest character is a high surrogate
                                written as an escape *)
| JEscape (is_key pend : bool) (acc : pystr)
| JHex (is_key pend : bool) (acc : pystr) (more : nat) (v : N)
| JBare (acc : pystr)        (* inside a number or a name such as [null] *)
| JFail.

Record jstate := JS { jmode_of : jmode; jstack : list jframe }.

Definition jfail : jstate := JS JFail [].

Definition is_json_ws (c : N) : bool :=
  (c =? 32) || (c =? 9) || (c =? 10) || (c =? 13).

Fixpoint span (p : N -> bool) (s : pystr) : pystr * pystr :=
  match s with
  | c :: s' => if p c then let (a, b) := span p s' in (c :: a, b) else ([], s)
  | [] => ([], [])
  end.

Fixpoint digits_value (acc : N) (ds : pystr) : N :=
  match ds with
  | [] => acc
  | c :: ds' => digits_value (10 * acc + (c - 48)) ds'
  end.

(** An optional leading sign: whether it is there, and the rest. *)
Definition strip_sign (sign : N) (t : pystr) : bool * pystr :=
  match t with
  | c :: t' => if c =? sign then (true, t') else (false, t)
  | [] => (false, t)
  end.

Definition signed (neg : bool) (n : N) : Z :=
  if neg then (- Z.of_N n)%Z else Z.of_N n.

(** The exponent part (e or E, an optional sign, digits) up to the end
    of the token; no exponent part counts as exponent 0. *)
Definition exponent_of (t : pystr) : option Z :=
  match t with
  | [] => Some 0%Z
  | e :: t1 =>
      if (e =? 101) || (e =? 69) then
        let '(neg, t2) := strip_sign 45 t1 in
        let '(_, t3) := if neg then (true, t2) else strip_sign 43 t2 in
        match span is_digit t3 with
        | (d :: ds, []) => Some (signed neg (digits_value 0 (d :: ds)))
        | _ => None
        end
      else None
  end.

(** A number: an optional minus sign, an integer part without a
    superfluous leading zero, an optional fraction and an optional
    exponent.  It is an [int] where there is neither fraction nor
    exponent, else a [float]. *)
Definition number_value (t : pystr) : option PyVal :=
  let '(neg, t1) := strip_sign 45 t in
  let '(ds, t2) := span is_digit t1 in
  let leading_zero :=
    match ds with
    | d :: _ :: _ => d =? 48
    | _ => false
    end in
  match ds, t2 with
  | [], _ => None
  | _ :: _, [] => if leading_zero then None
                  else Some (PyInt (signed neg (digits_value 0 ds)))
  | _ :: _, c :: t3 =>
      if leading_zero then None
      else if c =? 46 then
        match span is_digit t3 with
        | (f :: fs, t4) =>
            option_map
              (fun e => PyFloat (FDec neg (digits_value 0 (ds ++ f :: fs))
                                      (e - Z.of_nat (length (f :: fs)))%Z))
              (exponent_of t4)
        | ([], _) => None
        end
      else option_map (fun e => PyFloat (FDec neg (digits_value 0 ds) e))
                      (exponent_of t2)
  end.

Definition bare_value (t : pystr) : option PyVal :=
  if pystr_eqb t (u "null") then Some PyNone
  else if pystr_eqb t (u "true") then Some (PyBool true)
  else if pystr_eqb t (u "false") then Some (PyBool false)
  else if pystr_eqb t (u "NaN") then Some (PyFloat FNaN)
  else if pystr_eqb t (u "Infinity") then Some (PyFloat (FInf false))
  else if pystr_eqb t (u "-Infinity") then Some (PyFloat (FInf true))
  else number_value t.

(** A finished value goes to the innermost open container, or becomes
    the document's value. *)
Definition deliver (v : PyVal) (stk : list jframe) : jstate :=
  match stk with
  | [] => JS (JEnd v) []
  | FArr elems :: stk' => JS JNext (FArr (v :: elems) :: stk')
  | FObj pairs (Some k) :: stk' => JS JNext (FObj (dict_set pairs k v) None :: stk')
  | FObj _ None :: _ => jfail
  end.

(** After a value: [,], the closing bracket, or white space. *)
Definition after_value (st : jstate) (c : N) : jstate :=
  match st with
  | JS JNext stk =>
      if is_json_ws c then st
      else if c =? 44 then
        match stk with
        | FArr _ :: _ => JS (JValue false) stk
        | FObj _ None :: _ => JS (JKey false) stk
        | _ => jfail
        end
      else if c =? 93 then
        match stk with
        | FArr elems :: stk' => deliver (PyList (rev elems)) stk'
        | _ => jfail
        end
      else if c =? 125 then
        match stk with
        | FObj pairs None :: stk' => deliver (PyDict pairs) stk'
        | _ => jfail
        end
      else jfail
  | JS (JEnd v) _ => if is_json_ws c then st else jfail
  | _ => jfail
  end.

Definition escape_char (c : N) : option N :=
  if c =? 34 then Some 34          (* a double quote *)
  else if c =? 92 then Some 92     (* a backslash *)
  else if c =? 47 then Some 47     (* a slash *)
  else if c =? 98 then Some 8      (* b: backspace *)
  else if c =? 102 then Some 12    (* f: form feed *)
  else if c =? 110 then Some 10    (* n: line feed *)
  else if c =? 114 then Some 13    (* r: carriage return *)
  else if c =? 116 then Some 9     (* t: tab *)
  else None.

Definition hex_value (c : N) : option N :=
  if is_digit c then Some (c - 48)
  else if (97 <=? c) && (c <=? 102) then Some (c - 87)
  else if (65 <=? c) && (c <=? 70) then Some (c - 55)
  else None.

Definition is_high_surrogate (c : N) : bool := (55296 <=? c) && (c <=? 56319).
Definition is_low_surrogate (c : N) : bool := (56320 <=? c) && (c <=? 57343).
Definition join_surrogates (hi lo : N) : N :=
  65536 + (hi - 55296) * 1024 + (lo - 56320).

Definition jstep (st : jstate) (c : N) : jstate :=
  let stk := jstack st in
  match jmode_of st with
  | JFail => st
  | JValue close_ok =>
      if is_json_ws c then st
      else if c =? 34 then JS (JString false false []) stk
      else if c =? 123 then JS (JKey true) (FObj [] None :: stk)
      else if c =? 91 then JS (JValue true) (FArr [] :: stk)
      else if c =? 93 then
        if close_ok then after_value (JS JNext stk) c else jfail
      else if (c =? 44) || (c =? 125) then jfail
      else JS (JBare [c]) stk
  | JKey close_ok =>
      if is_json_ws c then st
      else if c =? 34 then JS (JString true false []) stk
      else if c =? 125 then
        if close_ok then after_value (JS JNext stk) c else jfail
      else jfail
  | JColon k =>
      if is_json_ws c then st
      else if c =? 58 then
        match stk with
        | FObj pairs None :: stk' => JS (JValue false) (FObj pairs (Some k) :: stk')
        | _ => jfail
        end
      else jfail
  | JNext | JEnd _ => after_value st c
  | JString is_key pend acc =>
      if c =? 34 then
        if is_key then JS (JColon (rev acc)) stk
        else deliver (PyStr (rev acc)) stk
      else if c =? 92 then JS (JEscape is_key pend acc) stk
      else if c <? 32 then jfail
      else JS (JString is_key false (c :: acc)) stk
  | JEscape is_key pend acc =>
      match escape_char c with
      | Some e => JS (JString is_key false (e :: acc)) stk
      | None => if c =? 117 then JS (JHex is_key pend acc 3 0) stk else jfail
      end
  | JHex is_key pend acc more v =>
      match hex_value c with
      | None => jfail
      | Some h =>
          let v' := 16 * v + h in
          match more with
          | S more' => JS (JHex is_key pend acc more' v') stk
          | O =>
              match acc with
              | hi :: acc' =>
                  if pend && is_low_surrogate v'
                  then JS (JString is_key false (join_surrogates hi v' :: acc')) stk
                  else JS (JString is_key (is_high_surrogate v') (v' :: acc)) stk
              | [] => JS (JString is_key (is_high_surrogate v') [v']) stk
              end
          end
      end
  | JBare acc =>
      if is_json_ws c || (c =? 44) || (c =? 93) || (c =? 125) then
        match bare_value (rev acc) with
        | Some v => after_value (deliver v stk) c
        | None => jfail
        end
      else JS (JBare (c :: acc)) stk
  end.

(** What the reader holds when the text ends. *)
Definition jfinish (st : jstate) : option PyVal :=
  match st with
  | JS (JEnd v) [] => Some v
  | JS (JBare acc) [] => bare_value (rev acc)
  | _ => None
  end.

Definition json_loads (s : pystr) : option PyVal :=
  jfinish (fold_left jstep s (JS (JValue false) [])).

(** ** The canonical result model *)

(** [class TextContent(BaseModel)] *)
Record TextContent := { tc_type : pystr; tc_text : pystr }.

(** One item of [ToolCallResult.content], of type
    [Union[TextContent, Dict[str, Any]]]. *)
Inductive ContentItem :=
| ItemText (t : TextContent)
| ItemDict (d : pydict).

(** [class ToolCallResult(BaseModel)] *)
Record ToolCallResult := {
  content : list ContentItem;
  isError : bool;
  message : option pystr
}.

(** [ToolCallResult.get_text_value]; it returns a [str], whatever a
    dictionary holds under ['text'], or [None]. *)
Definition get_text_value (self : ToolCallResult) : PyVal :=
  match content self with
  | [] => PyNone
  | first_item :: _ =>
      match first_item with
      | ItemText t => PyStr (tc_text t)
      | ItemDict d =>
          match dict_lookup d (u "text") with
          | Some v => v
          | None => PyNone
          end
      end
  end.

(** ** The decoder *)

Section Decoder.

(** [ast.literal_eval], the standard library's reader of Python
    literals, is not modelled: it is any function from a text to a
    value or an exception. *)
Variable ast_literal_eval : pystr -> result PyVal.

(** The receiver of [v.replace(...)]: [replace] is a method of [str]. *)
Definition replace_receiver (v : PyVal) : result pystr :=
  match v with
  | PyStr s => Ok s
  | _ => Raise AttributeError
  end.

(** The replacements that are to turn the fragment into JSON. *)
Definition normalise (result_str : pystr) : pystr :=
  str_replace (u "False") (u "false")
    (str_replace (u "True") (u "true")
       (str_replace (u "None") (u "null")
          (str_replace (u "'") [34] result_str))).

(** The tail both readers of [extract_jsonrpc] share: the requested
    field where it is asked for and present, else the whole object. *)
Definition select_field (field_name : option pystr) (obj : PyVal) : result PyVal :=
  match field_name with
  | Some f =>
      if truthy (PyStr f) then
        present <- contains_str obj f ;;
        if present then get_method obj f PyNone else Ok obj
      else Ok obj
  | None => Ok obj
  end.

Definition extract_jsonrpc (input_str : PyVal) (field_name : option pystr)
  : result PyVal :=
  match input_str with
  | PyStr s =>
      if negb (truthy input_str) || negb (startswith (u "root=") s) then Ok PyNone
      else
        match re_search re_result s with
        | None => Ok PyNone
        | Some m =>
            let result_str :=
              match re_search re_full_result s with
              | Some full_result_match => group full_result_match
              | None => group m
              end in
            fragment <- replace_receiver result_str ;;
            let json_compatible_str := normalise fragment in
            match json_loads json_compatible_str with
            | Some result_json => select_field field_name result_json
            | None =>
                try_except
                  (result_dict <- ast_literal_eval fragment ;;
                   select_field field_name result_dict)
                  (fun _ => Ok PyNone)
            end
        end
  | _ => Ok PyNone
  end.

(** The three values [parse_tool_response] returns:
    [(value, is_error, error_message)]. *)
Definition triple : Type := PyVal * bool * PyVal.
Definition unrecognized : triple := (PyNone, false, PyNone).

(** A stage of the decoder either returns from the function
    ([Some]) or falls through to the next stage ([None]). *)
Definition stage := result (option triple).

Definition or_else (m k : stage) : stage :=
  r <- m ;;
  match r with
  | Some t => Ok (Some t)
  | None => k
  end.

(** [re.search(r"'text':\s*'([^']+)'", response)] and, on a match,
    [return text_match.group(1), False, None]. *)
Definition text_regex (response : pystr) : option triple :=
  match re_search re_text response with
  | Some text_match => Some (group text_match, false, PyNone)
  | None => None
  end.

(** The first item of a dictionary result's content list, where it
    is a dictionary with a ['text'] key. *)
Definition first_text_of_dict_item (first_item : PyVal) : stage :=
  if is_dict first_item then
    has_text <- contains_str first_item (u "text") ;;
    if has_text then
      text <- getitem_str first_item (u "text") ;;
      Ok (Some (text, false, PyNone))
    else Ok None
  else Ok None.

(** The branch for a string with the [root=] prefix. *)
Definition root_stage (response : PyVal) : stage :=
  match response with
  | PyStr s =>
      if startswith (u "root=") s then
        result <- extract_jsonrpc response None ;;
        or_else
          (if truthy result then
             is_error <- get_method result (u "isError") (PyBool false) ;;
             if truthy is_error then
               error_message <- get_method result (u "message") (PyStr (u "Unknown error")) ;;
               Ok (Some (PyNone, true, error_message))
             else
               has_content <- contains_str result (u "content") ;;
               if has_content then
                 items <- getitem_str result (u "content") ;;
                 if is_list items then
                   n <- py_len items ;;
                   if (0 <? n)%nat then
                     content_item <- getitem_0 items ;;
                     first_text_of_dict_item content_item
                   else Ok None
                 else Ok None
               else Ok None
           else Ok None)
          (Ok (text_regex s))
      else Ok None
  | _ => Ok None
  end.

(** [content[0]] under the guard [content and len(content) > 0]. *)
Definition first_item_of (content : PyVal) : result (option PyVal) :=
  if truthy content then
    n <- py_len content ;;
    if (0 <? n)%nat then
      first_item <- getitem_0 content ;;
      Ok (Some first_item)
    else Ok None
  else Ok None.

(** The branch for an object with a [result] attribute. *)
Definition native_stage (response : PyVal) : stage :=
  if hasattr response (u "result") then
    result <- getattr response (u "result") ;;
    has_content <-
      (if hasattr result (u "content") then
         content <- getattr result (u "content") ;;
         Ok (truthy content)
       else Ok false) ;;
    if has_content then
      content <- getattr result (u "content") ;;
      first <- first_item_of content ;;
      match first with
      | Some first_item =>
          if hasattr first_item (u "text") then
            text <- getattr first_item (u "text") ;;
            Ok (Some (text, false, PyNone))
          else first_text_of_dict_item first_item
      | None => Ok None
      end
    else if is_dict result then
      in_result <- contains_str result (u "content") ;;
      if in_result then
        content <- getitem_str result (u "content") ;;
        first <- first_item_of content ;;
        match first with
        | Some first_item => first_text_of_dict_item first_item
        | None => Ok None
        end
      else Ok None
    else Ok None
  else Ok None.

(** The last resort: the regular expression on a string. *)
Definition regex_stage (response : PyVal) : stage :=
  match response with
  | PyStr s => Ok (text_regex s)
  | _ => Ok None
  end.

(** The body of the [try] block. *)
Definition parse_tool_response_body (response : PyVal) : result triple :=
  r <- or_else (root_stage response)
         (or_else (native_stage response) (regex_stage response)) ;;
  match r with
  | Some t => Ok t
  | None => Ok unrecognized
  end.

(** The [except Exception] handler. *)
Definition parse_tool_response_handler (response : PyVal) : result triple :=
  match response with
  | PyStr s =>
      match text_regex s with
      | Some t => Ok t
      | None => Ok unrecognized
      end
  | _ => Ok unrecognized
  end.

Definition parse_tool_response (response : PyVal) : result triple :=
  try_except (parse_tool_response_body response)
             (fun _ => parse_tool_response_handler response).

End Decoder.

(** ** The client and its streams *)

(** [class Client]: the attributes [__init__] sets.  [streams] records
    whether the pair of streams is set; the streams themselves belong
    to the world below. *)
Record Client := {
  streams : bool;
  _request_id : Z;
  initialized : bool;
  available_tools : PyVal
}.

(** [Client.__init__] (the transport hands over its streams later). *)
Definition new_client : Client :=
  {| streams := false; _request_id := 0; initialized := false;
     available_tools := PyList [] |}.

(** [Client._get_next_request_id] *)
Definition _get_next_request_id (self : Client) : pystr * Client :=
  let self' := {| streams := streams self;
                  _request_id := _request_id self + 1;
                  initialized := initialized self;
                  available_tools := available_tools self |} in
  (str_of_int (_request_id self'), self').

(** [types.JSONRPCMessage(jsonrpc="2.0", id=..., method=..., params=...)] *)
Record JSONRPCMessage := {
  msg_id : option pystr;
  msg_method : pystr;
  msg_params : option PyVal
}.

(** What the peer does, in the order the client will meet it: each
    [receive] takes the next entry of [inbox] and each [send] the next
    entry of [send_faults] (a send beyond the list succeeds). *)
Inductive inbound :=
| Deliver (v : PyVal)       (* a value arrives; it may be an exception object *)
| RecvRaises (e : exn)      (* [receive] itself raises *)
| Quiet.                    (* nothing arrives for longer than any timeout *)

(** The decoding strategies [call_tool] can apply to a reply. *)
Inductive strategy :=
| ByExtract      (* [extract_jsonrpc] on the reply or on its text *)
| ByRegex        (* [re.search] for the text field *)
| ByText         (* [str(response)] and the test of its prefix *)
| ByAttribute    (* [response.result.content] *)
| ByJson.        (* [json.loads(response)] *)

Record World := {
  inbox : list inbound;
  send_faults : list (option exn);
  outbox : list JSONRPCMessage;
  decoded : list (strategy * PyVal)
    (* ghost: the strategies applied so far, each with the value it was
       applied to, latest first *)
}.

Inductive outcome (A : Type) :=
| Returns (a : A)
| Raises (e : exn)
| Blocks.                   (* the call awaits a value that never comes *)
Arguments Returns {A} a.
Arguments Raises {A} e.
Arguments Blocks {A}.

(** Methods of the client: state and error monad over the client
    object and the world. *)
Definition M (A : Type) : Type := Client * World -> outcome A * (Client * World).

Definition ret {A} (a : A) : M A := fun s => (Returns a, s).
Definition raise {A} (e : exn) : M A := fun s => (Raises e, s).

Definition mbind {A B} (m : M A) (k : A -> M B) : M B :=
  fun s =>
    match m s with
    | (Returns a, s') => k a s'
    | (Raises e, s') => (Raises e, s')
    | (Blocks, s') => (Blocks, s')
    end.

Notation "x <<- m ;; k" := (mbind m (fun x => k))
  (at level 61, m at next level, right associativity) : py_scope.
Notation "m ;;; k" := (mbind m (fun _ => k))
  (at level 61, right associativity) : py_scope.

Definition lift {A} (r : result A) : M A :=
  match r with
  | Ok a => ret a
  | Raise e => raise e
  end.

(** [try: m  except Exception: h] around awaiting code. *)
Definition mtry {A} (m : M A) (h : exn -> M A) : M A :=
  fun s =>
    match m s with
    | (Raises e, s') => h e s'
    | r => r
    end.

Definition get_self : M Client := fun s => (Returns (fst s), s).
Definition set_self (c : Client) : M unit := fun s => (Returns tt, (c, snd s)).

Definition next_request_id : M pystr :=
  fun s => let (id, c) := _get_next_request_id (fst s) in (Returns id, (c, snd s)).

(** [await write_stream.send(msg)] *)
Definition send (msg : JSONRPCMessage) : M unit :=
  fun s =>
    let w := snd s in
    match send_faults w with
    | Some e :: faults =>
        (Raises e, (fst s, {| inbox := inbox w; send_faults := faults;
                              outbox := outbox w; decoded := decoded w |}))
    | None :: faults =>
        (Returns tt, (fst s, {| inbox := inbox w; send_faults := faults;
                                outbox := outbox w ++ [msg]; decoded := decoded w |}))
    | [] =>
        (Returns tt, (fst s, {| inbox := inbox w; send_faults := [];
                                outbox := outbox w ++ [msg]; decoded := decoded w |}))
    end.

Definition with_inbox (w : World) (i : list inbound) : World :=
  {| inbox := i; send_faults := send_faults w;
     outbox := outbox w; decoded := decoded w |}.

(** [await read_stream.receive()]: waits as long as it takes. *)
Fixpoint receive_from (i : list inbound) : outcome PyVal * list inbound :=
  match i with
  | [] => (Blocks, [])
  | Deliver v :: i' => (Returns v, i')
  | RecvRaises e :: i' => (Raises e, i')
  | Quiet :: i' => receive_from i'
  end.

Definition receive : M PyVal :=
  fun s => let (r, i) := receive_from (inbox (snd s)) in
           (r, (fst s, with_inbox (snd s) i)).

(** [await asyncio.wait_for(read_stream.receive(), timeout=5.0)] *)
Definition receive_within_timeout : M PyVal :=
  fun s =>
    match inbox (snd s) with
    | [] => (Raises TimeoutError, s)
    | Quiet :: i' => (Raises TimeoutError, (fst s, with_inbox (snd s) i'))
    | Deliver v :: i' => (Returns v, (fst s, with_inbox (snd s) i'))
    | RecvRaises e :: i' => (Raises e, (fst s, with_inbox (snd s) i'))
    end.

(** Ghost step: strategy [d] is applied to [v]. *)
Definition decoding (d : strategy) (v : PyVal) : M unit :=
  fun s =>
    let w := snd s in
    (Returns tt, (fst s, {| inbox := inbox w; send_faults := send_faults w;
                            outbox := outbox w; decoded := (d, v) :: decoded w |})).

Section ClientMethods.

Variable ast_literal_eval : pystr -> result PyVal.

(** [str(v)] of a value that is neither a string nor an instance
    with its own text: the built-in renderings are not modelled. *)
Variable builtin_str : PyVal -> pystr.

(** [str(v)] *)
Definition py_str (v : PyVal) : pystr :=
  match v with
  | PyStr s => s
  | PyObj _ text _ => text
  | _ => builtin_str v
  end.

Definition set_initialized : M unit :=
  self <<- get_self ;;
  set_self {| streams := streams self; _request_id := _request_id self;
              initialized := true; available_tools := available_tools self |}.

Definition set_available_tools (tools : PyVal) : M unit :=
  self <<- get_self ;;
  set_self {| streams := streams self; _request_id := _request_id self;
              initialized := initialized self; available_tools := tools |}.

Definition initialize_params : PyVal :=
  PyDict [(PyStr (u "protocolVersion"), PyStr (u "2024-11-05"));
          (PyStr (u "capabilities"), PyDict [(PyStr (u "sampling"), PyDict [])]);
          (PyStr (u "clientInfo"),
           PyDict [(PyStr (u "name"), PyStr (u "MCP Python Client"));
                   (PyStr (u "version"), PyStr (u "0.1.0"))])].

(** [Client._send_initialize_request]: both [try] blocks re-raise. *)
Definition _send_initialize_request : M PyVal :=
  self <<- get_self ;;
  if negb (streams self)
  then raise (RuntimeError (u "Client not initialized with streams"))
  else
    request_id <<- next_request_id ;;
    send {| msg_id := Some request_id; msg_method := u "initialize";
            msg_params := Some initialize_params |} ;;;
    response <<- receive ;;
    if is_exception response then raise (Raised response)
    else set_initialized ;;; ret response.

(** [Client._send_initialized_notification]: a failing send is
    logged and swallowed. *)
Definition _send_initialized_notification : M unit :=
  self <<- get_self ;;
  if negb (streams self)
  then raise (RuntimeError (u "Client not initialized with streams"))
  else
    mtry (send {| msg_id := None; msg_method := u "notifications/initialized";
                  msg_params := None |})
         (fun _ => ret tt).

(** The loop that prints the tools: [tool.get('name', 'Unknown')]
    and [tool.get('description', ...)] for each of them. *)
Fixpoint print_tools (tools : list PyVal) : result unit :=
  match tools with
  | [] => Ok tt
  | tool :: tools' =>
      _ <- get_method tool (u "name") (PyStr (u "Unknown")) ;;
      _ <- get_method tool (u "description") (PyStr (u "No description available")) ;;
      print_tools tools'
  end.

(** The [try] block of [list_tools] that parses the tools out of the
    reply. *)
Definition parse_tools_list (response : PyVal) : M unit :=
  let response_str := py_str response in
  set_available_tools (PyList []) ;;;
  (if startswith (u "root=") response_str then
     tools <<- lift (extract_jsonrpc ast_literal_eval (PyStr response_str) (Some (u "tools"))) ;;
     if truthy tools then set_available_tools tools else ret tt
   else ret tt) ;;;
  self <<- get_self ;;
  if truthy (available_tools self) then
    tools <<- lift (py_iter (available_tools self)) ;;
    lift (print_tools tools)
  else ret tt.

(** [Client.list_tools] *)
Definition list_tools : M PyVal :=
  self <<- get_self ;;
  if negb (streams self) || negb (initialized self)
  then raise (RuntimeError (u "Client not initialized"))
  else
    request_id <<- next_request_id ;;
    mtry
      (send {| msg_id := Some request_id; msg_method := u "tools/list";
               msg_params := Some (PyDict []) |} ;;;
       received <<-
         mtry (response <<- receive_within_timeout ;;
               _ <<- lift (extract_jsonrpc ast_literal_eval response None) ;;
               ret (Some response))
              (fun _ => ret None) ;;
       match received with
       | None => ret PyNone
       | Some response =>
           if is_exception response then ret PyNone
           else
             mtry (parse_tools_list response) (fun _ => ret tt) ;;;
             ret response
       end)
      (fun _ => ret PyNone).

(** The first item of [items] for which [f] returns a value: a
    [for] loop with a [return] inside. *)
Fixpoint first_match (f : PyVal -> result (option PyVal)) (items : list PyVal)
  : result (option PyVal) :=
  match items with
  | [] => Ok None
  | x :: items' =>
      r <- f x ;;
      match r with
      | Some v => Ok (Some v)
      | None => first_match f items'
      end
  end.

(** [isinstance(item, dict) and item.get('type') == 'text' and
    'text' in item], then [return item['text']]. *)
Definition text_of_typed_dict (guard_dict : bool) (item : PyVal)
  : result (option PyVal) :=
  if negb guard_dict || is_dict item then
    type <- get_method item (u "type") PyNone ;;
    if eq_str type (u "text") then
      has_text <- contains_str item (u "text") ;;
      if has_text then
        text <- getitem_str item (u "text") ;;
        Ok (Some text)
      else Ok None
    else Ok None
  else Ok None.

(** [hasattr(item, 'type') and item.type == 'text'], then
    [if hasattr(item, 'text'): return item.text]. *)
Definition text_of_typed_object (item : PyVal) : result (option PyVal) :=
  if hasattr item (u "type") then
    type <- getattr item (u "type") ;;
    if eq_str type (u "text") then
      if hasattr item (u "text") then
        text <- getattr item (u "text") ;;
        Ok (Some text)
      else Ok None
    else Ok None
  else Ok None.

(** The first branch of [call_tool]: a string with the [root=]
    prefix.  [Some v] stands for [return v]. *)
Definition call_tool_root (response : PyVal) : M (option PyVal) :=
  match response with
  | PyStr s =>
      if startswith (u "root=") s then
        decoding ByExtract response ;;;
        result <<- lift (extract_jsonrpc ast_literal_eval response None) ;;
        found <<- lift
          (if truthy result then
             has_content <- contains_str result (u "content") ;;
             if has_content then
               items <- getitem_str result (u "content") ;;
               if is_list items then
                 n <- py_len items ;;
                 if (0 <? n)%nat then
                   content_item <- getitem_0 items ;;
                   if is_dict content_item then
                     has_text <- contains_str content_item (u "text") ;;
                     if has_text then
                       text <- getitem_str content_item (u "text") ;;
                       _ <- slice_50 text ;;
                       Ok (Some text)
                     else Ok None
                   else Ok None
                 else Ok None
               else Ok None
             else Ok None
           else Ok None) ;;
        match found with
        | Some text => ret (Some text)
        | None =>
            decoding ByRegex response ;;;
            match re_search re_text s with
            | Some text_match =>
                _ <<- lift (slice_50 (group text_match)) ;;
                ret (Some (group text_match))
            | None => ret None
            end
        end
      else ret None
  | _ => ret None
  end.

(** The [try] block of [call_tool]. *)
Definition call_tool_object (response : PyVal) : M PyVal :=
  decoding ByText response ;;;
  let response_str := py_str response in
  from_text <<-
    (if startswith (u "root=JSONRPCResponse") response_str && negb (is_str response) then
       decoding ByExtract (PyStr response_str) ;;;
       lift (result <- extract_jsonrpc ast_literal_eval (PyStr response_str) None ;;
             if truthy result then
               has_content <- contains_str result (u "content") ;;
               if has_content then
                 content_list <- getitem_str result (u "content") ;;
                 items <- py_iter content_list ;;
                 first_match (text_of_typed_dict true) items
               else Ok None
             else Ok None)
     else ret None) ;;
  match from_text with
  | Some text => ret text
  | None =>
      decoding ByAttribute response ;;;
      has_content <<- lift
        (if hasattr response (u "result") then
           result <- getattr response (u "result") ;;
           Ok (hasattr result (u "content"))
         else Ok false) ;;
      if has_content then
        lift (result <- getattr response (u "result") ;;
              content_list <- getattr result (u "content") ;;
              items <- py_iter content_list ;;
              found <- first_match text_of_typed_object items ;;
              match found with
              | Some text => Ok text
              | None => Ok content_list
              end)
      else
        match response with
        | PyStr s =>
            decoding ByJson response ;;;
            match json_loads s with
            | Some json_data =>
                found <<- lift
                  (has_result <- contains_str json_data (u "result") ;;
                   if has_result then
                     result <- getitem_str json_data (u "result") ;;
                     has_content <- contains_str result (u "content") ;;
                     if has_content then
                       content_list <- getitem_str result (u "content") ;;
                       items <- py_iter content_list ;;
                       first_match (text_of_typed_dict false) items
                     else Ok None
                   else Ok None) ;;
                match found with
                | Some text => ret text
                | None => ret response
                end
            | None => ret response
            end
        | _ => ret response
        end
  end.

(** [call_tool] from the check of the received value on. *)
Definition call_tool_reply (response : PyVal) : M PyVal :=
  if is_exception response then raise (Raised response)
  else
    found <<- call_tool_root response ;;
    match found with
    | Some text => ret text
    | None => mtry (call_tool_object response) (fun _ => ret response)
    end.

(** [Client.call_tool] *)
Definition call_tool (tool_name : pystr) (params : pydict) : M PyVal :=
  self <<- get_self ;;
  if negb (streams self)
  then raise (RuntimeError (u "Client not initialized with streams"))
  else
    (if negb (initialized self)
     then _send_initialize_request ;;; _send_initialized_notification
     else ret tt) ;;;
    request_id <<- next_request_id ;;
    send {| msg_id := Some request_id; msg_method := u "tools/call";
            msg_params := Some (PyDict [(PyStr (u "name"), PyStr tool_name);
                                        (PyStr (u "arguments"), PyDict params)]) |} ;;;
    response <<- receive ;;
    call_tool_reply response.

End ClientMethods.

(** ** Initialisation and the callers of [call_tool] *)

(** The tool name constants and [TOOL_STRING_PARAM_MAPPING], the
    parameter under which a tool takes a simple string. *)
Definition TOOL_POSTGRES_SCHEMA_DDLS : pystr := u "postgres_schema_ddls".
Definition TOOL_POSTGRES_QUERY_SELECT : pystr := u "postgres_query_select".
Definition TOOL_MYSQL_QUERY_SELECT : pystr := u "mysql_query_select".

Definition TOOL_STRING_PARAM_MAPPING : list (pystr * pystr) :=
  [(TOOL_POSTGRES_SCHEMA_DDLS, u "schema_name");
   (TOOL_POSTGRES_QUERY_SELECT, u "query");
   (TOOL_MYSQL_QUERY_SELECT, u "query")].

(** [mapping[key]] where [key in mapping], for a dictionary from
    strings to strings. *)
Fixpoint mapping_get (mapping : list (pystr * pystr)) (key : pystr) : option pystr :=
  match mapping with
  | [] => None
  | (k, v) :: mapping' => if pystr_eqb k key then Some v else mapping_get mapping' key
  end.

Section Callers.

Variable ast_literal_eval : pystr -> result PyVal.
Variable builtin_str : PyVal -> pystr.

Definition set_streams (b : bool) : M unit :=
  self <<- get_self ;;
  set_self {| streams := b; _request_id := _request_id self;
              initialized := initialized self;
              available_tools := available_tools self |}.

(** [Client.initialize].  The [transport] attribute is set by the
    constructor and never assigned again, so it is a parameter here:
    [None] for a client without transport, [Some b] for a transport
    whose [get_streams()] gives its streams ([b] true) or, not yet
    entered, [None] ([b] false).  A failing [list_tools] is logged and
    passed over. *)
Definition initialize (transport : option bool) : M PyVal :=
  match transport with
  | Some transport_streams => set_streams transport_streams
  | None => ret tt
  end ;;;
  init_response <<- _send_initialize_request ;;
  _send_initialized_notification ;;;
  mtry (list_tools ast_literal_eval builtin_str ;;; ret tt) (fun _ => ret tt) ;;;
  ret init_response.

(** [Client.initialize_with_streams(read_stream, write_stream)], for
    the two streams of the world. *)
Definition initialize_with_streams : M unit :=
  set_streams true ;;;
  _send_initialize_request ;;;
  _send_initialized_notification.

(** [call_any_tool(client, tool_name, arguments)] for [arguments]
    that are a dictionary, or [None] for the default.  The function
    returns the value it displays; the check of the parameter comes
    before the [try], the call and its decoding inside it. *)
Definition call_any_tool (tool_name : pystr) (arguments : option pydict) : M PyVal :=
  let arguments := match arguments with Some d => d | None => [] end in
  let call :=
    mtry (raw_response <<- call_tool ast_literal_eval builtin_str tool_name arguments ;;
          parsed <<- lift (parse_tool_response ast_literal_eval raw_response) ;;
          ret (fst (fst parsed)))
         (fun _ => ret PyNone) in
  match mapping_get TOOL_STRING_PARAM_MAPPING tool_name with
  | Some param_name =>
      if negb (truthy (match dict_lookup arguments param_name with
                       | Some v => v
                       | None => PyNone
                       end))
      then ret PyNone
      else call
  | None => call
  end.

End Callers.

(** The first [try] of [main]: the tool arguments made of the
    [--args] text, or [None] where [main] returns 1.  [tool] is the
    [--tool] option, [None] by default. *)
Definition tool_args_of (tool : option pystr) (args : pystr) : option PyVal :=
  match json_loads args with
  | Some tool_args => Some tool_args
  | None =>
      match tool with
      | Some name =>
          match mapping_get TOOL_STRING_PARAM_MAPPING name with
          | Some param_name => Some (PyDict [(PyStr param_name, PyStr args)])
          | None => None
          end
      | None => None
      end
  end.

(** ** Wire shapes of a result

    The client only decodes; the replies are written by the peer and
    by the protocol library.  The three shapes a result arrives in are
    therefore set down here as the specification's scenarios show
    them, for the round-trip property. *)

Definition message_value (m : option pystr) : PyVal :=
  match m with
  | Some text => PyStr text
  | None => PyNone
  end.

(** Modelled from the spec: a result as a dictionary, the form the
    peer's [result={...}] fragment spells out (keys [content],
    [isError] and, where there is one, [message]). *)
Definition item_dict (i : ContentItem) : PyVal :=
  match i with
  | ItemText t => PyDict [(PyStr (u "type"), PyStr (tc_type t));
                          (PyStr (u "text"), PyStr (tc_text t))]
  | ItemDict d => PyDict d
  end.

Definition dump (r : ToolCallResult) : PyVal :=
  PyDict ((PyStr (u "content"), PyList (List.map item_dict (content r))) ::
          (PyStr (u "isError"), PyBool (isError r)) ::
          match message r with
          | Some m => [(PyStr (u "message"), PyStr m)]
          | None => []
          end).

(** Modelled from the spec: the native structured object, a reply
    whose [result] attribute carries [content], [isError] and
    [message]. *)
Definition item_object (i : ContentItem) : PyVal :=
  match i with
  | ItemText t => PyObj DataClass [] [(u "type", PyStr (tc_type t));
                                      (u "text", PyStr (tc_text t))]
  | ItemDict d => PyDict d
  end.

Definition native_reply (r : ToolCallResult) : PyVal :=
  PyObj DataClass []
        [(u "result",
          PyObj DataClass []
                [(u "content", PyList (List.map item_object (content r)));
                 (u "isError", PyBool (isError r));
                 (u "message", message_value (message r))])].

(** Modelled from the spec: the text of a value in one of the two
    stylings of the debug string.  [Literal] writes strings between
    single quotes and the constants as [None], [True], [False];
    [Json] writes strings between double quotes and the constants as
    [null], [true], [false].  Strings are written as they are, between
    the quotes. *)
Inductive styling := Literal | Json.

Definition quote_of (st : styling) : N :=
  match st with Literal => 39 | Json => 34 end.

Fixpoint join (sep : pystr) (parts : list pystr) : pystr :=
  match parts with
  | [] => []
  | [p] => p
  | p :: parts' => p ++ sep ++ join sep parts'
  end.

Definition float_text (f : pyfloat) : pystr :=
  match f with
  | FNaN => u "NaN"
  | FInf false => u "Infinity"
  | FInf true => u "-Infinity"
  | FDec neg m e =>
      (if neg then u "-" else []) ++ str_of_int (Z.of_N m) ++ u "e" ++ str_of_int e
  end.

Fixpoint render (st : styling) (v : PyVal) : pystr :=
  match v with
  | PyNone => match st with Literal => u "None" | Json => u "null" end
  | PyBool true => match st with Literal => u "True" | Json => u "true" end
  | PyBool false => match st with Literal => u "False" | Json => u "false" end
  | PyInt z => str_of_int z
  | PyFloat f => float_text f
  | PyStr s => quote_of st :: s ++ [quote_of st]
  | PyList l => u "[" ++ join (u ", ") (List.map (render st) l) ++ u "]"
  | PyTuple l => u "(" ++ join (u ", ") (List.map (render st) l) ++ u ")"
  | PySet l => u "{" ++ join (u ", ") (List.map (render st) l) ++ u "}"
  | PyDict d =>
      u "{" ++ join (u ", ")
                    (List.map (fun kv => render st (fst kv) ++ u ": " ++ render st (snd kv)) d)
            ++ u "}"
  | PyBytes b => u "b" ++ 39 :: b ++ [39]
  | PyComplex re im => u "(" ++ float_text re ++ u "+" ++ float_text im ++ u "j)"
  | PyEllipsis => u "Ellipsis"
  | PyObj _ text _ => text
  end.

(** Modelled from the spec: the debug string of a reply, as in the
    scenario [root=JSONRPCResponse(id='1', result={...})]. *)
Definition prefixed_string (st : styling) (r : ToolCallResult) : pystr :=
  u "root=JSONRPCResponse(id=" ++ quote_of st :: u "1" ++ quote_of st ::
  u ", result=" ++ render st (dump r) ++ u ")".

Inductive wire_shape :=
| NativeObject
| PrefixedLiteral
| PrefixedJson.

Definition encode (shape : wire_shape) (r : ToolCallResult) : PyVal :=
  match shape with
  | NativeObject => native_reply r
  | PrefixedLiteral => PyStr (prefixed_string Literal r)
  | PrefixedJson => PyStr (prefixed_string Json r)
  end.

(** The triple [parse_tool_response] documents for a result: for a
    failure the message (or the default) and no value, else the first
    text and no message. *)
Definition canonical (r : ToolCallResult) : triple :=
  if isError r
  then (PyNone, true,
        match message r with
        | Some m => PyStr m
        | None => PyStr (u "Unknown error")
        end)
  else (get_text_value r, false, PyNone).

(** Text that the normalisation of [extract_jsonrpc] leaves alone: no
    quote of either kind, no backslash, no closing brace, no control
    character, and none of the words [None], [True], [False]. *)
Definition plain_char (c : N) : bool :=
  (32 <=? c) && negb (c =? 34) && negb (c =? 39) && negb (c =? 92)
  && negb (c =? 125).

Fixpoint free_of (w s : pystr) : bool :=
  negb (startswith w s) &&
  match s with
  | [] => true
  | _ :: s' => free_of w s'
  end.

Definition plain_text (s : pystr) : bool :=
  forallb plain_char s && free_of (u "None") s && free_of (u "True") s
  && free_of (u "False") s.

Definition plain_item (i : ContentItem) : bool :=
  match i with
  | ItemText t => plain_text (tc_type t) && plain_text (tc_text t)
  | ItemDict _ => false
  end.

Definition plain_result (r : ToolCallResult) : bool :=
  forallb plain_item (content r) &&
  match message r with
  | Some m => plain_text m
  | None => true
  end.

(** The identifiers [n] successive requests get. *)
Fixpoint request_ids (n : nat) (self : Client) : list pystr * Client :=
  match n with
  | O => ([], self)
  | S k =>
      let (id, self') := _get_next_request_id self in
      let (ids, self'') := request_ids k self' in
      (id :: ids, self'')
  end.

(** * Notions of the statements and proofs *)

Unset Implicit Arguments.

(** ** Results and replies *)

(** The scenario of C1 and its canonical result. *)
Definition scenario_42 : pystr :=
  u "root=JSONRPCResponse(id='1', result={'content': [{'type': 'text', 'text': '42'}], 'isError': False})".

Definition result_42 : ToolCallResult :=
  {| content := [ItemText {| tc_type := u "text"; tc_text := u "42" |}];
     isError := false;
     message := None |}.

(** The reply of C2: a native object whose result is a failure. *)
Definition failed_result : ToolCallResult :=
  {| content := [ItemText {| tc_type := u "text"; tc_text := u "boom" |}];
     isError := true;
     message := Some (u "boom") |}.

(** The result whose only text is the word [True]. *)
Definition result_True : ToolCallResult :=
  {| content := [ItemText {| tc_type := u "text"; tc_text := u "True" |}];
     isError := false;
     message := None |}.

Definition text_result (ts : list TextContent) (e : bool) (m : option pystr)
  : ToolCallResult :=
  {| content := List.map ItemText ts; isError := e; message := m |}.

(** An exception object, as a stream delivers it in place of data. *)
Definition peer_fault : PyVal :=
  PyObj ExceptionClass (u "connection reset") [].

(** A discovery reply whose result holds no tools at all. *)
Definition reply_without_tools : PyVal :=
  PyStr (u "root=JSONRPCResponse(jsonrpc='2.0', id='2', result={'content': []})").

(** A discovery reply with an empty tools array. *)
Definition reply_empty_tools : PyVal :=
  PyStr (u "root=JSONRPCResponse(jsonrpc='2.0', id='2', result={'tools': []})").

(** An initialized session with the tools [known] so far, to which
    the peer's next message is [reply]. *)
Definition session (known reply : PyVal) : Client * World :=
  ({| streams := true; _request_id := 1; initialized := true;
      available_tools := known |},
   {| inbox := [Deliver reply]; send_faults := []; outbox := []; decoded := [] |}).

(** The tools a client knows after [list_tools]. *)
Definition tools_after (ast_literal_eval : pystr -> result PyVal)
           (builtin_str : PyVal -> pystr) (s : Client * World) : PyVal :=
  available_tools (fst (snd (list_tools ast_literal_eval builtin_str s))).

(** A reader of literals that fails on every text; any other would do
    where the JSON reader succeeds. *)
Definition no_literal_eval (text : pystr) : result PyVal := Raise TypeError.

Definition no_builtin_str (v : PyVal) : pystr := [].

(** A value in which the decoder finds nothing to go by: a string
    that neither parses nor holds the labelled text field, or a
    value that is no string and has no [result] attribute. *)
Definition no_structure (ast_literal_eval : pystr -> result PyVal)
           (response : PyVal) : Prop :=
  match response with
  | PyStr s => extract_jsonrpc ast_literal_eval response None = Ok PyNone /\ re_search re_text s = None
  | _ => hasattr response (u "result") = false
  end.

(** ** The record of decodings *)

(** [m] only ever adds to the record of decodings, and every entry it
    adds satisfies [P]. *)
Definition records_only (P : strategy * PyVal -> Prop) {A} (m : M A) : Prop :=
  forall s, exists added,
    decoded (snd (snd (m s))) = added ++ decoded (snd s) /\ Forall P added.

Definition of_data (entry : strategy * PyVal) : Prop :=
  is_exception (snd entry) = false.

(** ** Matching *)

(** A lazy [.*?] passes over text at no point of which the rest of
    the pattern matches. *)
Fixpoint dead {R : Type} (cont : mstate -> option R) (g : option pystr)
         (b t : pystr) : Prop :=
  match b with
  | [] => True
  | _ :: b' => (forall o, cont (MState (b ++ t) o g) = None) /\ dead cont g b' t
  end.

(** The word [w] begins at no position of [a] in the text [a ++ t]. *)
Fixpoint never_starts (w a t : pystr) : bool :=
  match a with
  | [] => true
  | _ :: a' => negb (startswith w (a ++ t)) && never_starts w a' t
  end.

(** The rest of [re_full_result] as the lazy repetition inside its
    group sees it. *)
Definition close_result (st : mstate) : option rematch :=
  rmatch (Sym (CChr 125)) st
         (fun st' => rmatch after_result
                            (MState (rest st') None (option_map (@rev N) (opened st')))
                            (fun st'' => Some (ReMatch (group1 st'')))).

Definition no_brace (s : pystr) : bool := forallb (fun c => negb (c =? 125)) s.

Definition no_quote (s : pystr) : bool := forallb (fun c => negb (c =? 39)) s.

(** Patterns without a group. *)
Fixpoint flat (r : regex) : bool :=
  match r with
  | Eps | Sym _ | Star _ _ | Dollar => true
  | Cat r1 r2 | Alt r1 r2 => flat r1 && flat r2
  | Group _ => false
  end.

(** From [st] to [st'] an open group stays open and the closed group
    is untouched. *)
Definition open_kept (st st' : mstate) : Prop :=
  (opened st <> None -> opened st' <> None) /\ group1 st' = group1 st.

(** ** The text of a plain result, spelled out

    Each function writes its part in front of [rest]. *)

Definition quoted_then (q : N) (s rest : pystr) : pystr := q :: s ++ q :: rest.

Definition item_then (q : N) (t : TextContent) (rest : pystr) : pystr :=
  u "{" ++ quoted_then q (u "type")
    (u ": " ++ quoted_then q (tc_type t)
       (u ", " ++ quoted_then q (u "text")
          (u ": " ++ quoted_then q (tc_text t) (u "}" ++ rest)))).

Fixpoint items_then (q : N) (ts : list TextContent) (rest : pystr) : pystr :=
  match ts with
  | [] => rest
  | t :: ts' =>
      item_then q t match ts' with
                    | [] => rest
                    | _ :: _ => u ", " ++ items_then q ts' rest
                    end
  end.

Definition message_then (q : N) (m : option pystr) (rest : pystr) : pystr :=
  match m with
  | Some text => u ", " ++ quoted_then q (u "message") (u ": " ++ quoted_then q text rest)
  | None => rest
  end.

Definition spelled_then (q : N) (flag : pystr) (ts : list TextContent)
           (m : option pystr) (rest : pystr) : pystr :=
  u "{" ++ quoted_then q (u "content")
    (u ": [" ++ items_then q ts
       (u "], " ++ quoted_then q (u "isError")
          (u ": " ++ flag ++ message_then q m (u "}" ++ rest)))).

(** The parts of a plain result in front of each closing brace. *)
Definition item_inner (q : N) (t : TextContent) : pystr :=
  u "{" ++ quoted_then q (u "type")
    (u ": " ++ quoted_then q (tc_type t)
       (u ", " ++ quoted_then q (u "text")
          (u ": " ++ quoted_then q (tc_text t) []))).

Definition result_inner (q : N) (flag : pystr) (ts : list TextContent)
           (m : option pystr) : pystr :=
  quoted_then q (u "content")
    (u ": [" ++ items_then q ts []
       ++ u "], " ++ quoted_then q (u "isError")
            (u ": " ++ flag ++ message_then q m [])).

Definition text_of_result (st : styling) ts e m : pystr :=
  render st (dump (text_result ts e m)).

(** ** Plain texts and replacement *)

Definition plain_content (t : TextContent) : bool :=
  plain_text (tc_type t) && plain_text (tc_text t).

Definition plain_message (m : option pystr) : bool :=
  match m with Some text => plain_text text | None => true end.

Definition swap_quote (c : N) : N := if c =? 39 then 34 else c.

(** A word [old] that meets none of the punctuation and none of the
    key names of a result. *)
Definition spares (old : pystr) : bool :=
  negb (existsb (fun c => existsb (N.eqb c) old) [34; 44; 125]) &&
  match old with
  | [] => false
  | o :: _ => negb (existsb (N.eqb o) (u "{}[]:, "))
  end &&
  forallb (free_of old)
          [u "content"; u "type"; u "text"; u "isError"; u "message"].

Definition free_content (old : pystr) (t : TextContent) : bool :=
  free_of old (tc_type t) && free_of old (tc_text t).

Definition free_message (old : pystr) (m : option pystr) : bool :=
  match m with Some text => free_of old text | None => true end.

(** ** States of a session *)

(** [m] takes every state to a state that [P] relates to it. *)
Definition steady (P : Client * World -> Client * World -> Prop) {A} (m : M A) : Prop :=
  forall s, P s (snd (m s)).

(** [m] never waits for ever. *)
Definition settles {A} (m : M A) : Prop := forall s, fst (m s) <> Blocks.

(** Nothing differs but the record of decodings. *)
Definition same_but_decoded (s s' : Client * World) : Prop :=
  fst s' = fst s /\ inbox (snd s') = inbox (snd s) /\
  send_faults (snd s') = send_faults (snd s) /\ outbox (snd s') = outbox (snd s).

(** Nothing differs but the available tools. *)
Definition same_but_tools (s s' : Client * World) : Prop :=
  snd s' = snd s /\ streams (fst s') = streams (fst s) /\
  _request_id (fst s') = _request_id (fst s) /\
  initialized (fst s') = initialized (fst s).

(** The identifiers of the requests sent so far, in the order of
    sending. *)
Definition sent_ids (w : World) : list pystr :=
  flat_map (fun msg => match msg_id msg with Some i => [i] | None => [] end) (outbox w).

(** Each number is greater than the one before it, the first greater
    than [lo]. *)
Fixpoint increasing (lo : Z) (zs : list Z) : Prop :=
  match zs with
  | [] => True
  | z :: zs' => (lo < z)%Z /\ increasing z zs'
  end.

(** The identifiers sent are the numerals of increasing positive
    numbers, none beyond the client's counter. *)
Definition ids_in_order (s : Client * World) : Prop :=
  (0 <= _request_id (fst s))%Z /\
  exists zs, sent_ids (snd s) = List.map str_of_int zs /\
             increasing 0 zs /\
             Forall (fun z => (z <= _request_id (fst s))%Z) zs.

Definition keeps_ids (s s' : Client * World) : Prop :=
  ids_in_order s -> ids_in_order s'.

(** What a program does with a client, one call after the other; a
    call that raises leaves the state it has reached to the next. *)
Inductive operation :=
| SendInitializeRequest
| SendInitializedNotification
| Initialize (transport : option bool)
| InitializeWithStreams
| ListTools
| CallTool (tool_name : pystr) (params : pydict)
| CallAnyTool (tool_name : pystr) (arguments : option pydict).

Definition perform (ast_literal_eval : pystr -> result PyVal)
           (builtin_str : PyVal -> pystr)
           (op : operation) (s : Client * World) : Client * World :=
  match op with
  | SendInitializeRequest => snd (_send_initialize_request s)
  | SendInitializedNotification => snd (_send_initialized_notification s)
  | Initialize transport => snd (initialize ast_literal_eval builtin_str transport s)
  | InitializeWithStreams => snd (initialize_with_streams s)
  | ListTools => snd (list_tools ast_literal_eval builtin_str s)
  | CallTool tool_name params =>
      snd (call_tool ast_literal_eval builtin_str tool_name params s)
  | CallAnyTool tool_name arguments =>
      snd (call_any_tool ast_literal_eval builtin_str tool_name arguments s)
  end.

Definition perform_all (ast_literal_eval : pystr -> result PyVal)
           (builtin_str : PyVal -> pystr)
           (ops : list operation) (s : Client * World) : Client * World :=
  fold_left (fun s op => perform ast_literal_eval builtin_str op s) ops s.

(** The exception of a client without streams. *)
Definition no_streams : exn := RuntimeError (u "Client not initialized with streams").

(** The reply a request gets: the value that is delivered first,
    where the send works and that value is data. *)
Definition data_reply (w : World) : option PyVal :=
  match hd None (send_faults w), inbox w with
  | None, Deliver v :: _ => if is_exception v then None else Some v
  | _, _ => None
  end.

(** The tools [list_tools] makes of a reply that is data. *)
Definition tools_of_reply (ast_literal_eval : pystr -> result PyVal)
           (builtin_str : PyVal -> pystr) (v : PyVal) : PyVal :=
  if startswith (u "root=") (py_str builtin_str v) then
    match extract_jsonrpc ast_literal_eval (PyStr (py_str builtin_str v))
                          (Some (u "tools")) with
    | Ok tools => if truthy tools then tools else PyList []
    | Raise _ => PyList []
    end
  else PyList [].

Definition is_returns {A} (o : outcome A) : bool :=
  match o with Returns _ => true | _ => false end.

(** The state in which [call_tool] looks at the reply: the request
    is sent, and [later] is what is still to arrive. *)
Definition after_request (tool_name : pystr) (params : pydict)
           (s : Client * World) (later : list inbound) : Client * World :=
  (snd (_get_next_request_id (fst s)),
   {| inbox := later; send_faults := tl (send_faults (snd s));
      outbox := outbox (snd s)
        ++ [{| msg_id := Some (fst (_get_next_request_id (fst s)));
               msg_method := u "tools/call";
               msg_params := Some (PyDict [(PyStr (u "name"), PyStr tool_name);
                                           (PyStr (u "arguments"), PyDict params)]) |}];
      decoded := decoded (snd s) |}).

(** A client that has its streams but has not been initialized, and
    two values on their way to it. *)
Definition fresh_session (first second : PyVal) : Client * World :=
  ({| streams := true; _request_id := 0; initialized := false;
      available_tools := PyList [] |},
   {| inbox := [Deliver first; Deliver second]; send_faults := [];
      outbox := []; decoded := [] |}).

(** The three messages of the handshake, for a client whose counter
    stood at [n]. *)
Definition handshake (n : Z) : list JSONRPCMessage :=
  [{| msg_id := Some (str_of_int (n + 1)); msg_method := u "initialize";
      msg_params := Some initialize_params |};
   {| msg_id := None; msg_method := u "notifications/initialized";
      msg_params := None |};
   {| msg_id := Some (str_of_int (n + 2)); msg_method := u "tools/list";
      msg_params := Some (PyDict []) |}].

(** ** Replies and arguments *)

(** A reply object whose text is [text], with the attributes
    [attrs]. *)
Definition object_reply (text : pystr) (attrs : list (pystr * PyVal)) : PyVal :=
  PyObj DataClass text attrs.

(** The first text among the items that are objects of type [text]. *)
Fixpoint first_typed_text (items : list ContentItem) : option pystr :=
  match items with
  | [] => None
  | ItemText t :: items' =>
      if pystr_eqb (tc_type t) (u "text") then Some (tc_text t)
      else first_typed_text items'
  | ItemDict _ :: items' => first_typed_text items'
  end.

(** Numbers, truth values and [None]: values of which no slice can be
    taken. *)
Definition is_scalar (v : PyVal) : bool :=
  match v with
  | PyNone | PyBool _ | PyInt _ | PyFloat _ => true
  | _ => false
  end.

(** A reply whose first content item has a number for its text. *)
Definition reply_number : pystr :=
  u "root=JSONRPCResponse(id='1', result={'content': [{'type': 'text', 'text': 42}]})".

(** The triples with a failure flag and no value, or with no flag and
    no message. *)
Definition well_formed (t : triple) : Prop :=
  let '(value, is_error, error_message) := t in
  if is_error then value = PyNone else error_message = PyNone.

(** [arguments] holds what the tool needs: a value that counts as
    true under the parameter name of a tool that has one. *)
Definition has_required_parameter (tool_name : pystr) (arguments : pydict) : bool :=
  match mapping_get TOOL_STRING_PARAM_MAPPING tool_name with
  | Some param_name =>
      truthy (match dict_lookup arguments param_name with
              | Some v => v
              | None => PyNone
              end)
  | None => true
  end.

(** ** The JSON reader *)

(** A numeral without a superfluous leading zero. *)
Definition no_leading_zero (ds : pystr) : bool :=
  match ds with
  | d :: _ :: _ => negb (d =? 48)
  | _ => true
  end.

(** The outermost open container is an object. *)
Fixpoint rooted (stk : list jframe) : bool :=
  match stk with
  | [] => false
  | [FObj _ _] => true
  | [FArr _] => false
  | _ :: stk' => rooted stk'
  end.

(** The reader is inside a document that is an object, or has read
    one, or has failed. *)
Definition reads_object (st : jstate) : Prop :=
  match st with
  | JS JFail _ => True
  | JS (JEnd v) stk => stk = [] /\ is_dict v = true
  | JS _ stk => rooted stk = true
  end.

(** ** Tactics *)

(** [spell] writes the string literals of the goal out as code points. *)
Ltac spell :=
  repeat match goal with
         | |- context [u ?s] =>
             let v := eval vm_compute in (u s) in change (u s) with v
         end.

Ltac spell_in H :=
  repeat match type of H with
         | context [u ?s] =>
             let v := eval vm_compute in (u s) in change (u s) with v in H
         end.

(** * Properties *)

(** ** Decimal numerals *)

Lemma nat_of_digits_acc (d : Decimal.uint) (acc : positive) :
  nat_of_digits (N.pos acc) (digits_of_uint d) = Some (N.pos (Pos.of_uint_acc d acc)).
Proof.
  revert acc.
  induction d; intro acc; cbn [digits_of_uint nat_of_digits Pos.of_uint_acc];
    try reflexivity;
    change (is_digit _) with true; cbv iota;
    match goal with
    | |- nat_of_digits ?a _ = _ =>
        match goal with
        | |- _ = Some (N.pos (Pos.of_uint_acc _ ?b)) =>
            replace a with (N.pos b) by lia
        end
    end; apply IHd.
Qed.

Lemma nat_of_digits_of_uint (d : Decimal.uint) :
  nat_of_digits 0 (digits_of_uint d) = Some (Pos.of_uint d).
Proof.
  induction d; cbn [digits_of_uint nat_of_digits Pos.of_uint];
    try reflexivity;
    change (is_digit _) with true; cbv iota;
    [ exact IHd | .. ];
    match goal with
    | |- nat_of_digits ?a _ = Some (N.pos (Pos.of_uint_acc _ ?b)) =>
        change a with (N.pos b)
    end; apply nat_of_digits_acc.
Qed.

Lemma digits_of_uint_head (d : Decimal.uint) :
  d <> Nil -> exists c s, digits_of_uint d = c :: s /\ (c =? 45) = false.
Proof.
  destruct d; intro H; try contradiction;
    cbn [digits_of_uint]; eexists; eexists; split; reflexivity.
Qed.

(** [int(str(z)) == z] *)
Lemma int_of_str_of_int (z : Z) : int_of_str (str_of_int z) = Some z.
Proof.
  destruct z as [|p|p]; [reflexivity | |].
  - unfold str_of_int, Z.to_int.
    destruct (digits_of_uint_head _ (DecimalPos.Unsigned.to_uint_nonnil p))
      as (c & s & E & Hc).
    unfold int_of_str. rewrite E, Hc, <- E.
    rewrite nat_of_digits_of_uint, DecimalPos.Unsigned.of_to. reflexivity.
  - unfold str_of_int, Z.to_int.
    destruct (digits_of_uint_head _ (DecimalPos.Unsigned.to_uint_nonnil p))
      as (c & s & E & Hc).
    unfold int_of_str. cbn [N.eqb Pos.eqb].
    change (45 =? 45) with true. cbv iota.
    rewrite E, <- E.
    rewrite nat_of_digits_of_uint, DecimalPos.Unsigned.of_to. reflexivity.
Qed.

Lemma str_of_int_inj (a b : Z) : str_of_int a = str_of_int b -> a = b.
Proof.
  intro H. apply (f_equal int_of_str) in H.
  rewrite !int_of_str_of_int in H. congruence.
Qed.

(** ** Request identifiers *)

Lemma request_ids_from (n : nat) (self : Client) :
  fst (request_ids n self) =
  List.map (fun i => str_of_int (_request_id self + Z.of_nat i)) (seq 1 n).
Proof.
  revert self. induction n as [|n IH]; intro self; [reflexivity|].
  cbn [request_ids]. unfold _get_next_request_id at 1.
  set (self' := {| streams := streams self; _request_id := _request_id self + 1;
                   initialized := initialized self;
                   available_tools := available_tools self |}).
  specialize (IH self').
  destruct (request_ids n self') as [ids self''] eqn:E.
  cbn [fst] in *. rewrite IH. cbn [seq List.map].
  f_equal. rewrite <- (seq_shift n 1), map_map.
  apply map_ext. intro i. subst self'. cbn [_request_id]. f_equal. lia.
Qed.

(** C6: on a freshly constructed client, [n] calls of
    [_get_next_request_id] return the decimal strings of 1, 2, ..., n:
    there are [n] of them, they are pairwise distinct, and the numbers
    they spell grow strictly. *)
Theorem request_ids_fresh (n : nat) :
  let ids := fst (request_ids n new_client) in
  ids = List.map (fun i => str_of_int (Z.of_nat i)) (seq 1 n) /\
  length ids = n /\
  NoDup ids /\
  (forall i j a b, (i < j)%nat ->
     nth_error ids i = Some a -> nth_error ids j = Some b ->
     exists x y, int_of_str a = Some x /\ int_of_str b = Some y /\ (x < y)%Z).
Proof.
  cbv zeta. rewrite request_ids_from. cbn [_request_id new_client Z.add].
  split; [reflexivity|]. split; [now rewrite length_map, length_seq|]. split.
  - apply Injective_map_NoDup; [|apply seq_NoDup].
    intros a b H. apply str_of_int_inj in H. lia.
  - intros i j a b Hij Ha Hb.
    rewrite nth_error_map in Ha, Hb.
    destruct (nth_error (seq 1 n) i) as [x|] eqn:Ex; [|discriminate].
    destruct (nth_error (seq 1 n) j) as [y|] eqn:Ey; [|discriminate].
    cbn in Ha, Hb. injection Ha as <-. injection Hb as <-.
    exists (Z.of_nat x), (Z.of_nat y). rewrite !int_of_str_of_int.
    split; [reflexivity|]. split; [reflexivity|].
    assert (Hi : (i < n)%nat)
      by (rewrite <- (length_seq n 1); apply nth_error_Some; congruence).
    assert (Hj : (j < n)%nat)
      by (rewrite <- (length_seq n 1); apply nth_error_Some; congruence).
    apply (nth_error_nth _ _ 0%nat) in Ex, Ey.
    rewrite seq_nth in Ex, Ey by assumption. lia.
Qed.

(** ** The text of a result *)

(** C8: [get_text_value] returns the text of a first item that is a
    [TextContent], the value under ['text'] of a first item that is a
    dictionary with that key, and [None] in every other case, empty
    content included; it is a total function, so it never raises. *)
Theorem get_text_value_cases (r : ToolCallResult) :
  (forall t others, content r = ItemText t :: others ->
     get_text_value r = PyStr (tc_text t)) /\
  (forall d others v, content r = ItemDict d :: others ->
     dict_lookup d (u "text") = Some v -> get_text_value r = v) /\
  (forall d others, content r = ItemDict d :: others ->
     dict_lookup d (u "text") = None -> get_text_value r = PyNone) /\
  (content r = [] -> get_text_value r = PyNone).
Proof.
  unfold get_text_value. repeat split.
  - intros t others ->. reflexivity.
  - intros d others v -> ->. reflexivity.
  - intros d others -> ->. reflexivity.
  - intros ->. reflexivity.
Qed.

(** ** The matcher *)

Lemma startswith_app (w t : pystr) : startswith w (w ++ t) = true.
Proof.
  induction w as [|c w IH]; [reflexivity|].
  cbn [startswith app]. now rewrite N.eqb_refl, IH.
Qed.

Lemma startswith_inv (w s : pystr) :
  startswith w s = true -> exists t, s = w ++ t.
Proof.
  revert s. induction w as [|c w IH]; intros s H.
  - now exists s.
  - destruct s as [|d s]; [discriminate|]. cbn [startswith] in H.
    apply andb_prop in H as [Hc Hw]. apply N.eqb_eq in Hc. subst d.
    destruct (IH _ Hw) as [t ->]. now exists t.
Qed.

Section MatcherFacts.
Variable R : Type.
Implicit Types (cont : mstate -> option R) (st : mstate).

Lemma rmatch_word_app (w t : pystr) o g cont :
  rmatch (word w) (MState (w ++ t) o g) cont
  = cont (MState t (option_map (app (rev w)) o) g).
Proof.
  revert o. induction w as [|c w IH]; intro o.
  - cbn. now destruct o.
  - cbn [word rmatch rest app in_class]. rewrite N.eqb_refl.
    unfold read. cbn [opened group1]. rewrite IH. do 2 f_equal.
    destruct o; cbn [option_map rev]; [|reflexivity].
    now rewrite <- app_assoc.
Qed.

Lemma rmatch_word_some (w : pystr) st cont x :
  rmatch (word w) st cont = Some x ->
  exists t, rest st = w ++ t /\
            cont (MState t (option_map (app (rev w)) (opened st)) (group1 st)) = Some x.
Proof.
  revert st. induction w as [|c w IH]; intros st H.
  - exists (rest st). split; [reflexivity|]. cbn in *.
    destruct st as [s [o|] g]; exact H.
  - cbn [word rmatch] in H.
    destruct (rest st) as [|d s] eqn:E; [discriminate|].
    cbn [in_class] in H. destruct (d =? c) eqn:Hd; [|discriminate].
    apply N.eqb_eq in Hd. subst d.
    apply IH in H as (t & Ht & Hx). cbn [read rest opened group1] in *.
    exists t. subst s. split; [reflexivity|].
    destruct (opened st); cbn [option_map rev] in *;
      [now rewrite <- app_assoc | exact Hx].
Qed.

Lemma rmatch_word_fail (w : pystr) st cont :
  startswith w (rest st) = false -> rmatch (word w) st cont = None.
Proof.
  revert st. induction w as [|c w IH]; intros st H; [discriminate|].
  cbn [word rmatch]. destruct (rest st) as [|d s] eqn:E; [reflexivity|].
  cbn [startswith in_class] in *. rewrite N.eqb_sym.
  destruct (c =? d); [|reflexivity]. apply IH. exact H.
Qed.

Lemma star_some greedy k cont g s o x :
  star greedy k cont g s o = Some x ->
  exists b t o', s = b ++ t /\ cont (MState t o' g) = Some x.
Proof.
  revert o. induction s as [|c s IH]; intros o H.
  - exists [], [], o. now split.
  - cbn [star] in H.
    destruct (in_class k c).
    + destruct greedy.
      * destruct (star true k cont g s (option_map (cons c) o)) eqn:E.
        -- injection H as ->. apply IH in E as (b & t & o' & -> & Hx).
           now exists (c :: b), t, o'.
        -- exists [], (c :: s), o. now split.
      * destruct (cont (MState (c :: s) o g)) eqn:E.
        -- injection H as ->. exists [], (c :: s), o. now split.
        -- apply IH in H as (b & t & o' & -> & Hx).
           now exists (c :: b), t, o'.
    + exists [], (c :: s), o. now split.
Qed.

Lemma dead_app cont g b1 b2 t :
  dead cont g b1 (b2 ++ t) -> dead cont g b2 t -> dead cont g (b1 ++ b2) t.
Proof.
  induction b1 as [|c b1 IH]; intros H1 H2; [exact H2|].
  destruct H1 as [H1 H1']. split.
  - intro o. change ((c :: b1) ++ b2) with (c :: (b1 ++ b2)).
    cbn [app]. rewrite <- app_assoc. apply H1.
  - apply IH; assumption.
Qed.

Lemma star_lazy_skip cont g b t o :
  dead cont g b t ->
  star false CAny cont g (b ++ t) o
  = star false CAny cont g t (option_map (app (rev b)) o).
Proof.
  revert o. induction b as [|c b IH]; intros o H.
  - cbn. now destruct o.
  - destruct H as [H H']. cbn [app star in_class].
    change (c :: b ++ t) with ((c :: b) ++ t). rewrite H, IH by assumption.
    f_equal. destruct o; cbn [option_map rev]; [|reflexivity].
    now rewrite <- app_assoc.
Qed.

(** A lazy [.*?] stops at the first point where the rest of the
    pattern matches. *)
Lemma star_lazy_found cont g b t o :
  (forall o', exists x, cont (MState t o' g) = Some x) ->
  exists x, star false CAny cont g (b ++ t) o = Some x.
Proof.
  intro H. revert o. induction b as [|c b IH]; intro o.
  - cbn [app]. destruct (H o) as [x Hx].
    destruct t as [|d t]; cbn [star]; rewrite Hx; [eauto|].
    cbn [in_class]. eauto.
  - cbn [app star in_class].
    destruct (cont (MState (c :: b ++ t) o g)); [eauto|]. apply IH.
Qed.
End MatcherFacts.

Lemma re_search_found (r : regex) (a t : pystr) m :
  match_at r t = Some m -> exists m', re_search r (a ++ t) = Some m'.
Proof.
  intro H. induction a as [|c a IH].
  - cbn [app]. destruct t; cbn [re_search]; rewrite H; eauto.
  - cbn [app re_search]. destruct (match_at r (c :: a ++ t)); eauto.
Qed.

Lemma re_search_some (r : regex) (s : pystr) m :
  re_search r s = Some m -> exists a t, s = a ++ t /\ match_at r t = Some m.
Proof.
  induction s as [|c s IH]; cbn [re_search]; intro H.
  - exists [], []. split; [reflexivity|].
    destruct (match_at r []); [exact H | discriminate].
  - destruct (match_at r (c :: s)) eqn:E.
    + exists [], (c :: s). split; [reflexivity|]. congruence.
    + apply IH in H as (a & t & -> & Ht). now exists (c :: a), t.
Qed.

Lemma re_search_skip (r : regex) (a t : pystr) :
  (forall a1 a2, a = a1 ++ a2 -> a2 <> [] -> match_at r (a2 ++ t) = None) ->
  re_search r (a ++ t) = re_search r t.
Proof.
  induction a as [|c a IH]; intro H; [reflexivity|].
  cbn [app re_search].
  assert (H0 : match_at r ((c :: a) ++ t) = None)
    by (apply (H [] (c :: a) eq_refl); discriminate).
  cbn [app] in H0. rewrite H0.
  apply IH. intros a1 a2 -> Ha2. apply (H (c :: a1) a2 eq_refl Ha2).
Qed.

(** [re_result] only matches where the text reads [result={], then
    anything, then [}]. *)
Lemma re_result_fragment (s : pystr) m :
  re_search re_result s = Some m ->
  exists a b c, s = a ++ u "result={" ++ b ++ u "}" ++ c.
Proof.
  intro H. apply re_search_some in H as (a & t & -> & H).
  unfold match_at, re_result in H. cbn [rmatch] in H.
  apply rmatch_word_some in H as (t1 & Ht1 & H). cbn [rest] in Ht1. subst t.
  unfold re_braces in H. cbn [rmatch rest] in H.
  destruct t1 as [|c1 t1]; [discriminate|]. cbn [in_class] in H.
  destruct (c1 =? 123) eqn:E1; [|discriminate]. apply N.eqb_eq in E1. subst c1.
  cbn [read rest opened group1] in H.
  apply star_some in H as (b & t2 & o' & -> & H).
  cbn [rest] in H. destruct t2 as [|c2 t2]; [discriminate|]. cbn [in_class] in H.
  destruct (c2 =? 125) eqn:E2; [|discriminate]. apply N.eqb_eq in E2. subst c2.
  exists a, b, t2. reflexivity.
Qed.

Lemma star_greedy_run (R : Type) (k : cclass) (cont : mstate -> option R)
      g b t o x :
  forallb (in_class k) b = true ->
  cont (MState t (option_map (app (rev b)) o) g) = Some x ->
  match t with [] => true | c :: _ => negb (in_class k c) end = true ->
  star true k cont g (b ++ t) o = Some x.
Proof.
  revert o. induction b as [|c b IH]; intros o Hb Hx Ht.
  - assert (E : option_map (app (rev [])) o = o) by now destruct o.
    rewrite E in Hx. cbn [app].
    destruct t as [|d t]; cbn [star]; [exact Hx|].
    apply negb_true_iff in Ht. now rewrite Ht.
  - cbn [forallb] in Hb. apply andb_prop in Hb as [Hc Hb].
    cbn [app star]. rewrite Hc, (IH (option_map (cons c) o)); auto.
    rewrite <- Hx. do 2 f_equal.
    destruct o; cbn [option_map rev]; [|reflexivity].
    now rewrite <- app_assoc.
Qed.

(** The text pattern starts with a single quote: it matches nowhere
    in text without one. *)
Lemma re_text_needs_quote (c : N) (s : pystr) :
  (c =? 39) = false -> match_at re_text (c :: s) = None.
Proof.
  intro H. unfold match_at, re_text. spell.
  cbn [word rmatch rest in_class]. now rewrite H.
Qed.

Lemma re_text_skip (pre t : pystr) :
  forallb (fun c => negb (c =? 39)) pre = true ->
  re_search re_text (pre ++ t) = re_search re_text t.
Proof.
  intro H. apply re_search_skip. intros a1 a2 -> Ha2.
  rewrite forallb_app in H. apply andb_prop in H as [_ H].
  destruct a2 as [|c a2]; [contradiction|].
  cbn [forallb] in H. apply andb_prop in H as [H _].
  apply re_text_needs_quote. now apply negb_true_iff.
Qed.

Lemma re_search_here (r : regex) (s : pystr) m :
  match_at r s = Some m -> re_search r s = Some m.
Proof.
  intro H. destruct s; cbn [re_search]; now rewrite H.
Qed.

(** Where the labelled field stands after quote-free text, the
    pattern finds it and captures its value. *)
Lemma re_text_finds (pre v post : pystr) :
  forallb (fun c => negb (c =? 39)) pre = true ->
  forallb (fun c => negb (c =? 39)) v = true ->
  v <> [] ->
  re_search re_text (pre ++ u "'text': '" ++ v ++ u "'" ++ post)
  = Some (ReMatch (Some v)).
Proof.
  intros Hpre Hv Hne. rewrite re_text_skip by assumption.
  apply re_search_here.
  destruct v as [|c v]; [contradiction|].
  cbn [forallb] in Hv. apply andb_prop in Hv as [Hc Hv].
  unfold match_at, re_text. spell.
  cbn [app word rmatch rest in_class Plus read opened group1 option_map N.eqb Pos.eqb
       star is_space N.leb N.compare Pos.compare Pos.compare_cont andb orb negb].
  rewrite Hc.
  erewrite (@star_greedy_run rematch (CNotChr 39) _ None v (39 :: post)
                             (Some [c]) (ReMatch (Some (c :: v))));
    [reflexivity | exact Hv | | reflexivity].
  cbn [rest opened option_map N.eqb Pos.eqb].
  now rewrite rev_app_distr, rev_involutive.
Qed.

Lemma re_search_skip_word (w : pystr) (r : regex) (a t : pystr) :
  never_starts w a t = true ->
  re_search (Cat (word w) r) (a ++ t) = re_search (Cat (word w) r) t.
Proof.
  intro H. apply re_search_skip. intros a1 a2 -> Ha2.
  induction a1 as [|c a1 IH].
  - destruct a2 as [|c a2]; [contradiction|].
    cbn [app never_starts] in H. apply andb_prop in H as [H _].
    apply negb_true_iff in H.
    unfold match_at. cbn [rmatch]. now apply rmatch_word_fail.
  - cbn [app never_starts] in H. apply andb_prop in H as [_ H]. now apply IH.
Qed.

Lemma startswith_fits (w x y : pystr) :
  (length w <= length x)%nat -> startswith w (x ++ y) = startswith w x.
Proof.
  revert x. induction w as [|c w IH]; intros x H; [reflexivity|].
  destruct x as [|d x]; [cbn in H; lia|].
  cbn [startswith app length] in *. rewrite IH by lia. reflexivity.
Qed.

(** The label ['text':] cannot begin before a field ['text': ...] and
    end inside it. *)
Lemma label_not_across (a tail : pystr) :
  a <> [] ->
  startswith (u "'text':") a = false ->
  startswith (u "'text':") (a ++ u "'text':" ++ tail) = false.
Proof.
  intros Hne H.
  destruct a as [|c1 [|c2 [|c3 [|c4 [|c5 [|c6 [|c7 a]]]]]]]; [contradiction|..];
    try (spell; cbn [app startswith];
         repeat match goal with
                | |- context [N.pos ?a =? N.pos ?b] =>
                    let v := eval cbv in (N.pos a =? N.pos b) in
                    change (N.pos a =? N.pos b) with v
                end;
         rewrite ?andb_false_r; reflexivity).
  rewrite startswith_fits; [exact H | cbn; lia].
Qed.

Lemma label_never_starts (before tail : pystr) :
  free_of (u "'text':") before = true ->
  never_starts (u "'text':") before (u "'text':" ++ tail) = true.
Proof.
  induction before as [|c before IH]; intro H; [reflexivity|].
  cbn [free_of] in H. apply andb_prop in H as [Hc H].
  apply negb_true_iff in Hc.
  cbn [never_starts]. rewrite IH by assumption.
  rewrite label_not_across; [reflexivity | discriminate | exact Hc].
Qed.

(** After text that holds no label ['text':], the pattern finds the
    first labelled field and captures its value. *)
Lemma re_text_first_field (before v after : pystr) :
  free_of (u "'text':") before = true ->
  forallb (fun c => negb (c =? 39)) v = true ->
  v <> [] ->
  re_search re_text (before ++ u "'text': '" ++ v ++ u "'" ++ after)
  = Some (ReMatch (Some v)).
Proof.
  intros Hb Hv Hne.
  change (u "'text': '" ++ v ++ u "'" ++ after)
    with (u "'text':" ++ u " '" ++ v ++ u "'" ++ after).
  unfold re_text. rewrite re_search_skip_word by now apply label_never_starts.
  fold re_text.
  exact (re_text_finds [] v after eq_refl Hv Hne).
Qed.

(** [re_result] matches wherever the text reads [result={], then
    anything, then [}]. *)
Lemma re_result_complete (a b c : pystr) :
  exists m, re_search re_result (a ++ u "result={" ++ b ++ u "}" ++ c) = Some m.
Proof.
  assert (H : exists m, match_at re_result (u "result={" ++ b ++ u "}" ++ c) = Some m).
  { unfold match_at, re_result, re_braces. spell.
    cbn [app word rmatch rest in_class read opened group1 option_map N.eqb Pos.eqb].
    apply star_lazy_found. intro o'.
    cbn [app rest in_class N.eqb Pos.eqb]. eauto. }
  destruct H as [m H]. apply (re_search_found _ a _ _ H).
Qed.

(** ** The captured group *)

Lemma open_kept_refl (st : mstate) : open_kept st st.
Proof. now split. Qed.

Lemma open_kept_trans (a b c : mstate) :
  open_kept a b -> open_kept b c -> open_kept a c.
Proof. intros [H1 H2] [H3 H4]. split; [auto | congruence]. Qed.

Lemma star_kept (R : Type) greedy k (cont : mstate -> option R) g s o x :
  star greedy k cont g s o = Some x ->
  exists st', cont st' = Some x /\ open_kept (MState s o g) st'.
Proof.
  revert o x. induction s as [|c s IH]; intros o x H.
  - exists (MState [] o g). split; [exact H | apply open_kept_refl].
  - cbn [star] in H.
    assert (Step : forall y,
      star greedy k cont g s (option_map (cons c) o) = Some y ->
      exists st', cont st' = Some y /\ open_kept (MState (c :: s) o g) st').
    { intros y Hy. apply IH in Hy as (st' & Hc & [Ho Hg]).
      exists st'. split; [exact Hc|]. split; [|exact Hg].
      intro Hn. apply Ho. cbn [opened] in *. now destruct o. }
    assert (Here : forall y,
      cont (MState (c :: s) o g) = Some y ->
      exists st', cont st' = Some y /\ open_kept (MState (c :: s) o g) st').
    { intros y Hy. eexists. split; [exact Hy | apply open_kept_refl]. }
    destruct (in_class k c); [|now apply Here].
    destruct greedy.
    + destruct (star true k cont g s (option_map (cons c) o)) eqn:E.
      * injection H as ->. now apply Step.
      * now apply Here.
    + destruct (cont (MState (c :: s) o g)) eqn:E.
      * injection H as ->. now apply Here.
      * now apply Step.
Qed.

Lemma rmatch_kept (R : Type) (r : regex) :
  flat r = true ->
  forall st (cont : mstate -> option R) x,
    rmatch r st cont = Some x ->
    exists st', cont st' = Some x /\ open_kept st st'.
Proof.
  induction r as [|k|r1 IH1 r2 IH2|r1 IH1 r2 IH2|greedy k|r IH|];
    intros F st cont x H; cbn [flat rmatch] in *.
  - exists st. split; [exact H | apply open_kept_refl].
  - destruct (rest st) as [|c s]; [discriminate|].
    destruct (in_class k c); [|discriminate].
    exists (read c s st). split; [exact H|]. split; [|reflexivity].
    unfold read. cbn [opened]. now destruct (opened st).
  - apply andb_prop in F as [F1 F2].
    apply (IH1 F1) in H as (st1 & H & K1).
    apply (IH2 F2) in H as (st2 & H & K2).
    exists st2. split; [exact H | now apply (open_kept_trans _ st1)].
  - apply andb_prop in F as [F1 F2].
    destruct (rmatch r1 st cont) eqn:E.
    + injection H as ->. now apply (IH1 F1) in E.
    + now apply (IH2 F2) in H.
  - apply star_kept in H as (st' & H & K). exists st'. split; [exact H|].
    now destruct st.
  - discriminate.
  - destruct (rest st) as [|c [|d s]].
    + exists st. split; [exact H | apply open_kept_refl].
    + destruct (c =? 10); [|discriminate].
      exists st. split; [exact H | apply open_kept_refl].
    + discriminate.
Qed.

(** A match of a pattern of the form [before (group) after], with no
    further group, has the text of its group. *)
Lemma match_at_group (before inner after : regex) (s : pystr) (m : rematch) :
  flat before = true -> flat inner = true -> flat after = true ->
  match_at (Cat before (Cat (Group inner) after)) s = Some m ->
  exists g, group m = PyStr g.
Proof.
  intros Fb Fi Fa H. unfold match_at in H. cbn [rmatch] in H.
  apply (rmatch_kept _ before Fb) in H as (st1 & H & _).
  apply (rmatch_kept _ inner Fi) in H as (st2 & H & [Ho _]).
  apply (rmatch_kept _ after Fa) in H as (st3 & H & [_ Hg]).
  injection H as <-. unfold group. cbn [group_1]. rewrite Hg. cbn [group1].
  destruct (opened st2) as [o|]; [now eexists|].
  exfalso. now apply Ho.
Qed.

Lemma flat_word (w : pystr) : flat (word w) = true.
Proof. induction w; [reflexivity|]. cbn [word flat]. exact IHw. Qed.

Lemma re_result_group (s : pystr) (m : rematch) :
  re_search re_result s = Some m -> exists g, group m = PyStr g.
Proof.
  intro H. apply re_search_some in H as (a & t & _ & H).
  apply (match_at_group (word (u "result=")) re_braces Eps t m);
    [apply flat_word | reflexivity | reflexivity |].
  unfold match_at, re_result in *. cbn [rmatch] in *. exact H.
Qed.

Lemma re_full_result_group (s : pystr) (m : rematch) :
  re_search re_full_result s = Some m -> exists g, group m = PyStr g.
Proof.
  intro H. apply re_search_some in H as (a & t & _ & H).
  apply (match_at_group (word (u "result=")) re_braces after_result t m);
    [apply flat_word | reflexivity | | exact H].
  unfold after_result. cbn [flat]. now rewrite flat_word.
Qed.

(** ** Extraction and decoding *)

Section DecoderFacts.

Variable ast_literal_eval : pystr -> result PyVal.
Local Abbreviation extract := (extract_jsonrpc ast_literal_eval).
Local Abbreviation decode := (parse_tool_response ast_literal_eval).

(** Without the prefix [root=], or without a [result={...}] fragment,
    [extract_jsonrpc] returns [None]. *)
Lemma extract_jsonrpc_nothing (input : PyVal) (field_name : option pystr) :
  (forall s, input = PyStr s ->
     startswith (u "root=") s = false \/
     (forall a b c, s <> a ++ u "result={" ++ b ++ u "}" ++ c)) ->
  extract input field_name = Ok PyNone.
Proof.
  intro H. unfold extract_jsonrpc.
  destruct input; try reflexivity.
  destruct (H s eq_refl) as [Hp | Hf].
  - rewrite Hp. now rewrite orb_true_r.
  - destruct (negb (truthy (PyStr s)) || negb (startswith (u "root=") s));
      [reflexivity|].
    destruct (re_search re_result s) as [m|] eqn:E; [|reflexivity].
    apply re_result_fragment in E as (a & b & c & E).
    now apply Hf in E.
Qed.

(** C10: [extract_jsonrpc] returns [None], and does not raise, for
    every input that is not a string with the prefix [root=] (for
    [None], the empty string, values that are no strings, structured
    objects) and for every string, prefixed or not, that holds no
    [result={...}] fragment. *)
Theorem extract_jsonrpc_none (input : PyVal) (field_name : option pystr) :
  (forall s, input = PyStr s ->
     startswith (u "root=") s = false \/
     (forall a b c, s <> a ++ u "result={" ++ b ++ u "}" ++ c)) ->
  extract input field_name = Ok PyNone.
Proof.
  exact (extract_jsonrpc_nothing input field_name).
Qed.

(** A string without the prefix [root=] gives [None]. *)
Lemma extract_jsonrpc_unprefixed (s : pystr) (field_name : option pystr) :
  startswith (u "root=") s = false ->
  extract (PyStr s) field_name = Ok PyNone.
Proof.
  intro H. apply extract_jsonrpc_nothing. intros s' [= <-]. now left.
Qed.

(** Asked for the whole result, [extract_jsonrpc] never raises. *)
Lemma extract_jsonrpc_whole (input : PyVal) :
  exists found, extract_jsonrpc ast_literal_eval input None = Ok found.
Proof.
  unfold extract_jsonrpc. destruct input; eauto.
  destruct (_ || _); eauto.
  destruct (re_search re_result s) as [m|] eqn:E; eauto.
  assert (G : exists g,
             match re_search re_full_result s with
             | Some full_result_match => group full_result_match
             | None => group m
             end = PyStr g).
  { destruct (re_search re_full_result s) eqn:F;
      [now apply re_full_result_group in F | now apply re_result_group in E]. }
  destruct G as [g ->]. cbn [replace_receiver bind].
  destruct (json_loads (normalise g)); cbn [select_field]; eauto.
  unfold try_except. destruct (ast_literal_eval g); cbn [bind select_field]; eauto.
Qed.

(** What the decoder does with a string from which [extract_jsonrpc]
    gets nothing: the text pattern decides. *)
Lemma parse_tool_response_unparsed (s : pystr) :
  extract (PyStr s) None = Ok PyNone ->
  decode (PyStr s)
  = Ok (match text_regex s with Some t => t | None => unrecognized end).
Proof.
  intro H.
  unfold parse_tool_response,
    parse_tool_response_body, root_stage.
  rewrite H.
  destruct (startswith (u "root=") s);
    cbn [bind or_else truthy native_stage hasattr getattr_opt regex_stage try_except];
    now destruct (text_regex s).
Qed.


(** C1: from the scenario string [extract_jsonrpc] recovers the
    result with the one text item [42] and [isError] false, and
    [parse_tool_response] returns its first text, the text
    [get_text_value] gives for that result: [42]. *)
Theorem scenario_42_decodes :
  extract (PyStr scenario_42) None = Ok (dump result_42) /\
  decode (PyStr scenario_42)
  = Ok (get_text_value result_42, isError result_42, PyNone) /\
  get_text_value result_42 = PyStr (u "42").
Proof.
  repeat split; vm_compute; reflexivity.
Qed.

(** X4: of a string with the prefix [root=] whose extracted result
    is a dictionary with an [isError] that counts as true,
    [parse_tool_response] reports a failure: no value, the flag, and
    the result's [message] or, without one, the text [Unknown
    error]; the content is not looked at. *)
Lemma parse_tool_response_root_failure (s : pystr) (d : pydict) :
  startswith (u "root=") s = true ->
  extract (PyStr s) None = Ok (PyDict d) ->
  d <> [] ->
  truthy (match dict_lookup d (u "isError") with
          | Some v => v
          | None => PyBool false
          end) = true ->
  decode (PyStr s)
  = Ok (PyNone, true,
        match dict_lookup d (u "message") with
        | Some m => m
        | None => PyStr (u "Unknown error")
        end).
Proof.
  intros Hp He Hd Ht.
  unfold parse_tool_response,
    parse_tool_response_body, root_stage.
  rewrite Hp, He.
  destruct d as [|kv d]; [contradiction|].
  cbn [bind truthy get_method]. rewrite Ht. reflexivity.
Qed.

(** C2, at the failing input: the native object of a failed result
    is decoded as a success carrying the text, without the flag and
    without the message; the same result in the debug string is
    reported as a failure. *)
Theorem native_failure_not_flagged :
  decode (native_reply failed_result)
  = Ok (PyStr (u "boom"), false, PyNone) /\
  decode (encode PrefixedLiteral failed_result)
  = Ok (PyNone, true, PyStr (u "boom")).
Proof.
  split; vm_compute; reflexivity.
Qed.


End DecoderFacts.

(** ** The session *)

Section Records.
Variable P : strategy * PyVal -> Prop.

Lemma records_ret {A} (a : A) : records_only P (ret a).
Proof. intro s. exists []. now split. Qed.

Lemma records_raise {A} (e : exn) : records_only P (@raise A e).
Proof. intro s. exists []. now split. Qed.

Lemma records_lift {A} (r : result A) : records_only P (lift r).
Proof. destruct r; [apply records_ret | apply records_raise]. Qed.

Lemma records_bind {A B} (m : M A) (k : A -> M B) :
  records_only P m -> (forall a, records_only P (k a)) ->
  records_only P (mbind m k).
Proof.
  intros Hm Hk s. unfold mbind.
  destruct (Hm s) as (n1 & E1 & F1).
  destruct (m s) as [[a|e|] s1] eqn:E; cbn [snd] in *.
  - destruct (Hk a s1) as (n2 & E2 & F2).
    exists (n2 ++ n1). rewrite E2, E1, app_assoc. split; [reflexivity|].
    apply Forall_app. now split.
  - exists n1. now split.
  - exists n1. now split.
Qed.

Lemma records_try {A} (m : M A) (h : exn -> M A) :
  records_only P m -> (forall e, records_only P (h e)) ->
  records_only P (mtry m h).
Proof.
  intros Hm Hh s. unfold mtry.
  destruct (Hm s) as (n1 & E1 & F1).
  destruct (m s) as [[a|e|] s1] eqn:E; cbn [snd] in *.
  - exists n1. now split.
  - destruct (Hh e s1) as (n2 & E2 & F2).
    exists (n2 ++ n1). rewrite E2, E1, app_assoc. split; [reflexivity|].
    apply Forall_app. now split.
  - exists n1. now split.
Qed.

Lemma records_decoding (d : strategy) (v : PyVal) :
  P (d, v) -> records_only P (decoding d v).
Proof.
  intros H s. exists [(d, v)]. split; [reflexivity|]. now constructor.
Qed.

Lemma records_get_self : records_only P get_self.
Proof. intro s. exists []. now split. Qed.

Lemma records_set_self (c : Client) : records_only P (set_self c).
Proof. intro s. exists []. now split. Qed.

Lemma records_next_request_id : records_only P next_request_id.
Proof.
  intro s. exists []. unfold next_request_id.
  destruct (_get_next_request_id (fst s)). now split.
Qed.

Lemma records_send (msg : JSONRPCMessage) : records_only P (send msg).
Proof.
  intro s. exists []. unfold send.
  destruct (send_faults (snd s)) as [|[e|] faults]; now split.
Qed.

Lemma records_receive : records_only P receive.
Proof.
  intro s. exists []. unfold receive.
  destruct (receive_from (inbox (snd s))). now split.
Qed.
End Records.

(** Takes a goal [records_only P m] apart along the structure of [m]. *)
Ltac records :=
  repeat first
    [ apply records_ret | apply records_raise | apply records_lift
    | apply records_get_self | apply records_set_self
    | apply records_next_request_id | apply records_send | apply records_receive
    | apply records_bind; [|intro]
    | apply records_try; [|intro]
    | match goal with
      | |- records_only _ (if ?b then _ else _) => destruct b
      | |- records_only _ (match ?x with _ => _ end) => destruct x
      end ].

Section ClientFacts.
Variable ast_literal_eval : pystr -> result PyVal.
Variable builtin_str : PyVal -> pystr.

Lemma call_tool_reply_records (response : PyVal) :
  records_only of_data (call_tool_reply ast_literal_eval builtin_str response).
Proof.
  unfold call_tool_reply.
  destruct (is_exception response) eqn:E; [apply records_raise|].
  assert (D : forall d, records_only of_data (decoding d response))
    by (intro d; now apply records_decoding).
  assert (D' : forall d t, records_only of_data (decoding d (PyStr t)))
    by (intros d t; now apply records_decoding).
  apply records_bind; [|intro found].
  - unfold call_tool_root. destruct response; try apply records_ret.
    destruct (startswith (u "root=") s); [|apply records_ret].
    apply records_bind; [apply D|intros _]. records; apply D.
  - destruct found; [apply records_ret|].
    apply records_try; [|intro; apply records_ret].
    unfold call_tool_object.
    apply records_bind; [apply D|intros _].
    apply records_bind; [|intro from_text].
    + destruct (_ && _); [|apply records_ret].
      apply records_bind; [apply D'|intros _]. apply records_lift.
    + destruct from_text; [apply records_ret|].
      apply records_bind; [apply D|intros _].
      apply records_bind; [apply records_lift|intro has_content].
      destruct has_content; [apply records_lift|].
      destruct response; try apply records_ret.
      apply records_bind; [apply D|intros _]. records.
Qed.

Lemma call_tool_records (tool_name : pystr) (params : pydict) :
  records_only of_data (call_tool ast_literal_eval builtin_str tool_name params).
Proof.
  unfold call_tool, _send_initialize_request, _send_initialized_notification,
    set_initialized.
  records; apply call_tool_reply_records.
Qed.


(** C7, at the failing input: from a reply whose result has no
    [tools] key, [extract_jsonrpc] hands back the whole result, and
    [list_tools] stores that dictionary as the available tools. *)
Theorem list_tools_stores_result_without_tools (known : PyVal) :
  tools_after ast_literal_eval builtin_str (session known reply_without_tools)
  = PyDict [(PyStr (u "content"), PyList [])].
Proof.
  vm_compute. reflexivity.
Qed.

(** An empty tools array replaces whatever was known before. *)
Lemma list_tools_empty_array (known : PyVal) :
  tools_after ast_literal_eval builtin_str (session known reply_empty_tools) = PyList [].
Proof.
  vm_compute. reflexivity.
Qed.

(** The tools are replaced, never merged: where the reply is data and
    its text has no [root=] prefix, or [extract_jsonrpc] gets nothing
    (or nothing but an empty value) out of it, the available tools
    end up empty, whatever they were. *)
Lemma list_tools_replaces (self : Client) (w : World) (reply : PyVal)
      (later : list inbound) :
  streams self = true -> initialized self = true ->
  hd None (send_faults w) = None ->
  inbox w = Deliver reply :: later ->
  is_exception reply = false ->
  (startswith (u "root=") (py_str builtin_str reply) = false \/
   exists tools,
     extract_jsonrpc ast_literal_eval (PyStr (py_str builtin_str reply))
                     (Some (u "tools")) = Ok tools /\
     truthy tools = false) ->
  tools_after ast_literal_eval builtin_str (self, w) = PyList [].
Proof.
  intros Hs Hi Hf Hb He Hn.
  destruct (extract_jsonrpc_whole ast_literal_eval reply) as [first Hx].
  unfold tools_after, list_tools, mbind, mtry, get_self, next_request_id,
    _get_next_request_id, send, receive_within_timeout.
  cbn [fst snd streams initialized]. rewrite Hs, Hi. cbn [negb orb fst snd].
  destruct (send_faults w) as [|[f|] faults]; [|discriminate|];
    cbn [fst snd inbox with_inbox]; rewrite Hb; cbn [fst snd];
    rewrite Hx; cbn [lift ret fst snd]; rewrite He;
    unfold parse_tools_list, mbind, set_available_tools, get_self, set_self;
    cbn [fst snd available_tools];
    (destruct Hn as [Hn | (tools & Ht & Hv)];
     [ rewrite Hn | rewrite Ht; cbn [lift ret]; rewrite Hv ];
     destruct (startswith _ _); reflexivity).
Qed.

End ClientFacts.

(** ** Replacement *)

Lemma startswith_app_l (w x y : pystr) :
  startswith w x = true -> startswith w (x ++ y) = true.
Proof.
  revert x. induction w as [|c w IH]; intros x H; [reflexivity|].
  destruct x as [|d x]; [discriminate|]. cbn [startswith app] in *.
  apply andb_prop in H as [-> H]. now rewrite IH.
Qed.

Lemma startswith_length (w x : pystr) :
  startswith w x = true -> (length w <= length x)%nat.
Proof.
  revert x. induction w as [|c w IH]; intros x H; [cbn; lia|].
  destruct x as [|d x]; [discriminate|]. cbn [startswith] in H.
  apply andb_prop in H as [_ H]. apply IH in H. cbn [length]. lia.
Qed.

(** An occurrence of [w] cannot reach across a character that [w]
    does not contain. *)
Lemma startswith_separator (w x y : pystr) (q : N) :
  existsb (N.eqb q) w = false ->
  startswith w (x ++ q :: y) = startswith w x.
Proof.
  revert x. induction w as [|c w IH]; intros x Hq; [reflexivity|].
  cbn [existsb] in Hq. apply orb_false_elim in Hq as [Hc Hq].
  destruct x as [|d x]; cbn [startswith app].
  - now rewrite N.eqb_sym, Hc.
  - now rewrite IH.
Qed.

Lemma free_of_separator (w x y : pystr) (q : N) :
  w <> [] -> existsb (N.eqb q) w = false ->
  free_of w (x ++ q :: y) = free_of w x && free_of w y.
Proof.
  intros Hw Hq. induction x as [|d x IH].
  - cbn [app free_of]. destruct w as [|c w]; [contradiction|].
    cbn [startswith existsb] in *. apply orb_false_elim in Hq as [Hc _].
    now rewrite N.eqb_sym, Hc.
  - change ((d :: x) ++ q :: y) with (d :: (x ++ q :: y)).
    cbn [free_of]. rewrite IH.
    change (d :: x ++ q :: y) with ((d :: x) ++ q :: y).
    rewrite startswith_separator by assumption.
    now rewrite andb_assoc.
Qed.

Lemma replace_from_free (old new s : pystr) :
  free_of old s = true -> replace_from old new 0 s = s.
Proof.
  induction s as [|c s IH]; intro H; [reflexivity|].
  cbn [free_of] in H. apply andb_prop in H as [H1 H2].
  apply negb_true_iff in H1. cbn [replace_from]. rewrite H1.
  now rewrite IH.
Qed.

Lemma replace_from_separator (old new x y : pystr) (q : N) (k : nat) :
  old <> [] -> existsb (N.eqb q) old = false -> (k <= length x)%nat ->
  replace_from old new k (x ++ q :: y)
  = replace_from old new k x ++ q :: replace_from old new 0 y.
Proof.
  intros Ho Hq. revert k. induction x as [|d x IH]; intros k Hk.
  - cbn [length] in Hk. assert (k = 0%nat) by lia. subst k.
    cbn [app replace_from]. destruct old as [|c old]; [contradiction|].
    cbn [startswith existsb] in *. apply orb_false_elim in Hq as [Hc _].
    now rewrite N.eqb_sym, Hc.
  - change ((d :: x) ++ q :: y) with (d :: (x ++ q :: y)).
    cbn [replace_from]. destruct k as [|k].
    + change (d :: x ++ q :: y) with ((d :: x) ++ q :: y).
      rewrite startswith_separator by assumption.
      destruct (startswith old (d :: x)) eqn:E.
      * apply startswith_length in E. cbn [length] in E.
        rewrite IH by lia. now rewrite app_assoc.
      * now rewrite IH by lia.
    + cbn [length] in Hk. apply IH. lia.
Qed.

(** Replacing one character by another is a map. *)
Lemma replace_from_char (a b : N) (s : pystr) :
  replace_from [a] [b] 0 s = List.map (fun c => if c =? a then b else c) s.
Proof.
  induction s as [|c s IH]; [reflexivity|].
  cbn [replace_from startswith List.map length Nat.sub app].
  rewrite N.eqb_sym, andb_true_r. destruct s as [|d s].
  - cbn [startswith]. destruct (c =? a); reflexivity.
  - cbn [startswith] in *. rewrite <- IH. now destruct (c =? a).
Qed.

Lemma plain_result_text (r : ToolCallResult) :
  plain_result r = true ->
  exists ts, r = text_result ts (isError r) (message r) /\
             forallb plain_content ts = true.
Proof.
  destruct r as [items e m]. unfold plain_result. cbn [content isError message].
  intro H. apply andb_prop in H as [H _].
  induction items as [|i items IH].
  - now exists [].
  - cbn [forallb] in H. apply andb_prop in H as [Hi H].
    destruct (IH H) as (ts & E & Hts). destruct i as [t|d]; [|discriminate].
    exists (t :: ts). split.
    + unfold text_result in *. cbn [List.map]. injection E as E. now rewrite <- E.
    + cbn [forallb]. now rewrite Hts, andb_true_r.
Qed.

Lemma join_items (st : styling) (ts : list TextContent) (rest : pystr) :
  join (u ", ") (List.map (render st) (List.map item_dict (List.map ItemText ts)))
  ++ rest
  = items_then (quote_of st) ts rest.
Proof.
  induction ts as [|t ts IH]; [reflexivity|].
  cbn [List.map items_then join].
  assert (E : forall tail,
             render st (item_dict (ItemText t)) ++ tail
             = item_then (quote_of st) t tail).
  { intro tail. unfold item_then, quoted_then. cbn [render item_dict List.map join fst snd].
    spell. cbn [app]. repeat (rewrite <- ?app_assoc; cbn [app]). reflexivity. }
  destruct ts as [|t' ts].
  - cbn [List.map]. apply E.
  - cbn [List.map] in *. rewrite <- app_assoc, E. f_equal.
    rewrite <- app_assoc. now rewrite IH.
Qed.

Lemma render_spelled (st : styling) ts e m (rest : pystr) :
  render st (dump (text_result ts e m)) ++ rest
  = spelled_then (quote_of st) (render st (PyBool e)) ts m rest.
Proof.
  unfold dump, text_result, spelled_then, quoted_then.
  cbn [content isError message render List.map fst snd].
  rewrite <- (join_items st ts).
  destruct m as [text|]; cbn [List.map join message_then fst snd render];
    unfold quoted_then; spell; cbn [app];
    repeat (rewrite <- ?app_assoc; cbn [app]); reflexivity.
Qed.

(** ** Finding the result fragment *)

Lemma match_full_result (s : pystr) :
  match_at re_full_result (u "result=" ++ 123 :: s)
  = star false CAny close_result None s (Some [123]).
Proof.
  unfold match_at, re_full_result. cbn [rmatch].
  rewrite rmatch_word_app. reflexivity.
Qed.

Lemma dead_no_brace (b t : pystr) :
  no_brace b = true -> dead close_result None b t.
Proof.
  induction b as [|c b IH]; intro H; [exact I|].
  cbn [no_brace forallb] in H. apply andb_prop in H as [Hc H].
  apply negb_true_iff in Hc. split; [|now apply IH].
  intro o. unfold close_result. cbn [rmatch rest app in_class]. now rewrite Hc.
Qed.

Lemma dead_close_bracket (t : pystr) :
  dead close_result None [125] (93 :: t).
Proof. split; [reflexivity | exact I]. Qed.

Lemma dead_close_comma (t : pystr) :
  dead close_result None [125] (44 :: 32 :: 123 :: t).
Proof. split; [reflexivity | exact I]. Qed.

Lemma dead_piece (b t : pystr) :
  no_brace b = true -> dead close_result None [125] t ->
  dead close_result None (b ++ [125]) t.
Proof.
  intros Hb Ht. apply dead_app; [now apply dead_no_brace | exact Ht].
Qed.

(** What plain text is free of. *)
Lemma plain_text_chars (s : pystr) :
  plain_text s = true -> forallb plain_char s = true.
Proof.
  unfold plain_text. intro H.
  apply andb_prop in H as [H _]. apply andb_prop in H as [H _].
  now apply andb_prop in H as [H _].
Qed.

Lemma plain_chars_weaken (p : N -> bool) (s : pystr) :
  (forall c, plain_char c = true -> p c = true) ->
  forallb plain_char s = true -> forallb p s = true.
Proof.
  intros Hp H. rewrite forallb_forall in *. auto.
Qed.

Lemma plain_char_parts (c : N) :
  plain_char c = true ->
  (32 <=? c) = true /\ (c =? 34) = false /\ (c =? 39) = false /\
  (c =? 92) = false /\ (c =? 125) = false.
Proof.
  unfold plain_char. intro H.
  repeat (apply andb_prop in H as [H ?]).
  repeat match goal with
         | X : negb _ = true |- _ => apply negb_true_iff in X
         end.
  auto.
Qed.

Lemma plain_no_brace (s : pystr) : plain_text s = true -> no_brace s = true.
Proof.
  intro H. apply plain_text_chars in H. revert H. apply plain_chars_weaken.
  intros c Hc. apply plain_char_parts in Hc as (_ & _ & _ & _ & ->). reflexivity.
Qed.

Lemma no_brace_app (x y : pystr) : no_brace (x ++ y) = no_brace x && no_brace y.
Proof. apply forallb_app. Qed.

Lemma no_brace_quoted (st : styling) (s rest : pystr) :
  no_brace (quoted_then (quote_of st) s rest) = no_brace s && no_brace rest.
Proof.
  unfold quoted_then. change (quote_of st :: s ++ quote_of st :: rest)
    with ([quote_of st] ++ s ++ [quote_of st] ++ rest).
  rewrite !no_brace_app. now destruct st; cbn; rewrite ?andb_true_r.
Qed.

Lemma item_then_inner (q : N) (t : TextContent) (rest : pystr) :
  item_then q t rest = item_inner q t ++ 125 :: rest.
Proof.
  unfold item_then, item_inner, quoted_then. spell. cbn [app].
  repeat (rewrite <- ?app_assoc; cbn [app]). reflexivity.
Qed.

Lemma item_inner_no_brace (st : styling) (t : TextContent) :
  plain_content t = true -> no_brace (item_inner (quote_of st) t) = true.
Proof.
  unfold plain_content. intro H. apply andb_prop in H as [H1 H2].
  apply plain_no_brace in H1, H2.
  unfold item_inner. spell.
  repeat (rewrite ?no_brace_app, ?no_brace_quoted). rewrite H1, H2. reflexivity.
Qed.

Lemma items_then_app (q : N) (ts : list TextContent) (rest : pystr) :
  items_then q ts rest = items_then q ts [] ++ rest.
Proof.
  induction ts as [|t ts IH]; [reflexivity|].
  cbn [items_then]. rewrite !item_then_inner.
  destruct ts as [|t' ts].
  - now rewrite <- app_assoc.
  - rewrite IH. spell. cbn [app]. rewrite <- app_assoc. reflexivity.
Qed.

Lemma dead_items (st : styling) (ts : list TextContent) (t : pystr) :
  forallb plain_content ts = true ->
  dead close_result None (items_then (quote_of st) ts []) (93 :: t).
Proof.
  induction ts as [|i ts IH]; intro H; [exact I|].
  cbn [forallb] in H. apply andb_prop in H as [Hi H].
  cbn [items_then]. rewrite item_then_inner.
  destruct ts as [|i' ts].
  - apply dead_piece; [now apply item_inner_no_brace | apply dead_close_bracket].
  - specialize (IH H).
    change (125 :: u ", " ++ items_then (quote_of st) (i' :: ts) [])
      with ([125] ++ u ", " ++ items_then (quote_of st) (i' :: ts) []).
    rewrite app_assoc. apply dead_app.
    + apply dead_piece; [now apply item_inner_no_brace|].
      cbn [items_then]. rewrite item_then_inner.
      unfold item_inner. spell. cbn [app]. apply dead_close_comma.
    + apply dead_app; [now apply dead_no_brace | exact IH].
Qed.

Lemma message_then_app (q : N) (m : option pystr) (rest : pystr) :
  message_then q m rest = message_then q m [] ++ rest.
Proof.
  destruct m as [text|]; [|reflexivity].
  unfold message_then, quoted_then. spell. cbn [app].
  repeat (rewrite <- ?app_assoc; cbn [app]). reflexivity.
Qed.

Lemma spelled_then_inner (q : N) (flag : pystr) ts m (rest : pystr) :
  spelled_then q flag ts m rest = 123 :: result_inner q flag ts m ++ 125 :: rest.
Proof.
  unfold spelled_then, result_inner, quoted_then.
  rewrite (items_then_app q ts (u "], " ++ _)), (message_then_app q m (u "}" ++ _)).
  spell. cbn [app]. repeat (rewrite <- ?app_assoc; cbn [app]). reflexivity.
Qed.

Lemma dead_result_inner (st : styling) (flag : pystr) ts m (t : pystr) :
  forallb plain_content ts = true -> plain_message m = true ->
  no_brace flag = true ->
  dead close_result None (result_inner (quote_of st) flag ts m) t.
Proof.
  intros Hts Hm Hb. unfold result_inner, quoted_then at 1.
  change (quote_of st :: u "content" ++ quote_of st :: ?x)
    with ((quote_of st :: u "content" ++ quote_of st :: u ": [") ++
          items_then (quote_of st) ts [] ++ (u "], " ++ quoted_then (quote_of st) (u "isError")
            (u ": " ++ flag ++ message_then (quote_of st) m []))).
  apply dead_app; [apply dead_no_brace; now destruct st|].
  apply dead_app.
  - spell. cbn [app]. now apply dead_items.
  - apply dead_no_brace. spell.
    repeat (rewrite ?no_brace_app, ?no_brace_quoted).
    rewrite Hb. destruct m as [text|]; [|reflexivity].
    cbn [plain_message] in Hm. apply plain_no_brace in Hm.
    unfold message_then. spell.
    repeat (rewrite ?no_brace_app, ?no_brace_quoted). now rewrite Hm.
Qed.

Lemma prefixed_string_spelled (st : styling) ts e m :
  prefixed_string st (text_result ts e m)
  = (u "root=JSONRPCResponse(id=" ++ quote_of st :: u "1" ++ quote_of st :: u ", ")
    ++ u "result=" ++ spelled_then (quote_of st) (render st (PyBool e)) ts m (u ")").
Proof.
  unfold prefixed_string. rewrite render_spelled.
  spell. cbn [app]. destruct st; reflexivity.
Qed.

(** The full pattern captures exactly the text of the result. *)
Lemma search_full_result (st : styling) ts e m :
  forallb plain_content ts = true -> plain_message m = true ->
  re_search re_full_result (prefixed_string st (text_result ts e m))
  = Some (ReMatch (Some (text_of_result st ts e m))).
Proof.
  intros Hts Hm. rewrite prefixed_string_spelled.
  unfold re_full_result. rewrite re_search_skip_word.
  2: { unfold spelled_then. destruct st; vm_compute; reflexivity. }
  apply re_search_here. fold re_full_result.
  rewrite spelled_then_inner, match_full_result.
  rewrite star_lazy_skip by (apply dead_result_inner; auto; now destruct st, e).
  unfold text_of_result.
  rewrite <- (app_nil_r (render st (dump (text_result ts e m)))),
    render_spelled, spelled_then_inner.
  cbn [option_map star close_result rmatch rest in_class N.eqb Pos.eqb
       read opened group1 after_result].
  spell. unfold after_result.
  cbn [rmatch rest in_class N.eqb Pos.eqb read opened group1 option_map word].
  do 3 f_equal. cbn [rev]. rewrite !rev_app_distr, rev_involutive.
  reflexivity.
Qed.

(** ** Normalising the fragment *)

Lemma swap_plain (s : pystr) :
  forallb plain_char s = true -> List.map swap_quote s = s.
Proof.
  induction s as [|c s IH]; intro H; [reflexivity|].
  cbn [forallb] in H. apply andb_prop in H as [Hc H].
  apply plain_char_parts in Hc as (_ & _ & Hc & _).
  cbn [List.map]. unfold swap_quote at 1. now rewrite Hc, IH.
Qed.

Lemma swap_quoted (st : styling) (s rest : pystr) :
  forallb plain_char s = true ->
  List.map swap_quote (quoted_then (quote_of st) s rest)
  = quoted_then 34 s (List.map swap_quote rest).
Proof.
  intro H. unfold quoted_then. cbn [List.map]. rewrite map_app. cbn [List.map].
  rewrite swap_plain by assumption. now destruct st.
Qed.

Lemma swap_item (st : styling) (t : TextContent) (rest : pystr) :
  plain_content t = true ->
  List.map swap_quote (item_then (quote_of st) t rest)
  = item_then 34 t (List.map swap_quote rest).
Proof.
  unfold plain_content. intro H. apply andb_prop in H as [H1 H2].
  apply plain_text_chars in H1, H2.
  unfold item_then. spell. cbn [app List.map].
  repeat (rewrite swap_quoted by (assumption || reflexivity); cbn [app List.map]).
  reflexivity.
Qed.

Lemma swap_items (st : styling) (ts : list TextContent) (rest : pystr) :
  forallb plain_content ts = true ->
  List.map swap_quote (items_then (quote_of st) ts rest)
  = items_then 34 ts (List.map swap_quote rest).
Proof.
  induction ts as [|t ts IH]; intro H; [reflexivity|].
  cbn [forallb] in H. apply andb_prop in H as [Ht H].
  cbn [items_then]. rewrite swap_item by assumption.
  destruct ts as [|t' ts]; [reflexivity|].
  spell. cbn [app List.map]. now rewrite IH.
Qed.

Lemma swap_spelled (st : styling) (flag : pystr) ts m (rest : pystr) :
  forallb plain_content ts = true -> plain_message m = true ->
  forallb plain_char flag = true ->
  List.map swap_quote (spelled_then (quote_of st) flag ts m rest)
  = spelled_then 34 flag ts m (List.map swap_quote rest).
Proof.
  intros Hts Hm Hf. unfold spelled_then. spell. cbn [app List.map].
  rewrite swap_quoted by reflexivity. cbn [app List.map].
  rewrite swap_items by assumption. cbn [app List.map].
  rewrite swap_quoted by reflexivity. cbn [app List.map].
  rewrite map_app, swap_plain by assumption.
  destruct m as [text|]; cbn [message_then]; [|reflexivity].
  cbn [plain_message] in Hm. apply plain_text_chars in Hm.
  spell. cbn [app List.map].
  repeat (rewrite swap_quoted by (assumption || reflexivity); cbn [app List.map]).
  reflexivity.
Qed.

Section Replacing.
Variables old new : pystr.
Hypothesis old_spares : spares old = true.

Local Abbreviation replaced := (replace_from old new 0).

Lemma spares_nonempty : old <> [].
Proof.
  intros ->. unfold spares in old_spares.
  now rewrite andb_false_r in old_spares.
Qed.

Lemma spares_separator (q : N) :
  existsb (N.eqb q) [34; 44; 125] = true -> existsb (N.eqb q) old = false.
Proof.
  intro Hq. unfold spares in old_spares.
  apply andb_prop in old_spares as [H _]. apply andb_prop in H as [H _].
  apply negb_true_iff in H.
  destruct (existsb (N.eqb q) old) eqn:E; [|reflexivity].
  apply existsb_exists in Hq as (c & Hin & Hc). apply N.eqb_eq in Hc. subst c.
  assert (T : existsb (fun c => existsb (N.eqb c) old) [34; 44; 125] = true)
    by (apply existsb_exists; now exists q).
  congruence.
Qed.

Lemma replaced_punctuation (c : N) (s : pystr) :
  existsb (N.eqb c) (u "{}[]:, ") = true ->
  replaced (c :: s) = c :: replaced s.
Proof.
  intro Hc. unfold spares in old_spares.
  apply andb_prop in old_spares as [H _]. apply andb_prop in H as [_ H].
  destruct old as [|o old']; [discriminate|].
  apply negb_true_iff in H.
  assert (E : (o =? c) = false).
  { destruct (o =? c) eqn:E; [|reflexivity]. apply N.eqb_eq in E. subst c.
    congruence. }
  cbn [replace_from startswith]. now rewrite E.
Qed.

Lemma replaced_after (q : N) (x y : pystr) :
  existsb (N.eqb q) [34; 44; 125] = true ->
  replaced (x ++ q :: y) = replaced x ++ q :: replaced y.
Proof.
  intro Hq. apply replace_from_separator;
    [apply spares_nonempty | now apply spares_separator | lia].
Qed.

Lemma replaced_quoted (s rest : pystr) :
  free_of old s = true ->
  replaced (quoted_then 34 s rest) = quoted_then 34 s (replaced rest).
Proof.
  intro H. unfold quoted_then.
  change (34 :: s ++ 34 :: rest) with ([] ++ 34 :: s ++ 34 :: rest).
  rewrite (replaced_after 34 []) by reflexivity.
  cbn [replace_from app]. f_equal.
  rewrite replaced_after by reflexivity.
  now rewrite replace_from_free.
Qed.

Lemma replaced_key (k rest : pystr) :
  In k [u "content"; u "type"; u "text"; u "isError"; u "message"] ->
  replaced (quoted_then 34 k rest) = quoted_then 34 k (replaced rest).
Proof.
  intro Hk. apply replaced_quoted. unfold spares in old_spares.
  apply andb_prop in old_spares as [_ H]. rewrite forallb_forall in H. auto.
Qed.

Lemma replaced_item (t : TextContent) (rest : pystr) :
  free_content old t = true ->
  replaced (item_then 34 t rest) = item_then 34 t (replaced rest).
Proof.
  unfold free_content. intro H. apply andb_prop in H as [H1 H2].
  unfold item_then. spell. cbn [app].
  rewrite replaced_punctuation by reflexivity.
  rewrite (replaced_key [116; 121; 112; 101]) by (cbn; auto).
  rewrite !replaced_punctuation by reflexivity.
  rewrite replaced_quoted by assumption.
  rewrite !replaced_punctuation by reflexivity.
  rewrite (replaced_key [116; 101; 120; 116]) by (cbn; auto).
  rewrite !replaced_punctuation by reflexivity.
  rewrite replaced_quoted by assumption.
  now rewrite replaced_punctuation by reflexivity.
Qed.

Lemma replaced_items (ts : list TextContent) (rest : pystr) :
  forallb (free_content old) ts = true ->
  replaced (items_then 34 ts rest) = items_then 34 ts (replaced rest).
Proof.
  induction ts as [|t ts IH]; intro H; [reflexivity|].
  cbn [forallb] in H. apply andb_prop in H as [Ht H].
  cbn [items_then]. rewrite replaced_item by assumption.
  destruct ts as [|t' ts]; [reflexivity|].
  spell. cbn [app]. rewrite !replaced_punctuation by reflexivity.
  now rewrite IH.
Qed.

Lemma replaced_spelled (flag : pystr) ts m (rest : pystr) :
  forallb (free_content old) ts = true -> free_message old m = true ->
  replaced (spelled_then 34 flag ts m rest)
  = spelled_then 34 (replaced flag) ts m (replaced rest).
Proof.
  intros Hts Hm. unfold spelled_then. spell. cbn [app].
  rewrite replaced_punctuation by reflexivity.
  rewrite (replaced_key [99; 111; 110; 116; 101; 110; 116]) by (cbn; auto).
  rewrite !replaced_punctuation by reflexivity.
  rewrite replaced_items by assumption.
  rewrite !replaced_punctuation by reflexivity.
  rewrite (replaced_key [105; 115; 69; 114; 114; 111; 114]) by (cbn; auto).
  rewrite !replaced_punctuation by reflexivity.
  destruct m as [text|]; cbn [message_then free_message] in *.
  - spell. cbn [app].
    rewrite (replaced_after 44 flag) by reflexivity.
    f_equal. f_equal.
    rewrite !replaced_punctuation by reflexivity.
    rewrite (replaced_key [109; 101; 115; 115; 97; 103; 101]) by (cbn; auto 10).
    rewrite !replaced_punctuation by reflexivity.
    rewrite replaced_quoted by assumption.
    now rewrite replaced_punctuation by reflexivity.
  - now rewrite (replaced_after 125 flag) by reflexivity.
Qed.
End Replacing.

Lemma plain_content_free (ts : list TextContent) :
  forallb plain_content ts = true ->
  forallb (free_content (u "None")) ts = true /\
  forallb (free_content (u "True")) ts = true /\
  forallb (free_content (u "False")) ts = true.
Proof.
  intro H. rewrite !forallb_forall. rewrite forallb_forall in H.
  repeat split; intros t Ht; specialize (H t Ht);
    unfold plain_content, plain_text, free_content in *;
    repeat (apply andb_prop in H as [H ?]);
    repeat match goal with
           | X : _ && _ = true |- _ => apply andb_prop in X as [X ?]
           end;
    apply andb_true_intro; split; assumption.
Qed.

Lemma plain_message_free (m : option pystr) :
  plain_message m = true ->
  free_message (u "None") m = true /\
  free_message (u "True") m = true /\
  free_message (u "False") m = true.
Proof.
  destruct m as [text|]; [|now repeat split].
  cbn [plain_message free_message]. unfold plain_text. intro H.
  repeat (apply andb_prop in H as [H ?]). now repeat split.
Qed.

Lemma text_of_result_spelled (st : styling) ts e m :
  text_of_result st ts e m
  = spelled_then (quote_of st) (render st (PyBool e)) ts m [].
Proof.
  unfold text_of_result. now rewrite <- render_spelled, app_nil_r.
Qed.

(** On a plain result the replacements turn either styling into the
    JSON styling and change nothing else. *)
Lemma normalise_text (st : styling) ts e m :
  forallb plain_content ts = true -> plain_message m = true ->
  normalise (text_of_result st ts e m) = text_of_result Json ts e m.
Proof.
  intros Hts Hm.
  destruct (plain_content_free ts Hts) as (N1 & T1 & F1).
  destruct (plain_message_free m Hm) as (N2 & T2 & F2).
  rewrite !text_of_result_spelled. unfold normalise, str_replace. spell.
  rewrite replace_from_char.
  change (fun c => if c =? 39 then 34 else c) with swap_quote.
  rewrite swap_spelled by (auto; now destruct st, e).
  rewrite (replaced_spelled [78; 111; 110; 101]) by (assumption || reflexivity).
  rewrite (replaced_spelled [84; 114; 117; 101]) by (assumption || reflexivity).
  rewrite (replaced_spelled [70; 97; 108; 115; 101]) by (assumption || reflexivity).
  now destruct st, e.
Qed.

(** ** Reading the normalised fragment *)

Lemma jstep_string (v : pystr) (k : bool) (acc : pystr) (stk : list jframe) :
  forallb plain_char v = true ->
  fold_left jstep v (JS (JString k false acc) stk)
  = JS (JString k false (rev v ++ acc)) stk.
Proof.
  revert acc. induction v as [|c v IH]; intros acc H; [reflexivity|].
  cbn [forallb] in H. apply andb_prop in H as [Hc H].
  apply plain_char_parts in Hc as (H32 & H34 & _ & H92 & _).
  cbn [fold_left]. unfold jstep at 2. cbn [jmode_of jstack].
  rewrite H34, H92.
  assert (E : (c <? 32) = false) by (apply N.ltb_ge; now apply N.leb_le).
  rewrite E, IH by assumption. cbn [rev]. now rewrite <- app_assoc.
Qed.

Lemma jstep_key (s rest : pystr) (b : bool) (pairs : pydict) (stk : list jframe) :
  forallb plain_char s = true ->
  fold_left jstep (quoted_then 34 s rest) (JS (JKey b) (FObj pairs None :: stk))
  = fold_left jstep rest (JS (JColon s) (FObj pairs None :: stk)).
Proof.
  intro H. unfold quoted_then. cbn [fold_left]. rewrite fold_left_app.
  change (jstep (JS (JKey b) (FObj pairs None :: stk)) 34)
    with (JS (JString true false []) (FObj pairs None :: stk)).
  rewrite jstep_string by assumption. cbn [fold_left].
  unfold jstep at 2. cbn [jmode_of jstack N.eqb Pos.eqb].
  now rewrite app_nil_r, rev_involutive.
Qed.

Lemma jstep_value (s rest : pystr) (b : bool) (pairs : pydict) (k : pystr)
      (stk : list jframe) :
  forallb plain_char s = true ->
  fold_left jstep (quoted_then 34 s rest)
            (JS (JValue b) (FObj pairs (Some k) :: stk))
  = fold_left jstep rest (JS JNext (FObj (dict_set pairs k (PyStr s)) None :: stk)).
Proof.
  intro H. unfold quoted_then. cbn [fold_left]. rewrite fold_left_app.
  change (jstep (JS (JValue b) (FObj pairs (Some k) :: stk)) 34)
    with (JS (JString false false []) (FObj pairs (Some k) :: stk)).
  rewrite jstep_string by assumption. cbn [fold_left].
  unfold jstep at 2. cbn [jmode_of jstack N.eqb Pos.eqb deliver].
  now rewrite app_nil_r, rev_involutive.
Qed.

(** [jrun] lets the reader take the characters that are written out. *)
Ltac jrun :=
  cbn [fold_left app];
  repeat match goal with
         | |- context [jstep (JS ?m ?stk) ?c] =>
             let v := eval cbn in (jstep (JS m stk) c) in
             change (jstep (JS m stk) c) with v
         end.

Lemma jstep_item (t : TextContent) (rest : pystr) (b : bool)
      (acc : list PyVal) (stk : list jframe) :
  plain_content t = true ->
  fold_left jstep (item_then 34 t rest) (JS (JValue b) (FArr acc :: stk))
  = fold_left jstep rest
              (JS JNext (FArr (item_dict (ItemText t) :: acc) :: stk)).
Proof.
  unfold plain_content. intro H. apply andb_prop in H as [H1 H2].
  apply plain_text_chars in H1, H2.
  unfold item_then. spell. jrun.
  rewrite jstep_key by reflexivity. jrun.
  rewrite jstep_value by assumption. jrun.
  rewrite jstep_key by reflexivity. jrun.
  rewrite jstep_value by assumption. jrun.
  reflexivity.
Qed.

Lemma jstep_items (t : TextContent) (ts : list TextContent) (rest : pystr)
      (b : bool) (acc : list PyVal) (stk : list jframe) :
  forallb plain_content (t :: ts) = true ->
  fold_left jstep (items_then 34 (t :: ts) rest) (JS (JValue b) (FArr acc :: stk))
  = fold_left jstep rest
      (JS JNext
          (FArr (rev (List.map item_dict (List.map ItemText (t :: ts))) ++ acc)
             :: stk)).
Proof.
  revert t b acc. induction ts as [|t' ts IH]; intros t b acc H;
    cbn [forallb] in H; apply andb_prop in H as [Ht H].
  - cbn [items_then]. now rewrite jstep_item.
  - cbn [items_then] in *. rewrite jstep_item by assumption. spell. jrun.
    rewrite IH by assumption.
    cbn [List.map rev]. now rewrite <- !app_assoc.
Qed.

Lemma jstep_result (ts : list TextContent) (e : bool) (m : option pystr)
      (rest : pystr) :
  forallb plain_content ts = true -> plain_message m = true ->
  fold_left jstep (spelled_then 34 (render Json (PyBool e)) ts m rest)
            (JS (JValue false) [])
  = fold_left jstep rest (JS (JEnd (dump (text_result ts e m))) []).
Proof.
  intros Hts Hm. unfold spelled_then. spell. jrun.
  rewrite jstep_key by reflexivity. jrun.
  assert (E : forall tail,
    fold_left jstep (items_then 34 ts (93 :: tail))
      (JS (JValue true) [FArr []; FObj [] (Some [99; 111; 110; 116; 101; 110; 116])])
    = fold_left jstep tail
        (JS JNext [FObj [(PyStr [99; 111; 110; 116; 101; 110; 116],
                          PyList (List.map item_dict (List.map ItemText ts)))] None])).
  { intro tail. destruct ts as [|t ts].
    - cbn [items_then]. jrun. reflexivity.
    - rewrite jstep_items by assumption. jrun.
      now rewrite app_nil_r, rev_app_distr, rev_involutive. }
  rewrite E. jrun.
  rewrite jstep_key by reflexivity. jrun.
  unfold dump, text_result. cbn [content isError message].
  destruct m as [text|]; cbn [message_then plain_message] in *.
  - apply plain_text_chars in Hm. destruct e; cbn [render]; spell; jrun;
      (rewrite jstep_key by reflexivity); jrun;
      (rewrite jstep_value by assumption); jrun; reflexivity.
  - destruct e; cbn [render]; spell; jrun; reflexivity.
Qed.

(** [json.loads] reads the JSON text of a plain result back. *)
Lemma json_loads_text (ts : list TextContent) (e : bool) (m : option pystr) :
  forallb plain_content ts = true -> plain_message m = true ->
  json_loads (text_of_result Json ts e m) = Some (dump (text_result ts e m)).
Proof.
  intros Hts Hm. rewrite text_of_result_spelled. unfold json_loads.
  cbn [quote_of]. now rewrite jstep_result.
Qed.

(** ** Round trips *)

Section RoundTrip.
Variable ast_literal_eval : pystr -> result PyVal.
Local Abbreviation extract := (extract_jsonrpc ast_literal_eval).
Local Abbreviation decode := (parse_tool_response ast_literal_eval).

Lemma prefixed_string_is_prefixed (st : styling) (r : ToolCallResult) :
  startswith (u "root=") (prefixed_string st r) = true.
Proof. reflexivity. Qed.

Lemma search_result (st : styling) ts e m :
  exists found,
    re_search re_result (prefixed_string st (text_result ts e m)) = Some found.
Proof.
  rewrite prefixed_string_spelled, spelled_then_inner.
  pose proof (re_result_complete
                (u "root=JSONRPCResponse(id=" ++ quote_of st :: u "1"
                   ++ quote_of st :: u ", ")
                (result_inner (quote_of st) (render st (PyBool e)) ts m)
                (u ")")) as H.
  spell. spell_in H. cbn [app] in *. exact H.
Qed.

(** From the debug string of a plain result, in either styling,
    [extract_jsonrpc] recovers the result. *)
Lemma extract_jsonrpc_plain (st : styling) ts e m :
  forallb plain_content ts = true -> plain_message m = true ->
  extract (PyStr (prefixed_string st (text_result ts e m))) None
  = Ok (dump (text_result ts e m)).
Proof.
  intros Hts Hm. unfold extract_jsonrpc.
  rewrite prefixed_string_is_prefixed.
  assert (T : truthy (PyStr (prefixed_string st (text_result ts e m))) = true)
    by reflexivity.
  rewrite T. cbn [negb orb].
  destruct (search_result st ts e m) as [found ->].
  rewrite search_full_result by assumption.
  cbn [group group_1 replace_receiver bind].
  rewrite normalise_text, json_loads_text by assumption.
  reflexivity.
Qed.

Lemma plain_no_quote (s : pystr) : plain_text s = true -> no_quote s = true.
Proof.
  intro H. apply plain_text_chars in H. revert H. apply plain_chars_weaken.
  intros c Hc. apply plain_char_parts in Hc as (_ & _ & -> & _). reflexivity.
Qed.

Lemma no_quote_app (x y : pystr) : no_quote (x ++ y) = no_quote x && no_quote y.
Proof. apply forallb_app. Qed.

(** The label ['text':] does not begin at the quote that opens a
    value without quotes. *)
Lemma label_not_at_value (text tail : pystr) :
  no_quote text = true ->
  startswith (u "'text':") (39 :: text ++ 39 :: 125 :: tail) = false.
Proof.
  intro H. spell.
  destruct text as [|c1 [|c2 [|c3 [|c4 [|c5 text]]]]];
    cbn [app startswith];
    repeat match goal with
           | |- context [N.pos ?a =? N.pos ?b] =>
               let v := eval cbv in (N.pos a =? N.pos b) in
               change (N.pos a =? N.pos b) with v
           end;
    rewrite ?andb_false_r; try reflexivity.
  unfold no_quote in H. cbn [forallb] in H.
  apply andb_prop in H as [_ H]. apply andb_prop in H as [_ H].
  apply andb_prop in H as [_ H]. apply andb_prop in H as [_ H].
  apply andb_prop in H as [H _]. apply negb_true_iff in H.
  rewrite N.eqb_sym in H. rewrite H. now rewrite ?andb_false_r.
Qed.

(** In the debug string of a result without content the text pattern
    finds nothing. *)
Lemma no_text_field (st : styling) (m : option pystr) :
  plain_message m = true ->
  re_search re_text (prefixed_string st (text_result [] false m)) = None.
Proof.
  intro Hm. rewrite prefixed_string_spelled.
  unfold spelled_then, items_then, quoted_then.
  destruct m as [text|]; cbn [message_then plain_message] in *.
  - apply plain_no_quote in Hm. destruct st; cbn [quote_of render].
    + unfold quoted_then. spell. cbn [app].
      match goal with
      | |- re_search _ ?s = _ =>
          let a := eval cbv in (u "root=JSONRPCResponse(id='1', result={'content': [], 'isError': False, 'message': ") in
          change s with (a ++ 39 :: text ++ 39 :: 125 :: [41])
      end.
      unfold re_text. rewrite re_search_skip_word by reflexivity.
      fold re_text. cbn [re_search].
      unfold match_at at 1. unfold re_text at 1. cbn [rmatch].
      rewrite rmatch_word_fail by (cbn [rest]; now apply label_not_at_value).
      rewrite re_text_skip by assumption. reflexivity.
    + unfold quoted_then. spell. cbn [app].
      match goal with
      | |- re_search _ ?s = _ => rewrite <- (app_nil_r s)
      end.
      rewrite re_text_skip; [reflexivity|].
      cbn [forallb N.eqb Pos.eqb negb andb].
      change (forallb (fun c => negb (c =? 39)) (text ++ [34; 125; 41]) = true)
        with (no_quote (text ++ [34; 125; 41]) = true).
      now rewrite no_quote_app, Hm.
  - destruct st; vm_compute; reflexivity.
Qed.

(** Decoding the debug string of a plain result, in either styling,
    gives its canonical triple. *)
Lemma decode_prefixed_plain (st : styling) ts e m :
  forallb plain_content ts = true -> plain_message m = true ->
  decode (PyStr (prefixed_string st (text_result ts e m)))
  = Ok (canonical (text_result ts e m)).
Proof.
  intros Hts Hm.
  unfold parse_tool_response, parse_tool_response_body, root_stage.
  rewrite prefixed_string_is_prefixed, extract_jsonrpc_plain by assumption.
  destruct e.
  - destruct m; reflexivity.
  - destruct ts as [|t ts]; [|destruct m; reflexivity].
    unfold text_regex, regex_stage, text_regex.
    assert (E : dump (text_result [] false m)
                = PyDict ((PyStr (u "content"), PyList []) ::
                          (PyStr (u "isError"), PyBool false) ::
                          match m with
                          | Some text => [(PyStr (u "message"), PyStr text)]
                          | None => []
                          end)) by reflexivity.
    rewrite E. cbn [bind or_else truthy get_method dict_lookup lookup_by eq_str].
    rewrite no_text_field by assumption. reflexivity.
Qed.

(** Decoding the native object of a result that is no failure gives
    its canonical triple, whatever its items are. *)
Lemma decode_native (r : ToolCallResult) :
  isError r = false -> decode (native_reply r) = Ok (canonical r).
Proof.
  destruct r as [items e m]. cbn [isError]. intros ->.
  unfold canonical, get_text_value. cbn [isError content].
  destruct items as [|[t|d] items]; try reflexivity.
  unfold parse_tool_response, parse_tool_response_body, native_reply.
  cbn [content List.map item_object]. spell.
  cbn -[dict_lookup]. unfold first_text_of_dict_item.
  cbn [is_dict contains_str bind getitem_str].
  destruct (dict_lookup d _); reflexivity.
Qed.


End RoundTrip.

(** ** Steps that keep a state *)

Section Steady.
Variable P : Client * World -> Client * World -> Prop.
Hypothesis P_refl : forall s, P s s.
Hypothesis P_trans : forall a b c, P a b -> P b c -> P a c.

Lemma steady_ret {A} (a : A) : steady P (ret a).
Proof. intro s. apply P_refl. Qed.

Lemma steady_raise {A} (e : exn) : steady P (@raise A e).
Proof. intro s. apply P_refl. Qed.

Lemma steady_lift {A} (r : result A) : steady P (lift r).
Proof. destruct r; [apply steady_ret | apply steady_raise]. Qed.

Lemma steady_get_self : steady P get_self.
Proof. intro s. apply P_refl. Qed.

Lemma steady_bind {A B} (m : M A) (k : A -> M B) :
  steady P m -> (forall a, steady P (k a)) -> steady P (mbind m k).
Proof.
  intros Hm Hk s. unfold mbind. specialize (Hm s).
  destruct (m s) as [[a|e|] s1]; cbn [snd] in *; [|exact Hm..].
  exact (P_trans _ _ _ Hm (Hk a s1)).
Qed.

Lemma steady_try {A} (m : M A) (h : exn -> M A) :
  steady P m -> (forall e, steady P (h e)) -> steady P (mtry m h).
Proof.
  intros Hm Hh s. unfold mtry. specialize (Hm s).
  destruct (m s) as [[a|e|] s1]; cbn [snd] in *; [exact Hm| |exact Hm].
  exact (P_trans _ _ _ Hm (Hh e s1)).
Qed.
End Steady.

(** Takes a goal [steady P m] apart along the structure of [m], given
    that [P] is reflexive and transitive. *)
Ltac steady_by Hr Ht :=
  repeat first
    [ simple apply (steady_ret _ Hr) | simple apply (steady_raise _ Hr)
    | simple apply (steady_lift _ Hr) | simple apply (steady_get_self _ Hr)
    | simple apply (steady_bind _ Ht); [|intro]
    | simple apply (steady_try _ Ht); [|intro]
    | match goal with
      | |- steady _ (if ?b then _ else _) => destruct b
      | |- steady _ (match ?x with _ => _ end) => destruct x
      end ].

Lemma settles_ret {A} (a : A) : settles (ret a).
Proof. intro s. discriminate. Qed.

Lemma settles_raise {A} (e : exn) : settles (@raise A e).
Proof. intro s. discriminate. Qed.

Lemma settles_lift {A} (r : result A) : settles (lift r).
Proof. destruct r; [apply settles_ret | apply settles_raise]. Qed.

Lemma settles_bind {A B} (m : M A) (k : A -> M B) :
  settles m -> (forall a, settles (k a)) -> settles (mbind m k).
Proof.
  intros Hm Hk s. unfold mbind. specialize (Hm s).
  destruct (m s) as [[a|e|] s1]; cbn [fst] in *;
    [apply Hk | discriminate | contradiction].
Qed.

Lemma settles_try {A} (m : M A) (h : exn -> M A) :
  settles m -> (forall e, settles (h e)) -> settles (mtry m h).
Proof.
  intros Hm Hh s. unfold mtry. specialize (Hm s).
  destruct (m s) as [[a|e|] s1]; cbn [fst] in *;
    [discriminate | apply Hh | contradiction].
Qed.

Lemma settles_get_self : settles get_self.
Proof. intro s. discriminate. Qed.

Lemma settles_set_self (c : Client) : settles (set_self c).
Proof. intro s. discriminate. Qed.

Lemma settles_decoding (d : strategy) (v : PyVal) : settles (decoding d v).
Proof. intro s. discriminate. Qed.

Lemma settles_next_request_id : settles next_request_id.
Proof.
  intro s. unfold next_request_id. destruct (_get_next_request_id _). discriminate.
Qed.

Lemma settles_send (msg : JSONRPCMessage) : settles (send msg).
Proof.
  intro s. unfold send. destruct (send_faults (snd s)) as [|[e|] f]; discriminate.
Qed.

Lemma settles_receive_within_timeout : settles receive_within_timeout.
Proof.
  intro s. unfold receive_within_timeout.
  destruct (inbox (snd s)) as [|[v|e|] i]; discriminate.
Qed.

(** Takes a goal [settles m] apart along the structure of [m]. *)
Ltac settle :=
  repeat first
    [ simple apply settles_ret | simple apply settles_raise
    | simple apply settles_lift | simple apply settles_get_self
    | simple apply settles_set_self | simple apply settles_decoding
    | simple apply settles_next_request_id | simple apply settles_send
    | simple apply settles_receive_within_timeout
    | simple apply settles_bind; [|intro]
    | simple apply settles_try; [|intro]
    | match goal with
      | |- settles (if ?b then _ else _) => destruct b
      | |- settles (match ?x with _ => _ end) => destruct x
      end ].

Lemma same_but_decoded_refl s : same_but_decoded s s.
Proof. now repeat split. Qed.

Lemma same_but_decoded_trans a b c :
  same_but_decoded a b -> same_but_decoded b c -> same_but_decoded a c.
Proof. unfold same_but_decoded. intuition congruence. Qed.

Lemma same_but_tools_refl s : same_but_tools s s.
Proof. now repeat split. Qed.

Lemma same_but_tools_trans a b c :
  same_but_tools a b -> same_but_tools b c -> same_but_tools a c.
Proof. unfold same_but_tools. intuition congruence. Qed.

Lemma keeps_ids_refl s : keeps_ids s s.
Proof. now intro. Qed.

Lemma keeps_ids_trans a b c : keeps_ids a b -> keeps_ids b c -> keeps_ids a c.
Proof. unfold keeps_ids. auto. Qed.

Lemma steady_decoding (d : strategy) (v : PyVal) :
  steady same_but_decoded (decoding d v).
Proof. intro s. now repeat split. Qed.

Section ReplySteps.
Variable ast_literal_eval : pystr -> result PyVal.
Variable builtin_str : PyVal -> pystr.

Lemma call_tool_reply_steady (response : PyVal) :
  steady same_but_decoded (call_tool_reply ast_literal_eval builtin_str response).
Proof.
  unfold call_tool_reply, call_tool_root, call_tool_object.
  steady_by same_but_decoded_refl same_but_decoded_trans; apply steady_decoding.
Qed.

Lemma call_tool_reply_settles (response : PyVal) :
  settles (call_tool_reply ast_literal_eval builtin_str response).
Proof.
  unfold call_tool_reply, call_tool_root, call_tool_object. settle.
Qed.

End ReplySteps.

(** ** Request identifiers in a session *)

Lemma increasing_snoc (lo n : Z) (zs : list Z) :
  increasing lo zs -> Forall (fun z => (z < n)%Z) zs -> (lo < n)%Z ->
  increasing lo (zs ++ [n]).
Proof.
  revert lo. induction zs as [|z zs IH]; intros lo Hi Hf Hn; cbn [app increasing] in *.
  - now split.
  - destruct Hi as [Hz Hi]. split; [exact Hz|].
    apply IH; [exact Hi | now inversion Hf | now inversion Hf].
Qed.

Lemma increasing_bound (lo : Z) (zs : list Z) :
  increasing lo zs -> Forall (fun z => (lo < z)%Z) zs.
Proof.
  revert lo. induction zs as [|z zs IH]; intros lo H; [constructor|].
  destruct H as [Hz H]. constructor; [exact Hz|].
  apply IH in H. eapply Forall_impl; [|exact H]. cbn. lia.
Qed.

Lemma increasing_NoDup (lo : Z) (zs : list Z) : increasing lo zs -> NoDup zs.
Proof.
  revert lo. induction zs as [|z zs IH]; intros lo H; [constructor|].
  destruct H as [_ H]. constructor; [|now apply (IH z)].
  intro Hin. apply increasing_bound in H.
  rewrite Forall_forall in H. specialize (H z Hin). lia.
Qed.

Lemma ids_in_order_same (s s' : Client * World) :
  _request_id (fst s') = _request_id (fst s) ->
  outbox (snd s') = outbox (snd s) ->
  keeps_ids s s'.
Proof.
  intros Hc Ho. unfold keeps_ids, ids_in_order, sent_ids. now rewrite Hc, Ho.
Qed.

Lemma same_but_decoded_keeps (s s' : Client * World) :
  same_but_decoded s s' -> keeps_ids s s'.
Proof.
  intros (Hc & _ & _ & Ho). apply ids_in_order_same; [now rewrite Hc | exact Ho].
Qed.

Lemma same_but_tools_keeps (s s' : Client * World) :
  same_but_tools s s' -> keeps_ids s s'.
Proof.
  intros (Hw & _ & Hc & _). apply ids_in_order_same; [exact Hc | now rewrite Hw].
Qed.

Lemma steady_weaken (P Q : Client * World -> Client * World -> Prop) {A} (m : M A) :
  (forall s s', P s s' -> Q s s') -> steady P m -> steady Q m.
Proof. intros H Hm s. apply H, Hm. Qed.

Lemma keeps_set_initialized : steady keeps_ids set_initialized.
Proof. intro s. now apply ids_in_order_same. Qed.

Lemma keeps_set_streams (b : bool) : steady keeps_ids (set_streams b).
Proof. intro s. now apply ids_in_order_same. Qed.

Lemma keeps_receive : steady keeps_ids receive.
Proof.
  intro s. unfold receive. destruct (receive_from _). now apply ids_in_order_same.
Qed.

Lemma keeps_receive_within_timeout : steady keeps_ids receive_within_timeout.
Proof.
  intro s. unfold receive_within_timeout.
  destruct (inbox (snd s)) as [|[v|e|] i]; now apply ids_in_order_same.
Qed.

Lemma sent_ids_send (msg : JSONRPCMessage) (s : Client * World) :
  fst (snd (send msg s)) = fst s /\
  (sent_ids (snd (snd (send msg s))) = sent_ids (snd s) \/
   sent_ids (snd (snd (send msg s)))
   = sent_ids (snd s) ++ match msg_id msg with Some i => [i] | None => [] end).
Proof.
  unfold send, sent_ids.
  destruct (send_faults (snd s)) as [|[e|] f]; cbn [fst snd outbox];
    (split; [reflexivity|]); rewrite ?flat_map_app; cbn [flat_map];
    rewrite ?app_nil_r; auto.
Qed.

Lemma keeps_notification (msg : JSONRPCMessage) :
  msg_id msg = None -> steady keeps_ids (send msg).
Proof.
  intros Hn s. destruct (sent_ids_send msg s) as [Hc Hs].
  rewrite Hn, app_nil_r in Hs.
  unfold keeps_ids, ids_in_order. rewrite Hc.
  destruct Hs as [-> | ->]; auto.
Qed.

(** Sending the request that carries the identifier just drawn. *)
Lemma fresh_send (msg : JSONRPCMessage) (s : Client * World) :
  ids_in_order s ->
  msg_id msg = Some (fst (_get_next_request_id (fst s))) ->
  ids_in_order (snd (send msg (snd (_get_next_request_id (fst s)), snd s))).
Proof.
  intros (H0 & zs & Hz & Hi & Hb) Hm.
  destruct (sent_ids_send msg (snd (_get_next_request_id (fst s)), snd s)) as [Hc Hs].
  unfold ids_in_order. rewrite Hc. cbn [fst snd _get_next_request_id _request_id] in *.
  split; [lia|]. rewrite Hm in Hs. destruct Hs as [-> | ->].
  - exists zs. repeat split; [exact Hz | exact Hi |].
    eapply Forall_impl; [|exact Hb]. cbn. lia.
  - exists (zs ++ [_request_id (fst s) + 1]%Z). rewrite map_app, Hz. cbn [List.map].
    repeat split.
    + apply increasing_snoc; [exact Hi | | lia].
      eapply Forall_impl; [|exact Hb]. cbn. lia.
    + apply Forall_app. split; [|constructor; [lia | constructor]].
      eapply Forall_impl; [|exact Hb]. cbn. lia.
Qed.

Lemma keeps_request {A} (mk : pystr -> JSONRPCMessage) (k : pystr -> M A) :
  (forall rid, msg_id (mk rid) = Some rid) ->
  (forall rid, steady keeps_ids (k rid)) ->
  steady keeps_ids (rid <<- next_request_id ;; send (mk rid) ;;; k rid).
Proof.
  intros Hmk Hk s Hs. unfold mbind at 1, next_request_id.
  pose proof (fresh_send (mk (fst (_get_next_request_id (fst s)))) s Hs (Hmk _)) as H.
  destruct (_get_next_request_id (fst s)) as [rid c] eqn:E. cbn [fst snd] in *.
  unfold mbind. destruct (send (mk rid) (c, snd s)) as [[[]|e|] s1]; cbn [snd] in *;
    [|exact H..].
  now apply Hk.
Qed.

Lemma keeps_request_try {A} (mk : pystr -> JSONRPCMessage) (k : pystr -> M A)
      (h : pystr -> exn -> M A) :
  (forall rid, msg_id (mk rid) = Some rid) ->
  (forall rid, steady keeps_ids (k rid)) ->
  (forall rid e, steady keeps_ids (h rid e)) ->
  steady keeps_ids (rid <<- next_request_id ;; mtry (send (mk rid) ;;; k rid) (h rid)).
Proof.
  intros Hmk Hk Hh s Hs. unfold mbind at 1, next_request_id.
  pose proof (fresh_send (mk (fst (_get_next_request_id (fst s)))) s Hs (Hmk _)) as H.
  destruct (_get_next_request_id (fst s)) as [rid c] eqn:E. cbn [fst snd] in *.
  unfold mtry, mbind.
  destruct (send (mk rid) (c, snd s)) as [[[]|e|] s1]; cbn [snd] in *.
  - specialize (Hk rid s1 H).
    destruct (k rid s1) as [[a|e|] s2]; cbn [snd] in *; [exact Hk| |exact Hk].
    now apply Hh.
  - now apply Hh.
  - exact H.
Qed.

(** The same for the order of the identifiers. *)
Ltac keeps :=
  repeat first
    [ simple apply keeps_set_initialized | simple apply keeps_set_streams
    | simple apply keeps_receive | simple apply keeps_receive_within_timeout
    | simple apply keeps_notification; reflexivity
    | simple apply (steady_ret _ keeps_ids_refl)
    | simple apply (steady_raise _ keeps_ids_refl)
    | simple apply (steady_lift _ keeps_ids_refl)
    | simple apply (steady_get_self _ keeps_ids_refl)
    | simple apply (steady_bind _ keeps_ids_trans); [|intro]
    | simple apply (steady_try _ keeps_ids_trans); [|intro]
    | match goal with
      | |- steady _ (if ?b then _ else _) => destruct b
      | |- steady _ (match ?x with _ => _ end) => destruct x
      end ].

Section RequestIds.
Variable ast_literal_eval : pystr -> result PyVal.
Variable builtin_str : PyVal -> pystr.

Lemma keeps_send_initialize_request : steady keeps_ids _send_initialize_request.
Proof.
  unfold _send_initialize_request.
  apply (steady_bind _ keeps_ids_trans); [keeps|intro self].
  destruct (negb (streams self)); [keeps|].
  apply (keeps_request
           (fun rid => {| msg_id := Some rid; msg_method := u "initialize";
                          msg_params := Some initialize_params |})
           (fun _ => response <<- receive ;;
                     if is_exception response then raise (Raised response)
                     else set_initialized ;;; ret response));
    [reflexivity|intros _]. keeps.
Qed.

Lemma keeps_send_initialized_notification :
  steady keeps_ids _send_initialized_notification.
Proof. unfold _send_initialized_notification. keeps. Qed.

Lemma parse_tools_list_steady (response : PyVal) :
  steady same_but_tools (parse_tools_list ast_literal_eval builtin_str response).
Proof.
  assert (T : forall tools, steady same_but_tools (set_available_tools tools))
    by (intros tools s; now repeat split).
  unfold parse_tools_list.
  steady_by same_but_tools_refl same_but_tools_trans; apply T.
Qed.

Lemma keeps_list_tools : steady keeps_ids (list_tools ast_literal_eval builtin_str).
Proof.
  unfold list_tools.
  apply (steady_bind _ keeps_ids_trans); [keeps|intro self].
  destruct (_ || _); [keeps|].
  apply (keeps_request_try
           (fun rid => {| msg_id := Some rid; msg_method := u "tools/list";
                          msg_params := Some (PyDict []) |})
           (fun _ => _) (fun _ _ => ret PyNone));
    [reflexivity| |intros; keeps].
  intros _. keeps.
  apply (steady_weaken same_but_tools); [apply same_but_tools_keeps|].
  apply parse_tools_list_steady.
Qed.

Lemma keeps_call_tool (tool_name : pystr) (params : pydict) :
  steady keeps_ids (call_tool ast_literal_eval builtin_str tool_name params).
Proof.
  unfold call_tool.
  apply (steady_bind _ keeps_ids_trans); [keeps|intro self].
  destruct (negb (streams self)); [keeps|].
  apply (steady_bind _ keeps_ids_trans); [|intros _].
  - destruct (negb (initialized self)); [|keeps].
    apply (steady_bind _ keeps_ids_trans); [|intros _].
    + apply keeps_send_initialize_request.
    + apply keeps_send_initialized_notification.
  - apply (keeps_request
             (fun rid => {| msg_id := Some rid; msg_method := u "tools/call";
                            msg_params := _ |})
             (fun _ => response <<- receive ;;
                       call_tool_reply ast_literal_eval builtin_str response));
      [reflexivity|intros _].
    apply (steady_bind _ keeps_ids_trans); [keeps|intro response].
    apply (steady_weaken same_but_decoded); [apply same_but_decoded_keeps|].
    apply call_tool_reply_steady.
Qed.

Lemma keeps_initialize (transport : option bool) :
  steady keeps_ids (initialize ast_literal_eval builtin_str transport).
Proof.
  unfold initialize.
  apply (steady_bind _ keeps_ids_trans); [destruct transport; keeps|intros _].
  apply (steady_bind _ keeps_ids_trans);
    [apply keeps_send_initialize_request|intro init_response].
  apply (steady_bind _ keeps_ids_trans);
    [apply keeps_send_initialized_notification|intros _].
  apply (steady_bind _ keeps_ids_trans); [|intros _; keeps].
  apply (steady_try _ keeps_ids_trans); [|intro; keeps].
  apply (steady_bind _ keeps_ids_trans); [apply keeps_list_tools|intro; keeps].
Qed.

Lemma keeps_initialize_with_streams : steady keeps_ids initialize_with_streams.
Proof.
  unfold initialize_with_streams.
  apply (steady_bind _ keeps_ids_trans); [keeps|intros _].
  apply (steady_bind _ keeps_ids_trans);
    [apply keeps_send_initialize_request|intros _].
  apply keeps_send_initialized_notification.
Qed.

Lemma keeps_call_any_tool (tool_name : pystr) (arguments : option pydict) :
  steady keeps_ids (call_any_tool ast_literal_eval builtin_str tool_name arguments).
Proof.
  unfold call_any_tool.
  destruct (mapping_get _ _); [destruct (negb _); [keeps|]|];
    (apply (steady_try _ keeps_ids_trans); [|intro; keeps]);
    (apply (steady_bind _ keeps_ids_trans); [apply keeps_call_tool|intro; keeps]).
Qed.

Lemma keeps_perform (op : operation) (s : Client * World) :
  ids_in_order s -> ids_in_order (perform ast_literal_eval builtin_str op s).
Proof.
  revert s. change (forall s, keeps_ids s (perform ast_literal_eval builtin_str op s)).
  destruct op; cbn [perform].
  - apply keeps_send_initialize_request.
  - apply keeps_send_initialized_notification.
  - apply keeps_initialize.
  - apply keeps_initialize_with_streams.
  - apply keeps_list_tools.
  - apply keeps_call_tool.
  - apply keeps_call_any_tool.
Qed.

Lemma keeps_perform_all (ops : list operation) (s : Client * World) :
  ids_in_order s -> ids_in_order (perform_all ast_literal_eval builtin_str ops s).
Proof.
  revert s. induction ops as [|op ops IH]; intros s H; [exact H|].
  cbn [perform_all fold_left]. apply IH. now apply keeps_perform.
Qed.

(** X14: whatever a client does, in whatever order and whatever the peer
    answers or fails to answer, the requests it has sent carry
    identifiers that are the decimal numerals of strictly increasing
    numbers between 1 and the client's counter; no two requests of a
    session share an identifier. *)
Theorem session_request_ids_distinct
        (ops : list operation) (arriving : list inbound) (faults : list (option exn)) :
  let s := perform_all ast_literal_eval builtin_str ops
             (new_client,
              {| inbox := arriving; send_faults := faults; outbox := []; decoded := [] |}) in
  NoDup (sent_ids (snd s)) /\
  exists zs, sent_ids (snd s) = List.map str_of_int zs /\
             increasing 0 zs /\
             Forall (fun z => (z <= _request_id (fst s))%Z) zs.
Proof.
  intro s.
  assert (H : ids_in_order s).
  { apply keeps_perform_all. split; [cbn; lia|]. exists []. now repeat split. }
  destruct H as (_ & zs & Hz & Hi & Hb). split; [|now exists zs].
  rewrite Hz. apply Injective_map_NoDup.
  - intros a b. apply str_of_int_inj.
  - now apply (increasing_NoDup 0).
Qed.

End RequestIds.

(** ** The handshake and the listing of tools *)

Lemma mbind_returns {A B} (m : M A) (k : A -> M B) (s s' : Client * World) (a : A) :
  m s = (Returns a, s') -> mbind m k s = k a s'.
Proof. intro H. unfold mbind. now rewrite H. Qed.

Lemma mbind_raises {A B} (m : M A) (k : A -> M B) (s s' : Client * World) (e : exn) :
  m s = (Raises e, s') -> mbind m k s = (Raises e, s').
Proof. intro H. unfold mbind. now rewrite H. Qed.

Lemma mbind_blocks {A B} (m : M A) (k : A -> M B) (s s' : Client * World) :
  m s = (Blocks, s') -> mbind m k s = (Blocks, s').
Proof. intro H. unfold mbind. now rewrite H. Qed.

Section Handshake.
Variable ast_literal_eval : pystr -> result PyVal.
Variable builtin_str : PyVal -> pystr.

(** X6: a client without streams does nothing: the initialisation
    request, the notification, [call_tool], [initialize] without a
    transport and [list_tools] each raise [RuntimeError] and leave
    the client and the streams as they were; no request is sent and
    no request identifier is used. *)
Theorem unready_client_sends_nothing
        (s : Client * World) (tool_name : pystr) (params : pydict) :
  streams (fst s) = false ->
  _send_initialize_request s = (Raises no_streams, s) /\
  _send_initialized_notification s = (Raises no_streams, s) /\
  call_tool ast_literal_eval builtin_str tool_name params s = (Raises no_streams, s) /\
  initialize ast_literal_eval builtin_str None s = (Raises no_streams, s) /\
  list_tools ast_literal_eval builtin_str s
  = (Raises (RuntimeError (u "Client not initialized")), s).
Proof.
  intro H.
  unfold initialize, _send_initialize_request, _send_initialized_notification,
    call_tool, list_tools, mbind, get_self, raise, ret. cbn [fst snd].
  rewrite H. cbn [negb orb]. repeat split.
Qed.

Lemma send_initialized_notification_streams (s : Client * World) :
  streams (fst s) = true ->
  fst (_send_initialized_notification s) = Returns tt /\
  fst (snd (_send_initialized_notification s)) = fst s /\
  inbox (snd (snd (_send_initialized_notification s))) = inbox (snd s) /\
  sent_ids (snd (snd (_send_initialized_notification s))) = sent_ids (snd s).
Proof.
  intro H. unfold _send_initialized_notification, mbind, get_self, mtry, send, sent_ids.
  cbn [fst snd]. rewrite H. cbn [negb].
  destruct (send_faults (snd s)) as [|[e|] f]; cbn [fst snd outbox inbox];
    rewrite ?flat_map_app; cbn [flat_map msg_id]; rewrite ?app_nil_r; now repeat split.
Qed.

Lemma parse_tools_list_settles (response : PyVal) :
  settles (parse_tools_list ast_literal_eval builtin_str response).
Proof. unfold parse_tools_list, set_available_tools. settle. Qed.

(** [list_tools] up to the parsing of a reply that is data. *)
Lemma list_tools_run (s : Client * World) (v : PyVal) (i : list inbound) :
  streams (fst s) = true -> initialized (fst s) = true ->
  hd None (send_faults (snd s)) = None ->
  inbox (snd s) = Deliver v :: i ->
  is_exception v = false ->
  list_tools ast_literal_eval builtin_str s
  = (Returns v,
     snd (mtry (parse_tools_list ast_literal_eval builtin_str v) (fun _ => ret tt)
               (snd (_get_next_request_id (fst s)),
                {| inbox := i; send_faults := tl (send_faults (snd s));
                   outbox := outbox (snd s)
                     ++ [{| msg_id := Some (fst (_get_next_request_id (fst s)));
                            msg_method := u "tools/list";
                            msg_params := Some (PyDict []) |}];
                   decoded := decoded (snd s) |}))).
Proof.
  intros Hs Hi Hf Hb Ev. unfold list_tools.
  unfold mbind at 1. unfold get_self. cbn [fst snd]. rewrite Hs, Hi. cbn [negb orb].
  unfold mbind at 1. unfold next_request_id. cbn [fst snd _get_next_request_id].
  destruct (extract_jsonrpc_whole ast_literal_eval v) as [x Hx].
  unfold mtry at 1. unfold mbind at 1. unfold send. cbn [fst snd].
  set (rest := fun st : Client * World =>
         mtry (parse_tools_list ast_literal_eval builtin_str v) (fun _ => ret tt) st).
  assert (R : forall st, exists s2, rest st = (Returns tt, s2)).
  { intro st. unfold rest.
    pose proof (settles_try _ _ (parse_tools_list_settles v)
                            (fun _ => settles_ret tt) st) as N.
    unfold mtry in *.
    destruct (parse_tools_list _ _ _ _) as [[[]|e'|] s3]; cbn [fst] in *;
      [eexists; reflexivity | eexists; reflexivity | contradiction]. }
  destruct (send_faults (snd s)) as [|[e|] f]; [|discriminate|];
    cbn [tl]; unfold mbind at 1; unfold mtry at 1; unfold mbind at 1;
    unfold receive_within_timeout; cbn [fst snd inbox]; rewrite Hb;
    unfold mbind at 1; cbn [fst snd with_inbox inbox send_faults outbox decoded];
    rewrite Hx; cbn [lift ret]; rewrite Ev; unfold mbind;
    unfold with_inbox; cbn [_request_id inbox send_faults outbox decoded];
    match goal with
    | |- context [mtry _ _ ?st] => fold (rest st); destruct (R st) as [s2 E]
    end; rewrite !E; reflexivity.
Qed.

(** [list_tools] without a reply that is data. *)
Lemma list_tools_no_reply (s : Client * World) :
  streams (fst s) = true -> initialized (fst s) = true ->
  data_reply (snd s) = None ->
  exists w1,
    list_tools ast_literal_eval builtin_str s
    = (Returns PyNone, (snd (_get_next_request_id (fst s)), w1)).
Proof.
  intros Hs Hi Hd. unfold data_reply in Hd. unfold list_tools.
  unfold mbind at 1. unfold get_self. cbn [fst snd]. rewrite Hs, Hi. cbn [negb orb].
  unfold mbind at 1. unfold next_request_id. cbn [fst snd _get_next_request_id].
  unfold mtry at 1. unfold mbind at 1. unfold send. cbn [fst snd].
  destruct (send_faults (snd s)) as [|[e|] f]; cbn [hd] in Hd;
    try (eexists; reflexivity);
    (unfold mbind at 1; unfold mtry at 1; unfold mbind at 1;
     unfold receive_within_timeout; cbn [fst snd inbox];
     destruct (inbox (snd s)) as [|[v|e|] i]; try (eexists; reflexivity);
     destruct (is_exception v) eqn:Ev; [|discriminate];
     destruct (extract_jsonrpc_whole ast_literal_eval v) as [x Hx];
     unfold mbind at 1; rewrite Hx; cbn [lift ret]; rewrite Ev;
     eexists; reflexivity).
Qed.

Lemma data_reply_some (w : World) (v : PyVal) :
  data_reply w = Some v ->
  hd None (send_faults w) = None /\
  (exists i, inbox w = Deliver v :: i) /\ is_exception v = false.
Proof.
  unfold data_reply. destruct (hd None (send_faults w)); [discriminate|].
  destruct (inbox w) as [|[x|e|] i]; try discriminate.
  destruct (is_exception x) eqn:E; [discriminate|].
  intro H. injection H as <-. repeat split; [now exists i | exact E].
Qed.

Lemma parse_tools_list_tools (v : PyVal) (st : Client * World) :
  available_tools
    (fst (snd (mtry (parse_tools_list ast_literal_eval builtin_str v)
                    (fun _ => ret tt) st)))
  = tools_of_reply ast_literal_eval builtin_str v.
Proof.
  unfold tools_of_reply, mtry, parse_tools_list, set_available_tools.
  unfold mbind, get_self, set_self.
  cbn [fst snd available_tools].
  destruct (startswith _ _); cbn [ret fst snd available_tools truthy]; [|reflexivity].
  destruct (extract_jsonrpc _ _ _) as [tools|e]; cbn [lift ret raise fst snd];
    [|reflexivity].
  destruct (truthy tools) eqn:T; cbn [ret fst snd available_tools truthy];
    [rewrite ?T|reflexivity].
  destruct (py_iter tools) as [items|e]; cbn [lift ret raise fst snd]; [|reflexivity].
  destruct (print_tools items); reflexivity.
Qed.

(** Where [list_tools] leaves an initialized client. *)
Lemma list_tools_state (s : Client * World) :
  streams (fst s) = true -> initialized (fst s) = true ->
  (exists v, fst (list_tools ast_literal_eval builtin_str s) = Returns v) /\
  _request_id (fst (snd (list_tools ast_literal_eval builtin_str s)))
  = (_request_id (fst s) + 1)%Z /\
  streams (fst (snd (list_tools ast_literal_eval builtin_str s))) = true /\
  initialized (fst (snd (list_tools ast_literal_eval builtin_str s))) = true.
Proof.
  intros Hs Hi. destruct (data_reply (snd s)) as [v|] eqn:D.
  - apply data_reply_some in D as (Hf & [i Hb] & Ev).
    rewrite (list_tools_run s v i Hs Hi Hf Hb Ev). cbn [fst snd].
    match goal with
    | |- context [mtry ?m ?h ?st] =>
        destruct (steady_try _ same_but_tools_trans m h
                    (parse_tools_list_steady ast_literal_eval builtin_str v)
                    (fun _ => steady_ret _ same_but_tools_refl tt) st)
          as (_ & H1 & H2 & H3)
    end.
    cbn [fst snd _get_next_request_id streams initialized _request_id] in *.
    rewrite H1, H2, H3. split; [now exists v | auto].
  - destruct (list_tools_no_reply s Hs Hi D) as [w1 ->]. cbn [fst snd].
    split; [now exists PyNone | auto].
Qed.



Lemma send_initialize_request_returns (s s1 : Client * World) (v : PyVal) :
  _send_initialize_request s = (Returns v, s1) ->
  streams (fst s) = true /\ is_exception v = false /\
  streams (fst s1) = true /\ initialized (fst s1) = true /\
  _request_id (fst s1) = (_request_id (fst s) + 1)%Z /\
  available_tools (fst s1) = available_tools (fst s).
Proof.
  unfold _send_initialize_request, set_initialized.
  unfold mbind, get_self, set_self, next_request_id, send, receive, raise, ret.
  cbn [fst snd _get_next_request_id].
  destruct (streams (fst s)) eqn:Hs; cbn [negb]; [|discriminate].
  destruct (send_faults (snd s)) as [|[e|] f]; try discriminate;
    cbn [fst snd inbox];
    destruct (receive_from (inbox (snd s))) as [[x|e|] i]; try discriminate;
    (destruct (is_exception x) eqn:Ex; [discriminate|]);
    cbn [fst snd]; intro H; injection H as <- <-; cbn [fst streams initialized
      _request_id available_tools]; repeat split; assumption.
Qed.

(** X9: [initialize] returns, raises or waits exactly as its
    initialisation request does: neither the notification nor the
    listing of the tools that follow changes the outcome.  Where it
    returns, the client is initialized and has used two request
    identifiers. *)
Theorem initialize_outcome (transport : option bool) (s : Client * World) :
  let connect := match transport with
                 | Some transport_streams => set_streams transport_streams
                 | None => ret tt
                 end in
  fst (initialize ast_literal_eval builtin_str transport s)
  = fst ((connect ;;; _send_initialize_request) s) /\
  forall v, fst (initialize ast_literal_eval builtin_str transport s) = Returns v ->
    initialized (fst (snd (initialize ast_literal_eval builtin_str transport s))) = true /\
    _request_id (fst (snd (initialize ast_literal_eval builtin_str transport s)))
    = (_request_id (fst s) + 2)%Z.
Proof.
  intro connect. unfold initialize. fold connect.
  assert (C : exists s0, connect s = (Returns tt, s0) /\
                         _request_id (fst s0) = _request_id (fst s)).
  { unfold connect. destruct transport; eexists; split; reflexivity. }
  destruct C as (s0 & C & C0).
  rewrite !(mbind_returns _ _ _ _ _ C).
  destruct (_send_initialize_request s0) as [[v|e|] s1] eqn:E.
  - rewrite (mbind_returns _ _ _ _ _ E). cbn [fst].
    apply send_initialize_request_returns in E as (_ & _ & Hs & Hi & Hc & _).
    destruct (send_initialized_notification_streams s1 Hs) as (N & Nc & _).
    destruct (_send_initialized_notification s1) as [o s2] eqn:E2; cbn [fst snd] in *.
    subst o. rewrite (mbind_returns _ _ _ _ _ E2).
    rewrite <- Nc in Hs, Hi, Hc.
    destruct (list_tools_state s2 Hs Hi) as ([x L] & Lc & Ls & Li).
    unfold mbind, mtry.
    destruct (list_tools ast_literal_eval builtin_str s2) as [o s3]; cbn [fst snd] in *.
    rewrite L. cbn [ret fst snd]. split; [reflexivity|].
    intros _ _. split; [exact Li | lia].
  - rewrite (mbind_raises _ _ _ _ _ E). split; [reflexivity|discriminate].
  - rewrite (mbind_blocks _ _ _ _ E). split; [reflexivity|discriminate].
Qed.

(** X11: a call of a tool on a client that has its streams but is not
    initialized does what [initialize_with_streams] followed by the
    call does. *)
Theorem call_tool_initializes_first
        (tool_name : pystr) (params : pydict) (s : Client * World) :
  streams (fst s) = true -> initialized (fst s) = false ->
  call_tool ast_literal_eval builtin_str tool_name params s
  = (initialize_with_streams ;;;
     call_tool ast_literal_eval builtin_str tool_name params) s.
Proof.
  intros Hs Hi. unfold initialize_with_streams.
  assert (S : set_streams true s = (Returns tt, s)).
  { destruct s as [[st rid ini tools] w]. cbn in Hs. subst st. reflexivity. }
  assert (U : forall st,
    streams (fst st) = true ->
    call_tool ast_literal_eval builtin_str tool_name params st
    = ((if negb (initialized (fst st))
        then _send_initialize_request ;;; _send_initialized_notification
        else ret tt) ;;;
       request_id <<- next_request_id ;;
       send {| msg_id := Some request_id; msg_method := u "tools/call";
               msg_params := Some (PyDict [(PyStr (u "name"), PyStr tool_name);
                                           (PyStr (u "arguments"), PyDict params)]) |} ;;;
       response <<- receive ;;
       call_tool_reply ast_literal_eval builtin_str response) st).
  { intros st H. unfold call_tool. unfold mbind at 1. unfold get_self. cbn [fst snd].
    now rewrite H. }
  rewrite (U s Hs), Hi. cbn [negb].
  destruct ((_send_initialize_request ;;; _send_initialized_notification) s)
    as [[[]|e|] s2] eqn:E.
  - assert (E' : (set_streams true ;;;
                  _send_initialize_request ;;; _send_initialized_notification) s
                 = (Returns tt, s2))
      by (now rewrite (mbind_returns _ _ _ _ _ S)).
    rewrite (mbind_returns _ _ _ _ _ E), (mbind_returns _ _ _ _ _ E').
    assert (H2 : streams (fst s2) = true /\ initialized (fst s2) = true).
    { unfold mbind in E.
      destruct (_send_initialize_request s) as [[v|e|] s1] eqn:E1; try discriminate.
      apply send_initialize_request_returns in E1 as (_ & _ & Hs1 & Hi1 & _).
      destruct (send_initialized_notification_streams s1 Hs1) as (_ & Nc & _).
      rewrite E in Nc. cbn [snd fst] in Nc. now rewrite Nc. }
    destruct H2 as [Hs2 Hi2].
    rewrite (U s2 Hs2), Hi2. cbn [negb].
    now rewrite (mbind_returns (ret tt) _ s2 s2 tt eq_refl).
  - assert (E' : (set_streams true ;;;
                  _send_initialize_request ;;; _send_initialized_notification) s
                 = (Raises e, s2))
      by (now rewrite (mbind_returns _ _ _ _ _ S)).
    now rewrite (mbind_raises _ _ _ _ _ E), (mbind_raises _ _ _ _ _ E').
  - assert (E' : (set_streams true ;;;
                  _send_initialize_request ;;; _send_initialized_notification) s
                 = (Blocks, s2))
      by (now rewrite (mbind_returns _ _ _ _ _ S)).
    now rewrite (mbind_blocks _ _ _ _ E), (mbind_blocks _ _ _ _ E').
Qed.

End Handshake.

(** ** What [call_tool] returns *)

Section CallToolFacts.
Variable ast_literal_eval : pystr -> result PyVal.
Variable builtin_str : PyVal -> pystr.

Lemma call_tool_run (tool_name : pystr) (params : pydict) (s : Client * World)
      (v : PyVal) (later : list inbound) :
  streams (fst s) = true -> initialized (fst s) = true ->
  hd None (send_faults (snd s)) = None ->
  receive_from (inbox (snd s)) = (Returns v, later) ->
  call_tool ast_literal_eval builtin_str tool_name params s
  = call_tool_reply ast_literal_eval builtin_str v
      (after_request tool_name params s later).
Proof.
  intros Hs Hi Hf Hr. unfold call_tool, after_request.
  unfold mbind at 1. unfold get_self. cbn [fst snd]. rewrite Hs, Hi. cbn [negb].
  unfold mbind at 1. cbn [ret].
  unfold mbind at 1. unfold next_request_id. cbn [fst snd _get_next_request_id].
  unfold mbind at 1. unfold send. cbn [fst snd].
  destruct (send_faults (snd s)) as [|[e|] f]; [|discriminate|];
    unfold mbind at 1; unfold receive; cbn [fst snd inbox]; rewrite Hr;
    unfold with_inbox; cbn [inbox send_faults outbox decoded tl _request_id];
    reflexivity.
Qed.

Lemma first_match_objects (items : list ContentItem) :
  first_match text_of_typed_object (List.map item_object items)
  = Ok (option_map PyStr (first_typed_text items)).
Proof.
  induction items as [|[t|d] items IH]; [reflexivity|..];
    cbn [List.map item_object first_match first_typed_text].
  - unfold text_of_typed_object, hasattr, getattr, getattr_opt.
    spell. cbn [attr_lookup pystr_eqb N.eqb Pos.eqb andb bind eq_str].
    destruct (pystr_eqb (tc_type t) _); [reflexivity|].
    cbn [bind]. exact IH.
  - unfold text_of_typed_object, hasattr, getattr_opt at 1. cbn [bind]. exact IH.
Qed.

Lemma call_tool_reply_native (r : ToolCallResult) (st : Client * World) :
  fst (call_tool_reply ast_literal_eval builtin_str (native_reply r) st)
  = Returns match first_typed_text (content r) with
            | Some text => PyStr text
            | None => PyList (List.map item_object (content r))
            end.
Proof.
  unfold call_tool_reply, native_reply. cbn [is_exception call_tool_root].
  rewrite (mbind_returns (ret None) _ st st None eq_refl).
  unfold call_tool_object. cbn [py_str is_str negb].
  unfold mtry, mbind, decoding. cbn [fst snd].
  spell. cbn [startswith andb ret fst snd].
  unfold hasattr, getattr, getattr_opt.
  cbn [attr_lookup pystr_eqb N.eqb Pos.eqb andb bind lift ret fst snd py_iter].
  rewrite first_match_objects. cbn [bind].
  destruct (first_typed_text (content r)); reflexivity.
Qed.

Lemma call_tool_reply_plain (st : styling) (t : TextContent) ts e m
      (s : Client * World) :
  forallb plain_content (t :: ts) = true -> plain_message m = true ->
  fst (call_tool_reply ast_literal_eval builtin_str
         (PyStr (prefixed_string st (text_result (t :: ts) e m))) s)
  = Returns (PyStr (tc_text t)).
Proof.
  intros Hts Hm. unfold call_tool_reply. cbn [is_exception].
  unfold call_tool_root. rewrite prefixed_string_is_prefixed.
  unfold mbind at 2. unfold decoding at 1. cbn [fst snd].
  rewrite (extract_jsonrpc_plain ast_literal_eval st (t :: ts) e m Hts Hm).
  unfold dump, text_result. cbn [content List.map item_dict].
  unfold mbind. spell.
  cbn [lift ret truthy contains_str getitem_str dict_lookup lookup_by eq_str
       pystr_eqb N.eqb Pos.eqb andb bind is_list py_len length Nat.ltb Nat.leb
       getitem_0 is_dict slice_50 fst snd].
  reflexivity.
Qed.




Lemma bare_value_r (t : pystr) : bare_value (114 :: t) = None.
Proof.
  unfold bare_value, number_value. spell.
  cbn [pystr_eqb N.eqb Pos.eqb andb strip_sign span is_digit N.leb N.compare
       Pos.compare Pos.compare_cont]. reflexivity.
Qed.

(** No JSON text begins with the letter r. *)
Lemma json_loads_r (t : pystr) : json_loads (114 :: t) = None.
Proof.
  unfold json_loads. cbn [fold_left].
  change (jstep (JS (JValue false) []) 114) with (JS (JBare [114]) []).
  assert (G : forall (t : pystr) acc,
             (exists a, rev acc = 114 :: a) ->
             jfinish (fold_left jstep t (JS (JBare acc) [])) = None).
  { clear t. intro t. induction t as [|c t IH]; intros acc [a Ha].
    - cbn [fold_left jfinish]. rewrite Ha. apply bare_value_r.
    - cbn [fold_left]. unfold jstep at 2. cbn [jmode_of jstack].
      destruct (_ || _).
      + rewrite Ha, bare_value_r.
        clear. induction t as [|c t IH]; [reflexivity|exact IH].
      + apply IH. exists (a ++ [c]). cbn [rev]. now rewrite Ha. }
  apply G. now exists [].
Qed.

Lemma json_loads_prefixed (s : pystr) :
  startswith (u "root=") s = true -> json_loads s = None.
Proof.
  intro H. apply startswith_inv in H as [t ->]. apply json_loads_r.
Qed.


Lemma call_tool_object_settles (response : PyVal) :
  settles (call_tool_object ast_literal_eval builtin_str response).
Proof. unfold call_tool_object. settle. Qed.


Lemma decode_plain_text (t : pystr) :
  plain_text t = true ->
  parse_tool_response ast_literal_eval (PyStr t) = Ok unrecognized.
Proof.
  intro H.
  rewrite parse_tool_response_unparsed.
  - unfold text_regex.
    rewrite <- (app_nil_r t), re_text_skip by (now apply plain_no_quote).
    reflexivity.
  - apply extract_jsonrpc_nothing. intros s E. injection E as <-. right.
    intros a b c ->. apply plain_no_brace in H.
    rewrite !no_brace_app in H. spell_in H. cbn in H.
    now rewrite !andb_false_r in H.
Qed.

End CallToolFacts.

(** ** [call_any_tool] and the arguments of [main] *)

Section CallAnyToolFacts.
Variable ast_literal_eval : pystr -> result PyVal.
Variable builtin_str : PyVal -> pystr.

Lemma parse_tool_response_total (response : PyVal) :
  exists t, parse_tool_response ast_literal_eval response = Ok t.
Proof.
  unfold parse_tool_response, try_except.
  destruct (parse_tool_response_body ast_literal_eval response) as [t|e];
    [now exists t|].
  unfold parse_tool_response_handler.
  destruct response; eauto. destruct (text_regex s); eauto.
Qed.

Lemma call_any_tool_run (tool_name : pystr) (arguments : pydict) (s : Client * World) :
  has_required_parameter tool_name arguments = true ->
  call_any_tool ast_literal_eval builtin_str tool_name (Some arguments) s
  = mtry (raw_response <<- call_tool ast_literal_eval builtin_str tool_name arguments ;;
          parsed <<- lift (parse_tool_response ast_literal_eval raw_response) ;;
          ret (fst (fst parsed)))
         (fun _ => ret PyNone) s.
Proof.
  unfold has_required_parameter, call_any_tool.
  destruct (mapping_get _ _); [|reflexivity]. now intros ->.
Qed.

(** X21: [call_any_tool] never raises.  Without the parameter its
    tool needs it returns [None] at once: nothing is sent, no request
    identifier is used.  With it, it leaves the state [call_tool]
    leaves, and returns the value [parse_tool_response] makes of what
    [call_tool] returned, and [None] where [call_tool] raised. *)
Theorem call_any_tool_outcome
        (tool_name : pystr) (arguments : pydict) (s : Client * World) :
  let called := call_tool ast_literal_eval builtin_str tool_name arguments s in
  let done := call_any_tool ast_literal_eval builtin_str tool_name (Some arguments) s in
  if has_required_parameter tool_name arguments then
    snd done = snd called /\
    match fst called with
    | Returns raw_response =>
        exists value is_error error_message,
          parse_tool_response ast_literal_eval raw_response
          = Ok (value, is_error, error_message) /\
          fst done = Returns value
    | Raises _ => fst done = Returns PyNone
    | Blocks => fst done = Blocks
    end
  else done = (Returns PyNone, s).
Proof.
  intros called done.
  destruct (has_required_parameter tool_name arguments) eqn:H.
  - unfold done. rewrite (call_any_tool_run _ _ _ H).
    unfold mtry, mbind. fold called.
    destruct called as [[raw|e|] s1]; cbn [fst snd]; [|now split..].
    destruct (parse_tool_response_total raw) as [[[value is_error] message] E].
    rewrite E. cbn [lift ret fst snd]. split; [reflexivity|].
    now exists value, is_error, message.
  - unfold done, call_any_tool. unfold has_required_parameter in H.
    destruct (mapping_get _ _); [|discriminate]. now rewrite H.
Qed.


End CallAnyToolFacts.

Lemma pystr_eqb_refl (s : pystr) : pystr_eqb s s = true.
Proof. induction s as [|c s IH]; [reflexivity|]. cbn. now rewrite N.eqb_refl. Qed.

(** X23: an argument text that is no JSON is, for a tool with a string
    parameter, put under that parameter's name, and this passes the
    check of [call_any_tool] unless the text is empty; for every
    other tool, and for no tool, the arguments are refused. *)
Theorem tool_args_of_simple_argument (tool : option pystr) (args : pystr) :
  json_loads args = None ->
  match tool with
  | Some name =>
      match mapping_get TOOL_STRING_PARAM_MAPPING name with
      | Some param_name =>
          tool_args_of tool args = Some (PyDict [(PyStr param_name, PyStr args)]) /\
          has_required_parameter name [(PyStr param_name, PyStr args)]
          = match args with [] => false | _ => true end
      | None => tool_args_of tool args = None
      end
  | None => tool_args_of tool args = None
  end.
Proof.
  intro H. unfold tool_args_of, has_required_parameter. rewrite H.
  destruct tool as [name|]; [|reflexivity].
  destruct (mapping_get _ name) as [param_name|]; [|reflexivity].
  split; [reflexivity|].
  cbn [dict_lookup lookup_by eq_str]. now rewrite pystr_eqb_refl.
Qed.

(** ** Numerals as JSON *)

Lemma is_digit_range (c : N) : is_digit c = true -> 48 <= c <= 57.
Proof.
  unfold is_digit. intro H. apply andb_prop in H as [H1 H2].
  apply N.leb_le in H1, H2. lia.
Qed.

Lemma digit_not (c k : N) : is_digit c = true -> is_digit k = false -> (c =? k) = false.
Proof.
  intros Hc Hk. destruct (c =? k) eqn:E; [|reflexivity].
  apply N.eqb_eq in E. congruence.
Qed.

(** Settles the comparisons of a digit with what is none. *)
Ltac not_digit :=
  repeat match goal with
         | H : is_digit ?c = true |- context [?c =? ?k] =>
             rewrite (digit_not c k H eq_refl)
         end.

(** Inside a bare token the reader takes digits as they come. *)
Lemma jstep_digits (ds acc : pystr) :
  forallb is_digit ds = true ->
  fold_left jstep ds (JS (JBare acc) []) = JS (JBare (rev ds ++ acc)) [].
Proof.
  revert acc. induction ds as [|c ds IH]; intros acc H; [reflexivity|].
  cbn [forallb] in H. apply andb_prop in H as [Hc H].
  cbn [fold_left]. unfold jstep at 2. cbn [jmode_of jstack].
  unfold is_json_ws. not_digit. cbn [orb].
  rewrite IH by assumption. cbn [rev]. now rewrite <- app_assoc.
Qed.

Lemma span_digits (ds : pystr) :
  forallb is_digit ds = true -> span is_digit ds = (ds, []).
Proof.
  induction ds as [|c ds IH]; intro H; [reflexivity|].
  cbn [forallb] in H. apply andb_prop in H as [Hc H].
  cbn [span]. now rewrite Hc, IH.
Qed.

Lemma nat_of_digits_value (ds : pystr) (acc : N) :
  forallb is_digit ds = true ->
  nat_of_digits acc ds = Some (digits_value acc ds).
Proof.
  revert acc. induction ds as [|c ds IH]; intros acc H; [reflexivity|].
  cbn [forallb] in H. apply andb_prop in H as [Hc H].
  cbn [nat_of_digits digits_value]. rewrite Hc. now apply IH.
Qed.

Lemma number_value_digits (neg : bool) (ds : pystr) :
  ds <> [] -> forallb is_digit ds = true -> no_leading_zero ds = true ->
  number_value ((if neg then [45] else []) ++ ds)
  = Some (PyInt (signed neg (digits_value 0 ds))).
Proof.
  intros Hne Hd Hz. unfold number_value.
  assert (S : strip_sign 45 ((if neg then [45] else []) ++ ds) = (neg, ds)).
  { destruct neg; [reflexivity|]. destruct ds as [|c ds]; [contradiction|].
    cbn [app strip_sign forallb] in *. apply andb_prop in Hd as [Hc _].
    now rewrite (digit_not c 45 Hc eq_refl). }
  rewrite S, (span_digits ds Hd).
  destruct ds as [|c [|c' ds]]; [contradiction|reflexivity|].
  cbn [no_leading_zero] in Hz. apply negb_true_iff in Hz. now rewrite Hz.
Qed.

Lemma bare_value_digits (neg : bool) (ds : pystr) :
  ds <> [] -> forallb is_digit ds = true -> no_leading_zero ds = true ->
  bare_value ((if neg then [45] else []) ++ ds)
  = Some (PyInt (signed neg (digits_value 0 ds))).
Proof.
  intros Hne Hd Hz. unfold bare_value.
  rewrite number_value_digits by assumption.
  destruct ds as [|c ds]; [contradiction|].
  cbn [forallb] in Hd. apply andb_prop in Hd as [Hc _].
  destruct neg; cbn [app]; spell; cbn [pystr_eqb]; not_digit;
    cbn [N.eqb Pos.eqb andb]; reflexivity.
Qed.

Lemma json_loads_digits (neg : bool) (ds : pystr) :
  ds <> [] -> forallb is_digit ds = true -> no_leading_zero ds = true ->
  json_loads ((if neg then [45] else []) ++ ds)
  = Some (PyInt (signed neg (digits_value 0 ds))).
Proof.
  intros Hne Hd Hz. unfold json_loads.
  assert (F : fold_left jstep ((if neg then [45] else []) ++ ds) (JS (JValue false) [])
              = JS (JBare (rev ((if neg then [45] else []) ++ ds))) []).
  { destruct neg; cbn [app fold_left].
    - change (jstep (JS (JValue false) []) 45) with (JS (JBare [45]) []).
      rewrite jstep_digits by assumption. reflexivity.
    - destruct ds as [|c ds]; [contradiction|].
      cbn [forallb] in Hd. apply andb_prop in Hd as [Hc Hd].
      cbn [fold_left]. unfold jstep at 2. cbn [jmode_of jstack].
      unfold is_json_ws. not_digit. cbn [orb].
      rewrite jstep_digits by assumption. reflexivity. }
  rewrite F. cbn [jfinish]. rewrite rev_involutive.
  now apply bare_value_digits.
Qed.

Lemma digits_of_uint_digits (d : Decimal.uint) : forallb is_digit (digits_of_uint d) = true.
Proof. induction d; cbn [digits_of_uint forallb]; try reflexivity; exact IHd. Qed.

Lemma nzhead_shorter (d : Decimal.uint) :
  Decimal.nzhead (D0 d) <> D0 d.
Proof.
  intro H. pose proof (DecimalFacts.nb_digits_nzhead d) as L.
  cbn [Decimal.nzhead] in H. rewrite H in L. cbn [Decimal.nb_digits] in L. lia.
Qed.

Lemma to_uint_no_leading_zero (p : positive) :
  no_leading_zero (digits_of_uint (Pos.to_uint p)) = true.
Proof.
  pose proof (DecimalPos.Unsigned.to_of (Pos.to_uint p)) as H.
  rewrite DecimalPos.Unsigned.of_to in H. cbn [N.to_uint] in H.
  pose proof (DecimalPos.Unsigned.to_uint_nonzero p) as Z.
  unfold Decimal.unorm in H.
  destruct (Pos.to_uint p) as [|d|d|d|d|d|d|d|d|d|d] eqn:E;
    try (cbn [digits_of_uint]; destruct (digits_of_uint d); reflexivity);
    [reflexivity|].
  exfalso. destruct (Decimal.nzhead (D0 d)) eqn:Hn;
    try (rewrite <- Hn in H; now apply (nzhead_shorter d)).
  exact (Z H).
Qed.

(** The decimal numeral of an integer is the JSON text of that
    integer. *)
Lemma json_loads_str_of_int (z : Z) : json_loads (str_of_int z) = Some (PyInt z).
Proof.
  assert (P : forall (p : positive) (neg : bool),
    json_loads ((if neg then [45] else []) ++ digits_of_uint (Pos.to_uint p))
    = Some (PyInt (signed neg (N.pos p)))).
  { intros p neg. rewrite json_loads_digits.
    - pose proof (nat_of_digits_value _ 0 (digits_of_uint_digits (Pos.to_uint p))) as V.
      rewrite nat_of_digits_of_uint, DecimalPos.Unsigned.of_to in V.
      injection V as <-. reflexivity.
    - destruct (digits_of_uint_head _ (DecimalPos.Unsigned.to_uint_nonnil p))
        as (c & s & E & _). rewrite E. discriminate.
    - apply digits_of_uint_digits.
    - apply to_uint_no_leading_zero. }
  destruct z as [|p|p]; [reflexivity | exact (P p false) | exact (P p true)].
Qed.


(** ** What the patterns match *)

(** What a repetition hands on: it has read a run of characters of
    its class and put them into the open group. *)
Lemma star_inv (R : Type) greedy k (cont : mstate -> option R) g s o x :
  star greedy k cont g s o = Some x ->
  exists b t, s = b ++ t /\ forallb (in_class k) b = true /\
              cont (MState t (option_map (app (rev b)) o) g) = Some x.
Proof.
  revert o. induction s as [|c s IH]; intros o H.
  - exists [], []. repeat split. cbn [star] in H. now destruct o.
  - cbn [star] in H.
    assert (Here : cont (MState (c :: s) o g) = Some x ->
                   exists b t, c :: s = b ++ t /\ forallb (in_class k) b = true /\
                               cont (MState t (option_map (app (rev b)) o) g) = Some x).
    { intro Hx. exists [], (c :: s). repeat split. now destruct o. }
    destruct (in_class k c) eqn:Hc; [|now apply Here].
    assert (Step : star greedy k cont g s (option_map (cons c) o) = Some x ->
                   exists b t, c :: s = b ++ t /\ forallb (in_class k) b = true /\
                               cont (MState t (option_map (app (rev b)) o) g) = Some x).
    { intro Hx. apply IH in Hx as (b & t & -> & Hb & Hx).
      exists (c :: b), t. cbn [forallb app]. rewrite Hc, Hb. repeat split.
      destruct o; cbn [option_map rev] in *; [now rewrite <- app_assoc | exact Hx]. }
    destruct greedy.
    + destruct (star true k cont g s (option_map (cons c) o)) eqn:E.
      * injection H as ->. now apply Step.
      * now apply Here.
    + destruct (cont (MState (c :: s) o g)) eqn:E.
      * injection H as ->. now apply Here.
      * now apply Step.
Qed.

(** A match of [re_text] lies on a labelled field, and its group is
    the field's value up to the next single quote. *)
Lemma match_at_re_text (s : pystr) (m : rematch) :
  match_at re_text s = Some m ->
  exists sp v b,
    s = u "'text':" ++ sp ++ 39 :: v ++ 39 :: b /\
    forallb is_space sp = true /\ v <> [] /\ no_quote v = true /\
    m = ReMatch (Some v).
Proof.
  unfold match_at, re_text. cbn [rmatch]. intro H.
  apply rmatch_word_some in H as (t1 & E1 & H). cbn [rest opened group1 option_map] in *.
  apply star_inv in H as (sp & t2 & -> & Hsp & H). cbn [option_map rest] in H.
  destruct t2 as [|q t2]; [discriminate|]. cbn [in_class] in H.
  destruct (q =? 39) eqn:Eq; [|discriminate]. apply N.eqb_eq in Eq. subst q.
  unfold Plus in H. cbn [rmatch read rest opened group1 option_map] in H.
  destruct t2 as [|c t2]; [discriminate|]. cbn [in_class] in H.
  destruct (negb (c =? 39)) eqn:Hc; [|discriminate].
  apply star_inv in H as (v & t3 & -> & Hv & H).
  cbn [option_map rest opened group1] in H.
  destruct t3 as [|q t3]; [discriminate|]. cbn [in_class] in H.
  destruct (q =? 39) eqn:Eq; [|discriminate]. apply N.eqb_eq in Eq. subst q.
  injection H as <-. cbn [read group1].
  exists sp, (c :: v), t3. subst s. repeat split.
  - exact Hsp.
  - discriminate.
  - unfold no_quote. cbn [forallb]. rewrite Hc. exact Hv.
  - now rewrite rev_app_distr, rev_involutive.
Qed.

(** X3: what the last-resort pattern of [parse_tool_response] yields
    is always the value of a field labelled ['text':] in the string,
    between single quotes: a text that is not empty and holds no
    single quote, reported as a success. *)
Theorem text_regex_sound (response : pystr) (t : triple) :
  text_regex response = Some t ->
  exists before sp v after,
    response = before ++ u "'text':" ++ sp ++ u "'" ++ v ++ u "'" ++ after /\
    forallb is_space sp = true /\ v <> [] /\ no_quote v = true /\
    t = (PyStr v, false, PyNone).
Proof.
  unfold text_regex. destruct (re_search re_text response) as [m|] eqn:E; [|discriminate].
  intro H. injection H as <-.
  apply re_search_some in E as (a & s & -> & E).
  apply match_at_re_text in E as (sp & v & b & -> & Hsp & Hne & Hv & ->).
  exists a, sp, v, b. repeat split; assumption.
Qed.

(** The fragment a match of the client's result patterns captures
    begins and ends with a brace. *)
Lemma match_at_braces (after : regex) (s : pystr) (m : rematch) :
  flat after = true ->
  match_at (Cat (word (u "result=")) (Cat (Group re_braces) after)) s = Some m ->
  exists b, group m = PyStr (123 :: b ++ [125]).
Proof.
  intros F H. unfold match_at in H. cbn [rmatch] in H.
  apply rmatch_word_some in H as (t1 & _ & H). cbn [rest opened group1 option_map] in H.
  unfold re_braces in H. cbn [rmatch rest] in H.
  destruct t1 as [|c1 t1]; [discriminate|]. cbn [in_class] in H.
  destruct (c1 =? 123) eqn:E1; [|discriminate]. apply N.eqb_eq in E1. subst c1.
  cbn [read rest opened group1 option_map] in H.
  apply star_inv in H as (b & t2 & -> & _ & H). cbn [option_map rest] in H.
  destruct t2 as [|c2 t2]; [discriminate|]. cbn [in_class] in H.
  destruct (c2 =? 125) eqn:E2; [|discriminate]. apply N.eqb_eq in E2. subst c2.
  cbn [read rest opened group1 option_map] in H.
  apply (rmatch_kept _ after F) in H as (st' & H & [_ Hg]).
  injection H as <-. unfold group. cbn [group_1]. rewrite Hg. cbn [group1 rev].
  exists b. now rewrite rev_app_distr, rev_involutive.
Qed.

(** ** Objects in JSON, and the fields of a result *)

Lemma rooted_push (f : jframe) (stk : list jframe) :
  rooted stk = true -> rooted (f :: stk) = true.
Proof. destruct stk; [discriminate|]. intro H. destruct f; exact H. Qed.

Lemma reads_object_deliver (v : PyVal) (stk : list jframe) :
  rooted stk = true -> reads_object (deliver v stk).
Proof.
  destruct stk as [|[elems|pairs [k|]] stk]; [discriminate|..]; intro H;
    cbn [deliver reads_object]; try exact I;
    destruct stk; try discriminate; try exact H; reflexivity.
Qed.

Lemma reads_object_after_value (stk : list jframe) (c : N) :
  rooted stk = true -> reads_object (after_value (JS JNext stk) c).
Proof.
  intro H. cbn [after_value].
  destruct (is_json_ws c); [exact H|].
  destruct (c =? 44).
  { destruct stk as [|[elems|pairs [k|]] stk]; try exact I; exact H. }
  destruct (c =? 93).
  { destruct stk as [|[elems|pairs k] stk]; try exact I.
    destruct stk as [|f stk]; [discriminate|].
    apply reads_object_deliver. destruct f; exact H. }
  destruct (c =? 125); [|exact I].
  destruct stk as [|[elems|pairs [k|]] stk]; try exact I.
  destruct stk as [|f stk]; [now split|].
  apply reads_object_deliver. exact H.
Qed.

Lemma reads_object_step (st : jstate) (c : N) :
  reads_object st -> reads_object (jstep st c).
Proof.
  destruct st as [mode stk]. unfold jstep. cbn [jmode_of jstack].
  destruct mode; cbn [reads_object]; intro H.
  - (* JValue *)
    destruct (is_json_ws c); [exact H|].
    destruct (c =? 34); [exact H|].
    destruct (c =? 123); [now apply rooted_push|].
    destruct (c =? 91); [now apply rooted_push|].
    destruct (c =? 93).
    { destruct close_ok; [now apply reads_object_after_value | exact I]. }
    destruct (_ || _); [exact I | exact H].
  - (* JKey *)
    destruct (is_json_ws c); [exact H|].
    destruct (c =? 34); [exact H|].
    destruct (c =? 125); [|exact I].
    destruct close_ok; [now apply reads_object_after_value | exact I].
  - (* JColon *)
    destruct (is_json_ws c); [exact H|].
    destruct (c =? 58); [|exact I].
    destruct stk as [|[elems|pairs [k|]] stk]; try exact I.
    cbn [reads_object]. destruct stk; [reflexivity | exact H].
  - (* JNext *) now apply reads_object_after_value.
  - (* JEnd *)
    destruct H as [-> Hv]. cbn [after_value].
    destruct (is_json_ws c); [now split | exact I].
  - (* JString *)
    destruct (c =? 34).
    { destruct is_key; [exact H | now apply reads_object_deliver]. }
    destruct (c =? 92); [exact H|].
    destruct (c <? 32); [exact I | exact H].
  - (* JEscape *)
    destruct (escape_char c); [exact H|].
    destruct (c =? 117); [exact H | exact I].
  - (* JHex *)
    destruct (hex_value c); [|exact I].
    destruct more; [|exact H].
    destruct acc; [exact H|]. destruct (_ && _); exact H.
  - (* JBare *)
    destruct (_ || _); [|exact H].
    destruct (bare_value (rev acc)); [|exact I].
    pose proof (reads_object_deliver p stk H) as D.
    destruct (deliver p stk) as [[] stk'] eqn:E; try exact I.
    + now apply reads_object_after_value.
    + destruct D as [-> Hv]. cbn [after_value].
      destruct (is_json_ws c); [now split | exact I].
  - exact I.
Qed.

Lemma reads_object_fold (t : pystr) (st : jstate) :
  reads_object st -> reads_object (fold_left jstep t st).
Proof.
  revert st. induction t as [|c t IH]; intros st H; [exact H|].
  cbn [fold_left]. apply IH. now apply reads_object_step.
Qed.

(** A JSON text that begins with a brace is an object. *)
Lemma json_loads_object (t : pystr) (v : PyVal) :
  json_loads (123 :: t) = Some v -> is_dict v = true.
Proof.
  unfold json_loads. cbn [fold_left].
  change (jstep (JS (JValue false) []) 123) with (JS (JKey true) [FObj [] None]).
  pose proof (reads_object_fold t (JS (JKey true) [FObj [] None]) eq_refl) as H.
  destruct (fold_left jstep t _) as [[] stk]; cbn [jfinish reads_object] in *;
    try discriminate; destruct stk; try discriminate.
  - destruct H as [_ H]. now intros [= <-].
Qed.

Lemma normalise_brace (t : pystr) : exists t', normalise (123 :: t) = 123 :: t'.
Proof.
  unfold normalise, str_replace. spell.
  cbn [replace_from startswith N.eqb Pos.eqb andb]. eexists. reflexivity.
Qed.

Section ExtractionFacts.
Variable ast_literal_eval : pystr -> result PyVal.

(** The fragment [extract_jsonrpc] goes on with. *)
Lemma fragment_braces (s : pystr) (m : rematch) :
  re_search re_result s = Some m ->
  exists b,
    match re_search re_full_result s with
    | Some full_result_match => group full_result_match
    | None => group m
    end = PyStr (123 :: b ++ [125]).
Proof.
  intro E. destruct (re_search re_full_result s) as [fm|] eqn:F.
  - apply re_search_some in F as (a & t & _ & F).
    apply (match_at_braces after_result t fm); [|exact F].
    unfold after_result. cbn [flat]. now rewrite flat_word.
  - apply re_search_some in E as (a & t & _ & E).
    apply (match_at_braces Eps t m); [reflexivity|].
    unfold match_at, re_result in *. cbn [rmatch] in *. exact E.
Qed.


(** X2: asked for a field, [extract_jsonrpc] gives the value under it
    where the result it extracts is a dictionary with that key; where
    the key is missing, or the name asked for is empty, it gives the
    whole result. *)
Theorem extract_jsonrpc_field (input : PyVal) (field_name : pystr) (d : pydict) :
  extract_jsonrpc ast_literal_eval input None = Ok (PyDict d) ->
  (forall v, field_name <> [] -> dict_lookup d field_name = Some v ->
     extract_jsonrpc ast_literal_eval input (Some field_name) = Ok v) /\
  (field_name = [] \/ dict_lookup d field_name = None ->
     extract_jsonrpc ast_literal_eval input (Some field_name) = Ok (PyDict d)).
Proof.
  intro H.
  assert (E : extract_jsonrpc ast_literal_eval input (Some field_name)
              = select_field (Some field_name) (PyDict d)).
  { unfold extract_jsonrpc in *. destruct input; try discriminate.
    destruct (_ || _); [discriminate|].
    destruct (re_search re_result s) as [m|]; [|discriminate].
    destruct (replace_receiver _) as [fragment|]; [|discriminate]. cbn [bind] in *.
    destruct (json_loads (normalise fragment)) as [v|].
    - cbn [select_field] in H. now injection H as ->.
    - unfold try_except in *.
      destruct (ast_literal_eval fragment) as [v|e]; cbn [bind] in *; [|discriminate].
      cbn [select_field] in H. injection H as ->.
      unfold select_field. destruct (truthy (PyStr field_name)); [|reflexivity].
      cbn [contains_str bind get_method]. now destruct (dict_lookup d field_name). }
  rewrite E. unfold select_field. cbn [contains_str bind get_method]. split.
  - intros v Hn Hv. destruct field_name; [contradiction|]. cbn [truthy]. now rewrite Hv.
  - intros [-> | Hn]; [reflexivity|]. rewrite Hn. now destruct (truthy _).
Qed.

End ExtractionFacts.

(** ** The triples of [parse_tool_response] and the initialisation *)

Section OutcomeFacts.
Variable ast_literal_eval : pystr -> result PyVal.
Variable builtin_str : PyVal -> pystr.

Lemma text_regex_success (s : pystr) (t : triple) :
  text_regex s = Some t -> snd (fst t) = false /\ snd t = PyNone.
Proof.
  unfold text_regex. destruct (re_search re_text s); [|discriminate].
  intros [= <-]. now split.
Qed.

Lemma first_text_success (item : PyVal) (t : triple) :
  first_text_of_dict_item item = Ok (Some t) -> snd (fst t) = false /\ snd t = PyNone.
Proof.
  unfold first_text_of_dict_item. destruct (is_dict item); [|discriminate].
  destruct (contains_str item _) as [[]|]; cbn [bind]; try discriminate.
  destruct (getitem_str item _); cbn [bind]; [|discriminate].
  intros [= <-]. now split.
Qed.

Lemma native_stage_success (response : PyVal) (t : triple) :
  native_stage response = Ok (Some t) -> snd (fst t) = false /\ snd t = PyNone.
Proof.
  unfold native_stage. destruct (hasattr response _); [|discriminate].
  destruct (getattr response _) as [result|]; cbn [bind]; [|discriminate].
  destruct (if hasattr result _ then _ else _) as [[]|]; cbn [bind]; try discriminate.
  - destruct (getattr result _) as [content|]; cbn [bind]; [|discriminate].
    destruct (first_item_of content) as [[first|]|]; cbn [bind]; try discriminate.
    destruct (hasattr first _); [|apply first_text_success].
    destruct (getattr first _); cbn [bind]; [|discriminate].
    intros [= <-]. now split.
  - destruct (is_dict result); [|discriminate].
    destruct (contains_str result _) as [[]|]; cbn [bind]; try discriminate.
    destruct (getitem_str result _) as [content|]; cbn [bind]; [|discriminate].
    destruct (first_item_of content) as [[first|]|]; cbn [bind]; try discriminate.
    apply first_text_success.
Qed.

Lemma regex_stage_success (response : PyVal) (t : triple) :
  regex_stage response = Ok (Some t) -> snd (fst t) = false /\ snd t = PyNone.
Proof.
  unfold regex_stage. destruct response; try discriminate.
  intros [= H]. now apply text_regex_success in H.
Qed.

Lemma handler_success (response : PyVal) (t : triple) :
  parse_tool_response_handler response = Ok t ->
  snd (fst t) = false /\ snd t = PyNone.
Proof.
  unfold parse_tool_response_handler.
  destruct response; try (intros [= <-]; now split).
  destruct (text_regex s) eqn:T; intros [= <-]; [|now split].
  now apply text_regex_success in T.
Qed.

Lemma root_stage_shape (response : PyVal) (t : triple) :
  root_stage ast_literal_eval response = Ok (Some t) ->
  (exists s, response = PyStr s /\ startswith (u "root=") s = true) /\ well_formed t.
Proof.
  unfold root_stage. destruct response; try discriminate.
  destruct (startswith (u "root=") s) eqn:P; [|discriminate].
  intro H. split; [now exists s|]. revert H.
  destruct (extract_jsonrpc _ _ _) as [result|]; cbn [bind]; [|discriminate].
  unfold or_else.
  destruct (truthy result).
  - destruct (get_method result _ _) as [is_error|]; cbn [bind]; [|discriminate].
    destruct (truthy is_error).
    + destruct (get_method result _ _); cbn [bind]; [|discriminate].
      intros [= <-]. reflexivity.
    + assert (T : forall t', text_regex s = Some t' -> well_formed t').
      { intros [[v e] m] Ht. apply text_regex_success in Ht as [E1 E2].
        cbn in E1, E2. subst. reflexivity. }
      destruct (contains_str result _) as [[]|]; cbn [bind]; try discriminate.
      * destruct (getitem_str result _) as [items|]; cbn [bind]; [|discriminate].
        destruct (is_list items); cbn [bind].
        -- destruct (py_len items) as [n|]; cbn [bind]; [|discriminate].
           destruct (0 <? n)%nat; cbn [bind].
           ++ destruct (getitem_0 items) as [item|]; cbn [bind]; [|discriminate].
              destruct (first_text_of_dict_item item) as [[t'|]|] eqn:F; cbn [bind];
                try discriminate.
              ** intros [= <-]. apply first_text_success in F as [E1 E2].
                 destruct t' as [[v e] m]. cbn in E1, E2. subst. reflexivity.
              ** intros [= H]. now apply T.
           ++ intros [= H]. now apply T.
        -- intros [= H]. now apply T.
      * intros [= H]. now apply T.
  - cbn [bind]. intros [= H]. apply text_regex_success in H as [E1 E2].
    destruct t as [[v e] m]. cbn in E1, E2. subst. reflexivity.
Qed.

(** X5: every triple [parse_tool_response] returns is well formed: a
    failure carries no value, a success no message.  And a failure is
    only ever reported for a string with the prefix [root=]: for
    every other reply the flag is false. *)
Theorem parse_tool_response_flags (response : PyVal)
        (value : PyVal) (is_error : bool) (error_message : PyVal) :
  parse_tool_response ast_literal_eval response = Ok (value, is_error, error_message) ->
  well_formed (value, is_error, error_message) /\
  (is_error = true ->
   exists s, response = PyStr s /\ startswith (u "root=") s = true).
Proof.
  assert (S : forall t : triple, snd (fst t) = false /\ snd t = PyNone ->
                t = (value, is_error, error_message) ->
                well_formed (value, is_error, error_message) /\
                (is_error = true ->
                 exists s, response = PyStr s /\ startswith (u "root=") s = true)).
  { intros [[v e] m] [E1 E2] [= <- <- <-]. cbn in E1, E2. subst.
    split; [reflexivity | discriminate]. }
  unfold parse_tool_response, try_except, parse_tool_response_body, or_else.
  destruct (root_stage ast_literal_eval response) as [[t|]|] eqn:R; cbn [bind].
  - intros [= ->]. apply root_stage_shape in R as [R W]. split; [exact W | now intros _].
  - destruct (native_stage response) as [[t|]|] eqn:N; cbn [bind].
    + intros [= E]. apply (S t); [exact (native_stage_success response t N) | exact E].
    + destruct (regex_stage response) as [[t|]|] eqn:G; cbn [bind].
      * intros [= E]. apply (S t); [exact (regex_stage_success response t G) | exact E].
      * intro E. apply (S unrecognized); [now split | congruence].
      * intro E. apply (S _ (handler_success response _ E) eq_refl).
    + intro E. apply (S _ (handler_success response _ E) eq_refl).
  - intro E. apply (S _ (handler_success response _ E) eq_refl).
Qed.

(** X8: with its streams set, the notification that follows the
    initialisation never raises, whether the send works or fails; it
    carries no identifier, uses none, and leaves the client as it
    was. *)
Theorem initialized_notification_never_fails (s : Client * World) :
  streams (fst s) = true ->
  fst (_send_initialized_notification s) = Returns tt /\
  fst (snd (_send_initialized_notification s)) = fst s /\
  sent_ids (snd (snd (_send_initialized_notification s))) = sent_ids (snd s) /\
  (outbox (snd (snd (_send_initialized_notification s))) = outbox (snd s) \/
   outbox (snd (snd (_send_initialized_notification s)))
   = outbox (snd s) ++ [{| msg_id := None; msg_method := u "notifications/initialized";
                           msg_params := None |}]).
Proof.
  intro H. destruct (send_initialized_notification_streams s H) as (R & C & _ & I).
  repeat split; try assumption.
  unfold _send_initialized_notification, mbind, get_self, mtry, send.
  cbn [fst snd]. rewrite H. cbn [negb].
  destruct (send_faults (snd s)) as [|[e|] f]; cbn [fst snd outbox]; auto.
Qed.

(** X7: the initialisation request returns the reply exactly where the
    request could be sent and a value that is data arrived; a failing
    send, a failing receive and an exception object that arrives are
    raised to the caller.  Only where it returns is the client marked
    initialized; the request identifier is used up in every case. *)
Theorem send_initialize_request_outcome (s : Client * World) :
  streams (fst s) = true ->
  let done := _send_initialize_request s in
  fst done
  = match hd None (send_faults (snd s)) with
    | Some e => Raises e
    | None =>
        match fst (receive_from (inbox (snd s))) with
        | Returns v => if is_exception v then Raises (Raised v) else Returns v
        | other => other
        end
    end /\
  initialized (fst (snd done)) = initialized (fst s) || is_returns (fst done) /\
  _request_id (fst (snd done)) = (_request_id (fst s) + 1)%Z.
Proof.
  intros Hs done. unfold done, _send_initialize_request, set_initialized.
  unfold mbind, get_self, set_self, next_request_id, send, receive, raise, ret.
  cbn [fst snd _get_next_request_id]. rewrite Hs. cbn [negb].
  destruct (send_faults (snd s)) as [|[e|] f]; cbn [hd fst snd inbox initialized
    _request_id is_returns];
    try (rewrite orb_false_r; now repeat split);
    (destruct (receive_from (inbox (snd s))) as [[v|e'|] i]; cbn [fst snd];
     [destruct (is_exception v)|..];
     cbn [fst snd initialized _request_id is_returns];
     rewrite ?orb_false_r, ?orb_true_r; now repeat split).
Qed.

End OutcomeFacts.

(** ** Reply objects, and the order of the handshake *)

Section HandshakeFacts.
Variable ast_literal_eval : pystr -> result PyVal.
Variable builtin_str : PyVal -> pystr.

Lemma first_match_dicts (ts : list TextContent) :
  first_match (text_of_typed_dict true) (List.map item_dict (List.map ItemText ts))
  = Ok (option_map PyStr (first_typed_text (List.map ItemText ts))).
Proof.
  induction ts as [|t ts IH]; [reflexivity|].
  cbn [List.map item_dict first_match first_typed_text].
  unfold text_of_typed_dict. cbn [negb orb is_dict get_method]. spell.
  cbn [dict_lookup lookup_by eq_str pystr_eqb N.eqb Pos.eqb andb bind contains_str
       getitem_str].
  destruct (pystr_eqb (tc_type t) _); [reflexivity|]. cbn [bind]. exact IH.
Qed.

Lemma prefixed_string_is_response (st : styling) (r : ToolCallResult) :
  startswith (u "root=JSONRPCResponse") (prefixed_string st r) = true.
Proof. reflexivity. Qed.


Lemma send_initialize_request_run (s : Client * World) (v : PyVal)
      (later : list inbound) :
  streams (fst s) = true -> hd None (send_faults (snd s)) = None ->
  receive_from (inbox (snd s)) = (Returns v, later) -> is_exception v = false ->
  _send_initialize_request s
  = (Returns v,
     ({| streams := true; _request_id := _request_id (fst s) + 1;
         initialized := true; available_tools := available_tools (fst s) |},
      {| inbox := later; send_faults := tl (send_faults (snd s));
         outbox := outbox (snd s)
           ++ [{| msg_id := Some (str_of_int (_request_id (fst s) + 1));
                  msg_method := u "initialize";
                  msg_params := Some initialize_params |}];
         decoded := decoded (snd s) |})).
Proof.
  intros Hs Hf Hr Hv. unfold _send_initialize_request, set_initialized.
  unfold mbind, get_self, set_self, next_request_id, send, receive, raise, ret.
  cbn [fst snd _get_next_request_id]. rewrite Hs. cbn [negb].
  destruct (send_faults (snd s)) as [|[e|] f]; [|discriminate|];
    cbn [fst snd inbox]; rewrite Hr; rewrite Hv; unfold with_inbox;
    cbn [fst snd inbox send_faults outbox decoded streams _request_id initialized
         available_tools tl]; rewrite ?Hs; reflexivity.
Qed.

Lemma send_initialized_notification_run (s : Client * World) :
  streams (fst s) = true -> hd None (send_faults (snd s)) = None ->
  _send_initialized_notification s
  = (Returns tt,
     (fst s,
      {| inbox := inbox (snd s); send_faults := tl (send_faults (snd s));
         outbox := outbox (snd s)
           ++ [{| msg_id := None; msg_method := u "notifications/initialized";
                  msg_params := None |}];
         decoded := decoded (snd s) |})).
Proof.
  intros Hs Hf. unfold _send_initialized_notification, mbind, get_self, mtry, send.
  cbn [fst snd]. rewrite Hs. cbn [negb].
  destruct (send_faults (snd s)) as [|[e|] f]; [|discriminate|]; reflexivity.
Qed.

(** What [list_tools] has sent. *)
Lemma list_tools_outbox (s : Client * World) :
  streams (fst s) = true -> initialized (fst s) = true ->
  hd None (send_faults (snd s)) = None ->
  outbox (snd (snd (list_tools ast_literal_eval builtin_str s)))
  = outbox (snd s)
      ++ [{| msg_id := Some (str_of_int (_request_id (fst s) + 1));
             msg_method := u "tools/list"; msg_params := Some (PyDict []) |}].
Proof.
  intros Hs Hi Hf. destruct (data_reply (snd s)) as [v|] eqn:D.
  - apply data_reply_some in D as (_ & [i Hb] & Ev).
    rewrite (list_tools_run ast_literal_eval builtin_str s v i Hs Hi Hf Hb Ev).
    cbn [fst snd].
    match goal with
    | |- context [mtry ?m ?h ?st] =>
        destruct (steady_try _ same_but_tools_trans m h
                    (parse_tools_list_steady ast_literal_eval builtin_str v)
                    (fun _ => steady_ret _ same_but_tools_refl tt) st)
          as (H1 & _)
    end.
    rewrite H1. reflexivity.
  - unfold data_reply in D. rewrite Hf in D. unfold list_tools.
    unfold mbind at 1. unfold get_self. cbn [fst snd]. rewrite Hs, Hi. cbn [negb orb].
    unfold mbind at 1. unfold next_request_id. cbn [fst snd _get_next_request_id].
    unfold mtry at 1. unfold mbind at 1. unfold send. cbn [fst snd].
    destruct (send_faults (snd s)) as [|[e|] f]; [|discriminate|];
      unfold mbind at 1; unfold mtry at 1; unfold mbind at 1;
      unfold receive_within_timeout; cbn [fst snd inbox];
      destruct (inbox (snd s)) as [|[v|e|] i]; try reflexivity;
      (destruct (is_exception v) eqn:Ev; [|discriminate]);
      destruct (extract_jsonrpc_whole ast_literal_eval v) as [x Hx];
      unfold mbind at 1; rewrite Hx; cbn [lift ret]; rewrite Ev; reflexivity.
Qed.

(** X10: where nothing fails, [initialize] sends the three messages of
    the handshake in their order: the initialisation request, the
    notification without an identifier, and the request for the
    tools; and it returns the reply to the first of them, whatever
    comes back for the third. *)
Theorem initialize_handshake (s : Client * World) (v : PyVal) (later : list inbound) :
  send_faults (snd s) = [] ->
  receive_from (inbox (snd s)) = (Returns v, later) ->
  is_exception v = false ->
  fst (initialize ast_literal_eval builtin_str (Some true) s) = Returns v /\
  outbox (snd (snd (initialize ast_literal_eval builtin_str (Some true) s)))
  = outbox (snd s) ++ handshake (_request_id (fst s)).
Proof.
  intros Hf Hr Hv. unfold initialize.
  rewrite (mbind_returns (set_streams true) _ s
             ({| streams := true; _request_id := _request_id (fst s);
                 initialized := initialized (fst s);
                 available_tools := available_tools (fst s) |}, snd s) tt eq_refl).
  erewrite mbind_returns;
    [|apply send_initialize_request_run;
      [reflexivity | cbn [snd]; now rewrite Hf | exact Hr | exact Hv]].
  erewrite mbind_returns;
    [|apply send_initialized_notification_run;
      [reflexivity | cbn [snd send_faults]; now rewrite Hf]].
  cbn [fst snd streams _request_id initialized available_tools inbox send_faults
       outbox decoded]. rewrite Hf. cbn [tl].
  match goal with
  | |- context [list_tools _ _ ;;; _] =>
      match goal with
      | |- fst (mbind (mtry _ _) _ ?st) = _ /\ _ =>
          pose proof (list_tools_outbox st eq_refl eq_refl eq_refl) as O;
          destruct (list_tools_state ast_literal_eval builtin_str st eq_refl eq_refl)
            as ([x L] & _)
      end
  end.
  unfold mbind, mtry.
  destruct (list_tools ast_literal_eval builtin_str _) as [o s3]; cbn [fst snd] in *.
  rewrite L. cbn [ret fst snd]. split; [reflexivity|].
  cbn [fst snd outbox _request_id] in O.
  rewrite O. unfold handshake. rewrite <- !app_assoc. cbn [app].
  replace (_request_id (fst s) + 1 + 1)%Z with (_request_id (fst s) + 2)%Z by lia.
  reflexivity.
Qed.

End HandshakeFacts.

(** * Instances *)





Lemma request_ids_fresh_witness :
  exists x y, int_of_str (u "1") = Some x /\ int_of_str (u "3") = Some y /\ (x < y)%Z.
Proof.
  apply (proj2 (proj2 (proj2 (request_ids_fresh 3))) 0%nat 2%nat (u "1") (u "3"));
    [lia | reflexivity | reflexivity].
Defined.

Lemma get_text_value_cases_witness :
  get_text_value result_42 = PyStr (u "42").
Proof.
  apply (proj1 (get_text_value_cases result_42)
               {| tc_type := u "text"; tc_text := u "42" |} []).
  reflexivity.
Defined.


(** A text on which [re_result] finds nothing holds no fragment. *)
Lemma no_result_fragment (s : pystr) :
  re_search re_result s = None ->
  forall a b c, s <> a ++ u "result={" ++ b ++ u "}" ++ c.
Proof.
  intros H a b c ->. destruct (re_result_complete a b c) as [m E]. congruence.
Qed.

Lemma extract_jsonrpc_none_witness :
  extract_jsonrpc no_literal_eval PyNone None = Ok PyNone /\
  extract_jsonrpc no_literal_eval (PyStr []) None = Ok PyNone /\
  extract_jsonrpc no_literal_eval (PyInt 7) (Some (u "tools")) = Ok PyNone /\
  extract_jsonrpc no_literal_eval (native_reply result_42) None = Ok PyNone /\
  extract_jsonrpc no_literal_eval (PyStr (u "result={'content': []}")) None
  = Ok PyNone /\
  extract_jsonrpc no_literal_eval
    (PyStr (u "root=JSONRPCError(id='1', error={'code': -32601})")) None
  = Ok PyNone.
Proof.
  repeat apply conj; apply extract_jsonrpc_none; intros s E;
    try discriminate E; injection E as <-;
    try (left; reflexivity).
  right. apply no_result_fragment. vm_compute. reflexivity.
Defined.

Lemma unready_client_sends_nothing_witness :
  _send_initialize_request
    (new_client, {| inbox := []; send_faults := []; outbox := []; decoded := [] |})
  = (Raises no_streams,
     (new_client, {| inbox := []; send_faults := []; outbox := []; decoded := [] |})).
Proof.
  apply (unready_client_sends_nothing no_literal_eval no_builtin_str
           (new_client, {| inbox := []; send_faults := []; outbox := []; decoded := [] |})
           (u "random_uint64") []).
  reflexivity.
Defined.



Lemma call_tool_initializes_first_witness :
  call_tool no_literal_eval no_builtin_str (u "random_uint64") []
    (fresh_session (PyStr (u "ready")) (PyStr scenario_42))
  = (initialize_with_streams ;;;
     call_tool no_literal_eval no_builtin_str (u "random_uint64") [])
      (fresh_session (PyStr (u "ready")) (PyStr scenario_42)).
Proof.
  apply (call_tool_initializes_first no_literal_eval no_builtin_str); reflexivity.
Defined.






Lemma call_any_tool_outcome_witness :
  call_any_tool no_literal_eval no_builtin_str TOOL_POSTGRES_QUERY_SELECT
    (Some [(PyStr (u "query"), PyStr [])]) (session (PyList []) (PyStr scenario_42))
  = (Returns PyNone, session (PyList []) (PyStr scenario_42)).
Proof.
  exact (call_any_tool_outcome no_literal_eval no_builtin_str
           TOOL_POSTGRES_QUERY_SELECT [(PyStr (u "query"), PyStr [])]
           (session (PyList []) (PyStr scenario_42))).
Defined.


Lemma tool_args_of_simple_argument_witness :
  tool_args_of (Some TOOL_POSTGRES_SCHEMA_DDLS) (u "public")
  = Some (PyDict [(PyStr (u "schema_name"), PyStr (u "public"))]).
Proof.
  apply (tool_args_of_simple_argument (Some TOOL_POSTGRES_SCHEMA_DDLS) (u "public")).
  reflexivity.
Defined.

Lemma text_regex_sound_witness :
  exists before sp v after,
    u "{'type': 'text', 'text':  'hello world'}"
    = before ++ u "'text':" ++ sp ++ u "'" ++ v ++ u "'" ++ after /\
    forallb is_space sp = true /\ v <> [] /\ no_quote v = true /\
    (PyStr (u "hello world"), false, PyNone) = (PyStr v, false, PyNone).
Proof.
  apply (text_regex_sound (u "{'type': 'text', 'text':  'hello world'}")
           (PyStr (u "hello world"), false, PyNone)).
  reflexivity.
Defined.

Lemma extract_jsonrpc_field_witness :
  extract_jsonrpc no_literal_eval (PyStr scenario_42) (Some (u "isError"))
  = Ok (PyBool false).
Proof.
  apply (extract_jsonrpc_field no_literal_eval (PyStr scenario_42) (u "isError")
           [(PyStr (u "content"),
             PyList [PyDict [(PyStr (u "type"), PyStr (u "text"));
                             (PyStr (u "text"), PyStr (u "42"))]]);
            (PyStr (u "isError"), PyBool false)]);
    [reflexivity | discriminate | reflexivity].
Defined.

Lemma parse_tool_response_flags_witness :
  well_formed (PyNone, true, PyStr (u "boom")) /\
  (true = true ->
   exists s, encode PrefixedLiteral failed_result = PyStr s /\
             startswith (u "root=") s = true).
Proof.
  apply (parse_tool_response_flags no_literal_eval
           (encode PrefixedLiteral failed_result) PyNone true (PyStr (u "boom"))).
  reflexivity.
Defined.

Lemma initialized_notification_never_fails_witness :
  fst (_send_initialized_notification (session (PyList []) PyNone)) = Returns tt.
Proof.
  apply (initialized_notification_never_fails (session (PyList []) PyNone)).
  reflexivity.
Defined.

Lemma send_initialize_request_outcome_witness :
  fst (_send_initialize_request (session (PyList []) peer_fault))
  = Raises (Raised peer_fault).
Proof.
  apply (send_initialize_request_outcome (session (PyList []) peer_fault)).
  reflexivity.
Defined.


Lemma initialize_handshake_witness :
  fst (initialize no_literal_eval no_builtin_str (Some true)
         (fresh_session (PyStr (u "ready")) reply_empty_tools))
  = Returns (PyStr (u "ready")).
Proof.
  apply (initialize_handshake no_literal_eval no_builtin_str
           (fresh_session (PyStr (u "ready")) reply_empty_tools)
           (PyStr (u "ready")) [Deliver reply_empty_tools]);
    reflexivity.
Defined.

Lemma parse_tool_response_root_failure_witness :
  parse_tool_response no_literal_eval (encode PrefixedLiteral failed_result)
  = Ok (PyNone, true, PyStr (u "boom")).
Proof.
  apply (parse_tool_response_root_failure no_literal_eval
           (prefixed_string Literal failed_result)
           [(PyStr (u "content"),
             PyList [PyDict [(PyStr (u "type"), PyStr (u "text"));
                             (PyStr (u "text"), PyStr (u "boom"))]]);
            (PyStr (u "isError"), PyBool true);
            (PyStr (u "message"), PyStr (u "boom"))]);
    [reflexivity | vm_compute; reflexivity | discriminate | reflexivity].
Defined.
